(** * Console exercises: hospital records, transaction ledger, library checkout

    A shallow embedding of [practical/q2_hospital.cpp],
    [practical/q3_transactions.cpp] and [practical/q4_library.cpp].

    Each program is embedded as state-passing functions over an explicit
    process state: the standard input and output streams, the objects
    allocated with [new] (a finite map from addresses to objects) and the
    static counters.  A scalar that C++ leaves uninitialised is [None];
    using such a value is undefined behaviour, written [Undefined].  An
    object created by [new T()] of a class without a constructor of its
    own is zero-initialised first: its numbers are 0. *)

From Stdlib Require Import ZArith String Ascii List Lia Bool.
From Stdlib Require Import DecimalString DecimalZ SpecFloat.
From stdpp Require Import base option gmap list.

Open Scope string_scope.
Open Scope Z_scope.

(** ** Results of executions *)

Inductive result (A : Type) : Type :=
| Ok (a : A)
| Undefined.
Arguments Ok {A} a.
Arguments Undefined {A}.

#[global] Instance result_ret : MRet result := fun A a => Ok a.
#[global] Instance result_bind : MBind result := fun A B f m =>
  match m with
  | Ok a => f a
  | Undefined => Undefined
  end.

(** Reading a scalar: an indeterminate value may not be read. *)
Definition load {A : Type} (x : option A) : result A :=
  match x with
  | Some v => Ok v
  | None => Undefined
  end.

(** ** The iostream operations the programs use *)

Module Stream.

Definition INT_MAX : Z := 2147483647.
Definition INT_MIN : Z := -2147483648.

(** The value an [int] holds after an arithmetic result [z]
    (two's complement wrap-around). *)
Definition wrap_int (z : Z) : Z :=
  (z + 2147483648) mod 4294967296 - 2147483648.

(** The newline character and the double quote, which have no literal. *)
Definition nl : string := String (ascii_of_nat 10) "".
Definition dq : string := String (ascii_of_nat 34) "".

(** [std::isspace] in the "C" locale. *)
Definition isspace (c : ascii) : bool :=
  let n := nat_of_ascii c in
  Nat.eqb n 32 || (Nat.leb 9 n && Nat.leb n 13).

Definition isdigit (c : ascii) : bool :=
  let n := nat_of_ascii c in
  Nat.leb 48 n && Nat.leb n 57.

Fixpoint skipws (s : string) : string :=
  match s with
  | String c r => if isspace c then skipws r else s
  | EmptyString => EmptyString
  end.

(** The longest prefix whose characters satisfy [p], and the rest. *)
Fixpoint span (p : ascii -> bool) (s : string) : string * string :=
  match s with
  | String c r =>
      if p c then let '(a, b) := span p r in (String c a, b)
      else (EmptyString, s)
  | EmptyString => (EmptyString, EmptyString)
  end.

(** An optional sign: [true] for a minus. *)
Definition take_sign (s : string) : bool * string :=
  match s with
  | String "-" r => (true, r)
  | String "+" r => (false, r)
  | _ => (false, s)
  end.

(** The value of a string of decimal digits. *)
Definition digits_value (ds : string) : Z :=
  match NilEmpty.uint_of_string ds with
  | Some d => Z.of_uint d
  | None => 0
  end.

(** *** Input *)

(** [buf] is what is left to read; the two state bits are sticky (no
    program calls [clear]). *)
Record istream : Type := {
  buf : string;
  eofbit : bool;
  failbit : bool
}.

Definition good (ist : istream) : bool :=
  negb (eofbit ist) && negb (failbit ist).

(** The stream over a given input text. *)
Definition from_text (s : string) : istream :=
  {| buf := s; eofbit := false; failbit := false |}.

Definition setfail (ist : istream) : istream :=
  {| buf := buf ist; eofbit := eofbit ist; failbit := true |}.

(** State after consuming up to [rest]: reaching the end of the input
    while scanning sets [eofbit]. *)
Definition advance (rest : string) (fail : bool) : istream :=
  {| buf := rest;
     eofbit := match rest with EmptyString => true | _ => false end;
     failbit := fail |}.

Definition at_eof : istream :=
  {| buf := EmptyString; eofbit := true; failbit := true |}.

(** [cin >> x] for [int x].  The operand is passed in and handed back:
    it keeps its old value when the stream was not good or holds only
    white space; a field that is not a number stores 0, and a number out
    of range stores the nearest bound, both setting [failbit]. *)
Definition get_int (ist : istream) (x : option Z) : option Z * istream :=
  if good ist then
    match skipws (buf ist) with
    | EmptyString => (x, at_eof)
    | s =>
        let '(neg, s1) := take_sign s in
        let '(ds, rest) := span isdigit s1 in
        match ds with
        | EmptyString => (Some 0, advance rest true)
        | _ =>
            let v := if neg then - digits_value ds else digits_value ds in
            if v <? INT_MIN then (Some INT_MIN, advance rest true)
            else if INT_MAX <? v then (Some INT_MAX, advance rest true)
            else (Some v, advance rest false)
        end
    end
  else (x, setfail ist).

(** [cin >> x] for [std::string x]: one word delimited by white space. *)
Definition get_word (ist : istream) (x : string) : string * istream :=
  if good ist then
    match skipws (buf ist) with
    | EmptyString => (x, at_eof)
    | s => let '(w, rest) := span (fun c => negb (isspace c)) s in
           (w, advance rest false)
    end
  else (x, setfail ist).

(** [cin.ignore()]: drops one character. *)
Definition ignore (ist : istream) : istream :=
  if good ist then
    match buf ist with
    | String _ r => {| buf := r; eofbit := false; failbit := false |}
    | EmptyString => {| buf := EmptyString; eofbit := true; failbit := false |}
    end
  else setfail ist.

(** The text up to the first newline, and what follows the newline;
    [None] when there is no newline. *)
Fixpoint until_nl (s : string) : string * option string :=
  match s with
  | String c r =>
      if Ascii.eqb c (ascii_of_nat 10) then (EmptyString, Some r)
      else let '(a, b) := until_nl r in (String c a, b)
  | EmptyString => (EmptyString, None)
  end.

(** [getline(cin, x)]: the rest of the current line, without skipping
    white space. *)
Definition getline (ist : istream) (x : string) : string * istream :=
  if good ist then
    match until_nl (buf ist) with
    | (l, Some r) => (l, {| buf := r; eofbit := false; failbit := false |})
    | (l, None) =>
        (l, {| buf := EmptyString; eofbit := true;
               failbit := match l with EmptyString => true | _ => false end |})
    end
  else (x, setfail ist).

(** *** Output of integers *)

(** [cout << z] for [int z]. *)
Definition put_int (z : Z) : string :=
  NilZero.string_of_int (Z.to_int z).

(** *** Floating-point values

    A [double] is a binary64 number in the Standard Library's
    specification format ([prec = 53], [emax = 1024]). *)

Definition double : Type := spec_float.

Definition DBL_MAX (neg : bool) : double :=
  S754_finite neg 9007199254740991 971.

(** The binary64 number nearest to [d * 10 ^ k] (ties to even), as
    [strtod] computes it for a decimal field with digits [d]. *)
Definition decimal_to_double (neg : bool) (d : Z) (k : Z) : double :=
  match d with
  | Zpos p =>
      if 0 <=? k then binary_round 53 1024 neg (Z.to_pos (d * 10 ^ k)) 0
      else
        let '(q, e, l) := SFdiv_core_binary 53 1024 d 0 (10 ^ (- k)) 0 in
        binary_round_aux 53 1024 neg q e l
  | _ => S754_zero neg
  end.

Definition is_e (c : ascii) : bool :=
  Ascii.eqb c "e" || Ascii.eqb c "E".

(** The exponent part of a floating-point field: [Some k] for a well
    formed or absent exponent, [None] for an [e] followed by no digit. *)
Definition take_exponent (s : string) : option Z * string :=
  match s with
  | String c r =>
      if is_e c then
        let '(eneg, r1) := take_sign r in
        let '(ed, r2) := span isdigit r1 in
        match ed with
        | EmptyString => (None, r2)
        | _ => (Some (if eneg then - digits_value ed else digits_value ed), r2)
        end
      else (Some 0, s)
  | EmptyString => (Some 0, s)
  end.

(** [cin >> x] for [double x]: sign, digits, one decimal point, digits,
    exponent.  A malformed field stores 0 and an overflowing one the
    largest finite value, both setting [failbit]. *)
Definition get_double (ist : istream) (x : option double)
  : option double * istream :=
  if good ist then
    match skipws (buf ist) with
    | EmptyString => (x, at_eof)
    | s =>
        let '(neg, s1) := take_sign s in
        let '(ip, s2) := span isdigit s1 in
        let '(fp, s3) :=
          match s2 with
          | String "." r => span isdigit r
          | _ => (EmptyString, s2)
          end in
        match ip ++ fp with
        | EmptyString => (Some (S754_zero false), advance s3 true)
        | ds =>
            match take_exponent s3 with
            | (None, rest) => (Some (S754_zero false), advance rest true)
            | (Some ex, rest) =>
                match decimal_to_double neg (digits_value ds)
                        (ex - Z.of_nat (String.length fp)) with
                | S754_infinity sg => (Some (DBL_MAX sg), advance rest true)
                | v => (Some v, advance rest false)
                end
            end
        end
    end
  else (x, setfail ist).

(** Rounding the quotient [n / d] to the nearest integer, ties to even. *)
Definition round_half_even (n d : Z) : Z :=
  let q := n / d in
  match (2 * (n mod d)) ?= d with
  | Lt => q
  | Gt => q + 1
  | Eq => if Z.even q then q else q + 1
  end.

(** [10 ^ x <= n / d], for positive [n] and [d]. *)
Definition pow10_le (x n d : Z) : bool :=
  if 0 <=? x then 10 ^ x * d <=? n else d <=? n * 10 ^ (- x).

(** The decimal exponent of [n / d]: the largest [x] at or below the
    start with [10 ^ x <= n / d]. *)
Fixpoint decimal_exponent (fuel : nat) (x n d : Z) : Z :=
  match fuel with
  | O => x
  | S f => if pow10_le x n d then x else decimal_exponent f (x - 1) n d
  end.

(** A number above the decimal exponent of [n / d], by at most 2: the
    binary exponent times [log 2 / log 10], rounded up. *)
Definition exponent_bound (n d : Z) : Z :=
  (Z.log2 n + 1 - Z.log2 d) * 30103 / 100000 + 1.

(** The digits of [z] on at least [w] places. *)
Definition pad_int (w : nat) (z : Z) : string :=
  let s := put_int z in
  String.concat "" (repeat "0" (w - String.length s)) ++ s.

(** A fraction of [p] places with digits [f], trailing zeros removed;
    nothing at all when no digit is left. *)
Fixpoint fraction (p : nat) (f : Z) : string :=
  match p with
  | O => EmptyString
  | S p' => if f mod 10 =? 0 then fraction p' (f / 10)
            else "." ++ pad_int p f
  end.

(** The six significant digits of [n / d] and their decimal exponent,
    in the style of [printf("%g")]. *)
Definition format_g (n d : Z) : string :=
  let x := decimal_exponent 8 (exponent_bound n d) n d in
  let m := if 5 <=? x then round_half_even n (d * 10 ^ (x - 5))
           else round_half_even (n * 10 ^ (5 - x)) d in
  let '(m, x) := if 1000000 <=? m then (m / 10, x + 1) else (m, x) in
  if (-4 <=? x) && (x <? 6) then
    let p := 5 - x in
    put_int (m / 10 ^ p) ++ fraction (Z.to_nat p) (m mod 10 ^ p)
  else
    put_int (m / 100000) ++ fraction 5 (m mod 100000)
      ++ "e" ++ (if x <? 0 then "-" else "+") ++ pad_int 2 (Z.abs x).

(** [cout << x] for [double x] with the stream's initial settings
    (general notation, precision 6). *)
Definition put_double (x : double) : string :=
  match x with
  | S754_zero s => if s then "-0" else "0"
  | S754_infinity s => if s then "-inf" else "inf"
  | S754_nan => "nan"
  | S754_finite s m e =>
      (if s then "-" else "")
      ++ (if 0 <=? e then format_g (Zpos m * 2 ^ e) 1
          else format_g (Zpos m) (2 ^ (- e)))
  end.

End Stream.

(** ** Processes

    The state of a running program: its static variables, the objects
    created with [new] and not yet deleted, and the two standard streams.
    [St] is the type of the statics and [Obj] the type of the objects. *)

Definition loc : Type := positive.

Record process (St Obj : Type) : Type := {
  statics : St;
  heap : gmap loc Obj;
  cin : Stream.istream;
  cout : string
}.
Arguments statics {St Obj} p.
Arguments heap {St Obj} p.
Arguments cin {St Obj} p.
Arguments cout {St Obj} p.

Section Process.
Context {St Obj : Type}.

Definition set_statics (s : St) (p : process St Obj) : process St Obj :=
  {| statics := s; heap := heap p; cin := cin p; cout := cout p |}.
Definition set_heap (h : gmap loc Obj) (p : process St Obj) : process St Obj :=
  {| statics := statics p; heap := h; cin := cin p; cout := cout p |}.
Definition set_cin (i : Stream.istream) (p : process St Obj) : process St Obj :=
  {| statics := statics p; heap := heap p; cin := i; cout := cout p |}.
Definition set_cout (o : string) (p : process St Obj) : process St Obj :=
  {| statics := statics p; heap := heap p; cin := cin p; cout := o |}.

(** A statement or expression: it runs in a process state and either
    yields a value and the next state, or is undefined. *)
Definition prog (A : Type) : Type := process St Obj -> result (A * process St Obj).

Definition ret {A : Type} (a : A) : prog A := fun p => Ok (a, p).

Definition bind {A B : Type} (c : prog A) (k : A -> prog B) : prog B :=
  fun p =>
    match c p with
    | Ok (a, p') => k a p'
    | Undefined => Undefined
    end.

(** Reading a variable that may be indeterminate. *)
Definition use {A : Type} (x : option A) : prog A :=
  fun p => match x with
           | Some v => Ok (v, p)
           | None => Undefined
           end.

(** Reading and writing the static variables. *)
Definition get_statics : prog St := fun p => Ok (statics p, p).
Definition put_statics (s : St) : prog unit := fun p => Ok (tt, set_statics s p).

(** [cout << s]. *)
Definition emit (s : string) : prog unit :=
  fun p => Ok (tt, set_cout (cout p ++ s) p).

(** [cin >> x], by the type of [x]; the result is the new value of [x]. *)
Definition cin_int (x : option Z) : prog (option Z) :=
  fun p => let '(v, i) := Stream.get_int (cin p) x in Ok (v, set_cin i p).

Definition cin_word (x : string) : prog string :=
  fun p => let '(v, i) := Stream.get_word (cin p) x in Ok (v, set_cin i p).

Definition cin_double (x : option Stream.double) : prog (option Stream.double) :=
  fun p => let '(v, i) := Stream.get_double (cin p) x in Ok (v, set_cin i p).

Definition cin_ignore : prog unit :=
  fun p => Ok (tt, set_cin (Stream.ignore (cin p)) p).

Definition cin_getline (x : string) : prog string :=
  fun p => let '(v, i) := Stream.getline (cin p) x in Ok (v, set_cin i p).

(** [new T()] for an already constructed object: a fresh address. *)
Definition new (o : Obj) : prog loc :=
  fun p => let l := fresh (dom (heap p)) in
           Ok (l, set_heap (<[l := o]> (heap p)) p).

(** [delete q]. *)
Definition delete_obj (l : loc) : prog unit :=
  fun p => match heap p !! l with
           | Some _ => Ok (tt, set_heap (delete l (heap p)) p)
           | None => Undefined
           end.

(** [*q] as a value, and as the target of an assignment. *)
Definition deref (l : loc) : prog Obj :=
  fun p => match heap p !! l with
           | Some o => Ok (o, p)
           | None => Undefined
           end.

Definition assign (l : loc) (o : Obj) : prog unit :=
  fun p => match heap p !! l with
           | Some _ => Ok (tt, set_heap (<[l := o]> (heap p)) p)
           | None => Undefined
           end.

(** [q->m()] for a member function [m], which maps the object it is
    called on to its state after the call. *)
Definition call (l : loc) (m : Obj -> prog Obj) : prog unit :=
  bind (deref l) (fun o => bind (m o) (fun o' => assign l o')).

(** [q->m()] for a member function that also returns a value, and for
    a [const] member function, which cannot change the object. *)
Definition call_value {R : Type} (l : loc) (m : Obj -> prog (R * Obj)) : prog R :=
  bind (deref l) (fun o =>
  bind (m o) (fun ro => bind (assign l (snd ro)) (fun _ => ret (fst ro)))).

Definition call_const {R : Type} (l : loc) (m : Obj -> prog R) : prog R :=
  bind (deref l) m.

(** [a[i]] for an array of pointers, some of them not yet assigned. *)
Definition elem (a : list (option loc)) (i : Z) : prog loc :=
  fun p => match a !! Z.to_nat i with
           | Some (Some l) => Ok (l, p)
           | _ => Undefined
           end.

(** [for (int i = lo; i < hi; i++) body], the body run
    [Z.to_nat (hi - lo)] times; [acc] stands for the variables the
    body assigns. *)
Fixpoint for_count {T : Type} (k : nat) (i : Z)
    (body : Z -> T -> prog T) (acc : T) : prog T :=
  match k with
  | O => ret acc
  | S k' =>
      bind (body i acc) (fun acc' => for_count k' (i + 1) body acc')
  end.

Definition for_range {T : Type} (lo hi : Z)
    (body : Z -> T -> prog T) (acc : T) : prog T :=
  for_count (Z.to_nat (hi - lo)) lo body acc.

(** [for (auto& x : v) body]. *)
Fixpoint for_each {X : Type} (v : list X) (body : X -> prog unit) : prog unit :=
  match v with
  | [] => ret tt
  | x :: v' => bind (body x) (fun _ => for_each v' body)
  end.

End Process.

Declare Scope prog_scope.
Delimit Scope prog_scope with prog.
Notation "x <- c1 ;; c2" := (bind c1 (fun x => c2))
  (at level 20, c1 at level 99, c2 at level 200, only parsing) : prog_scope.
Notation "c1 ;; c2" := (bind c1 (fun _ => c2))
  (at level 100, c2 at level 200, only parsing, right associativity) : prog_scope.
Open Scope prog_scope.

(** ** The hospital program ([practical/q2_hospital.cpp]) *)

Module Hospital.
Import Stream.

(** [class Person]: the fields of the base class. *)
Module Person.
Record t : Type := {
  name : string;
  age : option Z
}.
End Person.

(** [class Doctor : public Person], without its static member. *)
Module DoctorFields.
Record t : Type := {
  person : Person.t;
  doctor_specialist : option Z;
  doctor_id : Z
}.
End DoctorFields.

(** [class Patient : public Person], without its static member. *)
Module PatientFields.
Record t : Type := {
  person : Person.t;
  admission_date : string;
  patient_id : Z
}.
End PatientFields.

(** What a [Person*] points to: an object of one of the two derived
    classes. *)
Inductive object : Type :=
| DoctorObj (d : DoctorFields.t)
| PatientObj (q : PatientFields.t).

(** The static data members [Doctor::doctor_count] and
    [Patient::patient_count]. *)
Record counters : Type := {
  doctor_count : Z;
  patient_count : Z
}.

Abbreviation M := (@prog counters object).

Module Doctor.
Export DoctorFields.

(** [Doctor::Doctor()]: [doctor_id = ++doctor_count]. *)
Definition Doctor : M t :=
  s <- get_statics ;;
  let c := wrap_int (doctor_count s + 1) in
  put_statics {| doctor_count := c; patient_count := patient_count s |} ;;
  ret {| person := {| Person.name := ""; Person.age := None |};
         doctor_specialist := None;
         doctor_id := c |}.

Definition getdata (this : t) : M t :=
  emit "Enter Doctor Name: " ;;
  name' <- cin_word (Person.name (person this)) ;;
  emit "Enter Age: " ;;
  age' <- cin_int (Person.age (person this)) ;;
  emit "Enter Specialist ID: " ;;
  specialist' <- cin_int (doctor_specialist this) ;;
  ret {| person := {| Person.name := name'; Person.age := age' |};
         doctor_specialist := specialist';
         doctor_id := doctor_id this |}.

Definition putdata (this : t) : M t :=
  emit "Doctor -> Name: " ;;
  emit (Person.name (person this)) ;;
  emit ", Age: " ;;
  a <- use (Person.age (person this)) ;;
  emit (put_int a) ;;
  emit ", Specialist ID: " ;;
  sp <- use (doctor_specialist this) ;;
  emit (put_int sp) ;;
  emit ", Doctor ID: " ;;
  emit (put_int (doctor_id this)) ;;
  emit nl ;;
  ret this.
End Doctor.

Module Patient.
Export PatientFields.

(** [Patient::Patient()]: [patient_id = ++patient_count]. *)
Definition Patient : M t :=
  s <- get_statics ;;
  let c := wrap_int (patient_count s + 1) in
  put_statics {| doctor_count := doctor_count s; patient_count := c |} ;;
  ret {| person := {| Person.name := ""; Person.age := None |};
         admission_date := "";
         patient_id := c |}.

Definition getdata (this : t) : M t :=
  emit "Enter Patient Name: " ;;
  name' <- cin_word (Person.name (person this)) ;;
  emit "Enter Age: " ;;
  age' <- cin_int (Person.age (person this)) ;;
  emit "Enter Admission Date: " ;;
  date' <- cin_word (admission_date this) ;;
  ret {| person := {| Person.name := name'; Person.age := age' |};
         admission_date := date';
         patient_id := patient_id this |}.

Definition putdata (this : t) : M t :=
  emit "Patient -> Name: " ;;
  emit (Person.name (person this)) ;;
  emit ", Age: " ;;
  a <- use (Person.age (person this)) ;;
  emit (put_int a) ;;
  emit ", Admission Date: " ;;
  emit (admission_date this) ;;
  emit ", Patient ID: " ;;
  emit (put_int (patient_id this)) ;;
  emit nl ;;
  ret this.
End Patient.

(** The virtual functions of [Person], dispatched on the class of the
    object. *)
Definition getdata (o : object) : M object :=
  match o with
  | DoctorObj d => d' <- Doctor.getdata d ;; ret (DoctorObj d')
  | PatientObj q => q' <- Patient.getdata q ;; ret (PatientObj q')
  end.

Definition putdata (o : object) : M object :=
  match o with
  | DoctorObj d => d' <- Doctor.putdata d ;; ret (DoctorObj d')
  | PatientObj q => q' <- Patient.putdata q ;; ret (PatientObj q')
  end.

(** [new Doctor()] when [choice == 1], [new Patient()] otherwise. *)
Definition create (choice : Z) : M loc :=
  if choice =? 1 then d <- Doctor.Doctor ;; new (DoctorObj d)
  else q <- Patient.Patient ;; new (PatientObj q).

(** The body of the first loop of [main], for index [i]. *)
Definition entry (i : Z) (people : list (option loc)) : M (list (option loc)) :=
  emit (nl ++ "Enter 1 for Doctor, 2 for Patient: ") ;;
  choice <- cin_int None ;;
  c <- use choice ;;
  l <- create c ;;
  let people := <[Z.to_nat i := Some l]> people in
  q <- elem people i ;;
  call q getdata ;;
  ret people.

(** The three loops of [main]. *)
Definition entries (n : Z) (people : list (option loc)) : M (list (option loc)) :=
  for_range 0 n entry people.

Definition records (n : Z) (people : list (option loc)) : M unit :=
  for_range 0 n (fun i _ => q <- elem people i ;; call q putdata) tt.

Definition cleanup (n : Z) (people : list (option loc)) : M unit :=
  for_range 0 n (fun i _ => q <- elem people i ;; delete_obj q) tt.

(** [Person* people[n]]: a variable-length array of [n] pointers, none
    of them assigned yet.  With the bound 0 the array has no element;
    with a negative bound the behaviour is undefined. *)
Definition array (n : Z) : M (list (option loc)) :=
  fun p => if 0 <=? n then Ok (replicate (Z.to_nat n) None, p) else Undefined.

(** [main], returning its exit status. *)
Definition main : M Z :=
  emit "Enter number of records: " ;;
  n <- cin_int None ;;
  n <- use n ;;
  people <- array n ;;
  people <- entries n people ;;
  emit (nl ++ "--- Records ---" ++ nl) ;;
  records n people ;;
  cleanup n people ;;
  ret 0.

(** The process at start-up, reading the input text [inp]: both
    counters are initialised to 0. *)
Definition start (inp : string) : process counters object :=
  {| statics := {| doctor_count := 0; patient_count := 0 |};
     heap := ∅;
     cin := from_text inp;
     cout := "" |}.

End Hospital.

(** ** The transaction program ([practical/q3_transactions.cpp]) *)

Module Transactions.
Import Stream.

(** [class Transaction]: the fields of the base class. *)
Module Transaction.
Record t : Type := {
  transaction_ID : option Z;
  date : string
}.
End Transaction.

Module IncomeFields.
Record t : Type := {
  base : Transaction.t;
  source : string;
  amount : option double
}.
End IncomeFields.

Module ExpenseFields.
Record t : Type := {
  base : Transaction.t;
  category : string;
  amount : option double
}.
End ExpenseFields.

(** What a [Transaction*] points to. *)
Inductive object : Type :=
| IncomeObj (t : IncomeFields.t)
| ExpenseObj (t : ExpenseFields.t).

Abbreviation M := (@prog unit object).

(** [class IncomeTransaction : public Transaction]. *)
Module IncomeTransaction.
Export IncomeFields.

(** [new IncomeTransaction()]: the class declares no constructor, so
    the object is zero-initialised before the implicit constructor
    runs: the ID is 0, the amount 0.0 and the strings are empty. *)
Definition IncomeTransaction : M t :=
  ret {| base := {| Transaction.transaction_ID := Some 0; Transaction.date := "" |};
         source := "";
         amount := Some (S754_zero false) |}.

Definition recordTransaction (this : t) : M t :=
  emit (nl ++ "--- Recording Income Transaction ---" ++ nl) ;;
  emit "Enter Transaction ID: " ;;
  id' <- cin_int (Transaction.transaction_ID (base this)) ;;
  emit "Enter Date (YYYY-MM-DD): " ;;
  date' <- cin_word (Transaction.date (base this)) ;;
  emit "Enter Source of Income: " ;;
  cin_ignore ;;
  source' <- cin_getline (source this) ;;
  emit "Enter Amount Received: " ;;
  amount' <- cin_double (amount this) ;;
  ret {| base := {| Transaction.transaction_ID := id'; Transaction.date := date' |};
         source := source';
         amount := amount' |}.

Definition displayInfo (this : t) : M t :=
  emit (nl ++ "[Income Transaction]" ++ nl) ;;
  emit "Transaction ID: " ;;
  id <- use (Transaction.transaction_ID (base this)) ;;
  emit (put_int id) ;; emit nl ;;
  emit "Date: " ;; emit (Transaction.date (base this)) ;; emit nl ;;
  emit "Source: " ;; emit (source this) ;; emit nl ;;
  emit "Amount Received: " ;;
  a <- use (amount this) ;;
  emit (put_double a) ;; emit nl ;;
  ret this.
End IncomeTransaction.

(** [class ExpenseTransaction : public Transaction]. *)
Module ExpenseTransaction.
Export ExpenseFields.

(** [new ExpenseTransaction()], zero-initialised in the same way. *)
Definition ExpenseTransaction : M t :=
  ret {| base := {| Transaction.transaction_ID := Some 0; Transaction.date := "" |};
         category := "";
         amount := Some (S754_zero false) |}.

Definition recordTransaction (this : t) : M t :=
  emit (nl ++ "--- Recording Expense Transaction ---" ++ nl) ;;
  emit "Enter Transaction ID: " ;;
  id' <- cin_int (Transaction.transaction_ID (base this)) ;;
  emit "Enter Date (YYYY-MM-DD): " ;;
  date' <- cin_word (Transaction.date (base this)) ;;
  emit "Enter Expense Category: " ;;
  cin_ignore ;;
  category' <- cin_getline (category this) ;;
  emit "Enter Amount Spent: " ;;
  amount' <- cin_double (amount this) ;;
  ret {| base := {| Transaction.transaction_ID := id'; Transaction.date := date' |};
         category := category';
         amount := amount' |}.

Definition displayInfo (this : t) : M t :=
  emit (nl ++ "[Expense Transaction]" ++ nl) ;;
  emit "Transaction ID: " ;;
  id <- use (Transaction.transaction_ID (base this)) ;;
  emit (put_int id) ;; emit nl ;;
  emit "Date: " ;; emit (Transaction.date (base this)) ;; emit nl ;;
  emit "Category: " ;; emit (category this) ;; emit nl ;;
  emit "Amount Spent: " ;;
  a <- use (amount this) ;;
  emit (put_double a) ;; emit nl ;;
  ret this.
End ExpenseTransaction.

(** The virtual functions of [Transaction]. *)
Definition recordTransaction (o : object) : M object :=
  match o with
  | IncomeObj t => t' <- IncomeTransaction.recordTransaction t ;; ret (IncomeObj t')
  | ExpenseObj t => t' <- ExpenseTransaction.recordTransaction t ;; ret (ExpenseObj t')
  end.

Definition displayInfo (o : object) : M object :=
  match o with
  | IncomeObj t => t' <- IncomeTransaction.displayInfo t ;; ret (IncomeObj t')
  | ExpenseObj t => t' <- ExpenseTransaction.displayInfo t ;; ret (ExpenseObj t')
  end.

(** The local variables of [main] that live across iterations. *)
Record locals : Type := {
  transactions : list loc;
  choice : option Z
}.

Definition menu : string :=
  nl ++ "===== Transaction Menu =====" ++ nl
  ++ "1. Record Income Transaction" ++ nl
  ++ "2. Record Expense Transaction" ++ nl
  ++ "3. Display All Transactions" ++ nl
  ++ "4. Exit" ++ nl
  ++ "Enter your choice: ".

(** The [switch] statement; its value is the vector after it. *)
Definition dispatch (c : Z) (transactions : list loc) : M (list loc) :=
  if c =? 1 then
    i <- IncomeTransaction.IncomeTransaction ;;
    t <- new (IncomeObj i) ;;
    call t recordTransaction ;;
    ret (transactions ++ [t])%list
  else if c =? 2 then
    e <- ExpenseTransaction.ExpenseTransaction ;;
    t <- new (ExpenseObj e) ;;
    call t recordTransaction ;;
    ret (transactions ++ [t])%list
  else if c =? 3 then
    emit (nl ++ "===== Transaction Records =====" ++ nl) ;;
    for_each transactions (fun tr => call tr displayInfo) ;;
    ret transactions
  else if c =? 4 then
    emit ("Exiting..." ++ nl) ;;
    ret transactions
  else
    emit ("Invalid choice! Try again." ++ nl) ;;
    ret transactions.

(** The body of the [do ... while] loop. *)
Definition iteration (v : locals) : M locals :=
  emit menu ;;
  choice' <- cin_int (choice v) ;;
  c <- use choice' ;;
  transactions' <- dispatch c (transactions v) ;;
  ret {| transactions := transactions'; choice := choice' |}.

(** [do body while (choice != 4)], for at most [fuel] iterations:
    [None] when the loop is still running after them. *)
Fixpoint do_while (fuel : nat) (v : locals) : M (option locals) :=
  match fuel with
  | O => ret None
  | S fuel' =>
      v' <- iteration v ;;
      c <- use (choice v') ;;
      if negb (c =? 4) then do_while fuel' v' else ret (Some v')
  end.

(** [main], returning its exit status when the loop ends within [fuel]
    iterations. *)
Definition main (fuel : nat) : M (option Z) :=
  r <- do_while fuel {| transactions := []; choice := None |} ;;
  match r with
  | Some v =>
      for_each (transactions v) delete_obj ;;
      ret (Some 0)
  | None => ret None
  end.

Definition start (inp : string) : process unit object :=
  {| statics := tt; heap := ∅; cin := from_text inp; cout := "" |}.

End Transactions.

(** ** The library program ([practical/q4_library.cpp]) *)

Module Library.
Import Stream.

Module BookFields.
Record t : Type := {
  title : string;
  author : string;
  ISBN : string;
  isAvailable : bool
}.
End BookFields.

(** The only objects referred to through pointers are the books. *)
Abbreviation M := (@prog unit BookFields.t).

Module Book.
Export BookFields.

Definition Book (t a i : string) : BookFields.t :=
  {| title := t; author := a; ISBN := i; isAvailable := true |}.

Definition setTitle (t : string) (this : BookFields.t) : M BookFields.t :=
  ret {| title := t; author := author this; ISBN := ISBN this;
         isAvailable := isAvailable this |}.
Definition setAuthor (a : string) (this : BookFields.t) : M BookFields.t :=
  ret {| title := title this; author := a; ISBN := ISBN this;
         isAvailable := isAvailable this |}.
Definition setISBN (i : string) (this : BookFields.t) : M BookFields.t :=
  ret {| title := title this; author := author this; ISBN := i;
         isAvailable := isAvailable this |}.

Definition getTitle (this : BookFields.t) : M string := ret (title this).
Definition getAuthor (this : BookFields.t) : M string := ret (author this).
Definition getISBN (this : BookFields.t) : M string := ret (ISBN this).
Definition getAvailability (this : BookFields.t) : M bool := ret (isAvailable this).

Definition checkOut (this : BookFields.t) : M (bool * BookFields.t) :=
  if isAvailable this then
    ret (true, {| title := title this; author := author this;
                  ISBN := ISBN this; isAvailable := false |})
  else ret (false, this).

Definition returnBook (this : BookFields.t) : M BookFields.t :=
  ret {| title := title this; author := author this; ISBN := ISBN this;
         isAvailable := true |}.

Definition displayInfo (this : BookFields.t) : M unit :=
  emit "Title: " ;; emit (title this) ;;
  emit (nl ++ "Author: ") ;; emit (author this) ;;
  emit (nl ++ "ISBN: ") ;; emit (ISBN this) ;;
  emit (nl ++ "Status: ") ;;
  emit (if isAvailable this then "Available" else "Checked Out") ;;
  emit (nl ++ "----------------------" ++ nl).
End Book.

Module PatronFields.
Record t : Type := {
  name : string;
  cardNumber : string;
  borrowedBooks : list loc
}.
End PatronFields.

Module Patron.
Export PatronFields.

Definition Patron (n c : string) : PatronFields.t :=
  {| name := n; cardNumber := c; borrowedBooks := [] |}.

Definition setName (n : string) (this : PatronFields.t) : M PatronFields.t :=
  ret {| name := n; cardNumber := cardNumber this;
         borrowedBooks := borrowedBooks this |}.
Definition setCardNumber (c : string) (this : PatronFields.t) : M PatronFields.t :=
  ret {| name := name this; cardNumber := c;
         borrowedBooks := borrowedBooks this |}.

Definition getName (this : PatronFields.t) : M string := ret (name this).
Definition getCardNumber (this : PatronFields.t) : M string := ret (cardNumber this).

(** [book] is the address the reference [Book &book] is bound to. *)
Definition borrowBook (book : loc) (this : PatronFields.t) : M PatronFields.t :=
  ok <- call_value book Book.checkOut ;;
  if ok : bool then
    let this' := {| name := name this; cardNumber := cardNumber this;
                    borrowedBooks := borrowedBooks this ++ [book] |} in
    emit (name this') ;; emit (" borrowed " ++ dq) ;;
    t <- call_const book Book.getTitle ;;
    emit t ;; emit (dq ++ nl) ;;
    ret this'
  else
    emit ("Sorry, " ++ dq) ;;
    t <- call_const book Book.getTitle ;;
    emit t ;; emit (dq ++ " is not available." ++ nl) ;;
    ret this.

(** The vector without its first element equal to [book]; [None]
    when no element is. *)
Fixpoint erase_first (book : loc) (v : list loc) : option (list loc) :=
  match v with
  | [] => None
  | x :: v' =>
      if Pos.eqb x book then Some v'
      else match erase_first book v' with
           | Some r => Some (x :: r)
           | None => None
           end
  end.

Definition returnBook (book : loc) (this : PatronFields.t) : M PatronFields.t :=
  match erase_first book (borrowedBooks this) with
  | Some rest =>
      call book Book.returnBook ;;
      let this' := {| name := name this; cardNumber := cardNumber this;
                      borrowedBooks := rest |} in
      emit (name this') ;; emit (" returned " ++ dq) ;;
      t <- call_const book Book.getTitle ;;
      emit t ;; emit (dq ++ nl) ;;
      ret this'
  | None =>
      emit (name this) ;; emit (" did not borrow " ++ dq) ;;
      t <- call_const book Book.getTitle ;;
      emit t ;; emit (dq ++ nl) ;;
      ret this
  end.

Definition displayInfo (this : PatronFields.t) : M unit :=
  emit "Patron Name: " ;; emit (name this) ;;
  emit (nl ++ "Card Number: ") ;; emit (cardNumber this) ;;
  emit (nl ++ "Borrowed Books:" ++ nl) ;;
  match borrowedBooks this with
  | [] => emit ("  None" ++ nl)
  | v =>
      for_each v (fun book =>
        emit "  - " ;;
        t <- call_const book Book.getTitle ;; emit t ;;
        emit " by " ;;
        a <- call_const book Book.getAuthor ;; emit a ;;
        emit nl)
  end ;;
  emit ("----------------------" ++ nl).
End Patron.

Definition main : M Z :=
  b1 <- new (Book.Book "The Great Gatsby" "F. Scott Fitzgerald" "12345") ;;
  b2 <- new (Book.Book "1984" "George Orwell" "67890") ;;
  let p1 := Patron.Patron "Alice" "P001" in
  let p2 := Patron.Patron "Bob" "P002" in
  call_const b1 Book.displayInfo ;;
  call_const b2 Book.displayInfo ;;
  p1 <- Patron.borrowBook b1 p1 ;;
  p1 <- Patron.borrowBook b2 p1 ;;
  p2 <- Patron.borrowBook b1 p2 ;;
  Patron.displayInfo p1 ;;
  Patron.displayInfo p2 ;;
  p1 <- Patron.returnBook b1 p1 ;;
  p2 <- Patron.borrowBook b1 p2 ;;
  call_const b1 Book.displayInfo ;;
  call_const b2 Book.displayInfo ;;
  Patron.displayInfo p1 ;;
  Patron.displayInfo p2 ;;
  ret 0.

Definition start : process unit BookFields.t :=
  {| statics := tt; heap := ∅; cin := from_text ""; cout := "" |}.

End Library.

(** * Vocabulary of the properties *)

(** [needle] occurs in [hay]. *)
Fixpoint occurs_in (needle hay : string) : bool :=
  String.prefix needle hay
  || match hay with
     | String _ r => occurs_in needle r
     | EmptyString => false
     end.

(** White space only; no white space at all; a word that [cin >> s]
    reads whole. *)
Fixpoint all_space (s : string) : bool :=
  match s with
  | String c r => Stream.isspace c && all_space r
  | EmptyString => true
  end.

Fixpoint no_space (s : string) : bool :=
  match s with
  | String c r => negb (Stream.isspace c) && no_space r
  | EmptyString => true
  end.

Definition is_word (s : string) : bool :=
  match s with
  | String _ _ => no_space s
  | EmptyString => false
  end.

Fixpoint all_digits (s : string) : bool :=
  match s with
  | String c r => Stream.isdigit c && all_digits r
  | EmptyString => true
  end.

(** A text on one line. *)
Fixpoint no_newline (s : string) : bool :=
  match s with
  | String c r => negb (Ascii.eqb c (ascii_of_nat 10)) && no_newline r
  | EmptyString => true
  end.

(** A value an [int] can hold. *)
Definition is_int (z : Z) : bool :=
  (Stream.INT_MIN <=? z) && (z <=? Stream.INT_MAX).

(** The stream in good state with [s] left to read. *)
Definition reading (s : string) : Stream.istream :=
  {| Stream.buf := s; Stream.eofbit := false; Stream.failbit := false |}.

(** The texts [ss] one after the other. *)
Definition join (ss : list string) : string := foldr String.append "" ss.

(** The value of a defined result, [d] for an undefined one. *)
Definition value_or {A : Type} (d : A) (r : result A) : A :=
  match r with
  | Ok a => a
  | Undefined => d
  end.

Module HospitalSpec.
Import Stream Hospital.

(** The line [putdata] prints for an object; there is none when a number
    of the object is indeterminate. *)
Definition line (o : object) : option string :=
  match o with
  | DoctorObj d =>
      match Person.age (DoctorFields.person d), DoctorFields.doctor_specialist d with
      | Some a, Some sp =>
          Some ("Doctor -> Name: " ++ Person.name (DoctorFields.person d)
                ++ ", Age: " ++ put_int a
                ++ ", Specialist ID: " ++ put_int sp
                ++ ", Doctor ID: " ++ put_int (DoctorFields.doctor_id d) ++ nl)
      | _, _ => None
      end
  | PatientObj q =>
      match Person.age (PatientFields.person q) with
      | Some a =>
          Some ("Patient -> Name: " ++ Person.name (PatientFields.person q)
                ++ ", Age: " ++ put_int a
                ++ ", Admission Date: " ++ PatientFields.admission_date q
                ++ ", Patient ID: " ++ put_int (PatientFields.patient_id q) ++ nl)
      | None => None
      end
  end.

Definition is_doctor (o : object) : bool :=
  match o with DoctorObj _ => true | PatientObj _ => false end.

(** The sequence numbers of the doctors, and of the patients, among the
    given objects, in order. *)
Definition doctor_ids (os : list object) : list Z :=
  omap (fun o => match o with
                 | DoctorObj d => Some (DoctorFields.doctor_id d)
                 | PatientObj _ => None
                 end) os.

Definition patient_ids (os : list object) : list Z :=
  omap (fun o => match o with
                 | PatientObj q => Some (PatientFields.patient_id q)
                 | DoctorObj _ => None
                 end) os.

(** The object [new Doctor()] or [new Patient()] constructs, by the
    choice, before it is populated. *)
Definition constructed (c : Z) (s : counters) : object :=
  if c =? 1 then
    DoctorObj {| DoctorFields.person := {| Person.name := ""; Person.age := None |};
                 DoctorFields.doctor_specialist := None;
                 DoctorFields.doctor_id := wrap_int (doctor_count s + 1) |}
  else
    PatientObj {| PatientFields.person := {| Person.name := ""; Person.age := None |};
                  PatientFields.admission_date := "";
                  PatientFields.patient_id := wrap_int (patient_count s + 1) |}.

Definition counted (c : Z) (s : counters) : counters :=
  if c =? 1 then
    {| doctor_count := wrap_int (doctor_count s + 1);
       patient_count := patient_count s |}
  else
    {| doctor_count := doctor_count s;
       patient_count := wrap_int (patient_count s + 1) |}.

(** The pointers [ls] are live in [h] and point to the objects [os]. *)
Definition point_to (h : gmap loc object) (ls : list loc) (os : list object) : Prop :=
  Forall2 (fun l o => h !! l = Some o) ls os.

(** The doctor of the example: the first one constructed, populated with
    the name Asha, the age 34 and the specialist id 7. *)
Definition asha : DoctorFields.t :=
  {| DoctorFields.person := {| Person.name := "Asha"; Person.age := Some 34 |};
     DoctorFields.doctor_specialist := Some 7;
     DoctorFields.doctor_id := 1 |}.

Definition records_heading : string := nl ++ "--- Records ---" ++ nl.

Definition asha_line : string :=
  "Doctor -> Name: Asha, Age: 34, Specialist ID: 7, Doctor ID: 1" ++ nl.

(** *** Sessions

    What the user types for one record: the choice and the three
    answers, each followed by a newline. *)
Inductive answers : Type :=
| doctor_answers (name : string) (age specialist : Z)
| patient_answers (choice : Z) (name : string) (age : Z) (date : string).

(** The choice that stands at the head of the answers. *)
Definition choice_of (a : answers) : Z :=
  match a with
  | doctor_answers _ _ _ => 1
  | patient_answers c _ _ _ => c
  end.

Definition well_typed (a : answers) : bool :=
  match a with
  | doctor_answers nm ag sp => is_word nm && is_int ag && is_int sp
  | patient_answers c nm ag dt =>
      is_int c && negb (c =? 1) && is_word nm && is_int ag && is_word dt
  end.

Definition typed (a : answers) : string :=
  match a with
  | doctor_answers nm ag sp =>
      put_int 1 ++ nl ++ nm ++ nl ++ put_int ag ++ nl ++ put_int sp ++ nl
  | patient_answers c nm ag dt =>
      put_int c ++ nl ++ nm ++ nl ++ put_int ag ++ nl ++ dt ++ nl
  end.

(** The whole input of a session: the count, then the records. *)
Definition session (es : list answers) : string :=
  put_int (Z.of_nat (length es)) ++ nl ++ join (map typed es).

(** The object a record of the session becomes when the counters are
    [s], and the counters after it. *)
Definition record_of (s : counters) (a : answers) : object :=
  match a with
  | doctor_answers nm ag sp =>
      DoctorObj {| DoctorFields.person := {| Person.name := nm; Person.age := Some ag |};
                   DoctorFields.doctor_specialist := Some sp;
                   DoctorFields.doctor_id := doctor_count s + 1 |}
  | patient_answers c nm ag dt =>
      PatientObj {| PatientFields.person := {| Person.name := nm; Person.age := Some ag |};
                    PatientFields.admission_date := dt;
                    PatientFields.patient_id := patient_count s + 1 |}
  end.

Definition count_after (s : counters) (a : answers) : counters :=
  match a with
  | doctor_answers _ _ _ =>
      {| doctor_count := doctor_count s + 1; patient_count := patient_count s |}
  | patient_answers _ _ _ _ =>
      {| doctor_count := doctor_count s; patient_count := patient_count s + 1 |}
  end.

(** The objects a session creates, in order, and the counters at its
    end. *)
Fixpoint made (s : counters) (es : list answers) : list object :=
  match es with
  | [] => []
  | a :: es' => record_of s a :: made (count_after s a) es'
  end.

Definition counts_after (s : counters) (es : list answers) : counters :=
  foldl count_after s es.

Definition zero : counters := {| doctor_count := 0; patient_count := 0 |}.

(** What the program prints while one record is entered. *)
Definition prompts (a : answers) : string :=
  nl ++ "Enter 1 for Doctor, 2 for Patient: "
  ++ match a with
     | doctor_answers _ _ _ =>
         "Enter Doctor Name: Enter Age: Enter Specialist ID: "
     | patient_answers _ _ _ _ =>
         "Enter Patient Name: Enter Age: Enter Admission Date: "
     end.

(** The whole output of a session. *)
Definition transcript (es : list answers) : string :=
  "Enter number of records: " ++ join (map prompts es)
  ++ records_heading ++ join (omap line (made zero es)).

(** The numbers [1; 2; ...; k]. *)
Definition upto (k : nat) : list Z := map Z.of_nat (seq 1 k).

End HospitalSpec.

Module TransactionsSpec.
Import Stream Transactions.

(** The text [displayInfo] prints for an object; there is none when a
    number of the object is indeterminate. *)
Definition text (o : object) : option string :=
  match o with
  | IncomeObj t =>
      match Transaction.transaction_ID (IncomeFields.base t), IncomeFields.amount t with
      | Some id, Some a =>
          Some (nl ++ "[Income Transaction]" ++ nl
                ++ "Transaction ID: " ++ put_int id ++ nl
                ++ "Date: " ++ Transaction.date (IncomeFields.base t) ++ nl
                ++ "Source: " ++ IncomeFields.source t ++ nl
                ++ "Amount Received: " ++ put_double a ++ nl)
      | _, _ => None
      end
  | ExpenseObj t =>
      match Transaction.transaction_ID (ExpenseFields.base t), ExpenseFields.amount t with
      | Some id, Some a =>
          Some (nl ++ "[Expense Transaction]" ++ nl
                ++ "Transaction ID: " ++ put_int id ++ nl
                ++ "Date: " ++ Transaction.date (ExpenseFields.base t) ++ nl
                ++ "Category: " ++ ExpenseFields.category t ++ nl
                ++ "Amount Spent: " ++ put_double a ++ nl)
      | _, _ => None
      end
  end.

(** The pointers [ts] are live in [h] and point to the objects [os]. *)
Definition point_to (h : gmap loc object) (ts : list loc) (os : list object) : Prop :=
  Forall2 (fun l o => h !! l = Some o) ts os.

(** The object a [new] expression constructs for the choice [c] (1 or
    2): zero-initialised, so with the ID 0 and the amount 0.0. *)
Definition constructed (c : Z) : object :=
  if c =? 1 then
    IncomeObj {| IncomeFields.base :=
                   {| Transaction.transaction_ID := Some 0; Transaction.date := "" |};
                 IncomeFields.source := "";
                 IncomeFields.amount := Some (S754_zero false) |}
  else
    ExpenseObj {| ExpenseFields.base :=
                    {| Transaction.transaction_ID := Some 0; Transaction.date := "" |};
                  ExpenseFields.category := "";
                  ExpenseFields.amount := Some (S754_zero false) |}.

Definition header : string := nl ++ "===== Transaction Records =====" ++ nl.

(** The [double] 1000.0, as the decimal 10000 * 10 ^ (-1). *)
Definition thousand : double := decimal_to_double false 10000 (-1).

(** The income record of the example. *)
Definition salary : IncomeFields.t :=
  {| IncomeFields.base :=
       {| Transaction.transaction_ID := Some 1; Transaction.date := "2024-01-01" |};
     IncomeFields.source := "Salary";
     IncomeFields.amount := Some thousand |}.

Definition salary_text : string :=
  nl ++ "[Income Transaction]" ++ nl
  ++ "Transaction ID: 1" ++ nl
  ++ "Date: 2024-01-01" ++ nl
  ++ "Source: Salary" ++ nl
  ++ "Amount Received: 1000" ++ nl.

(** The registry owns the objects: its pointers are distinct and are
    exactly the live addresses. *)
Definition owns (v : locals) (p : process unit object) : Prop :=
  NoDup (transactions v)
  /\ forall l, l ∈ transactions v <-> is_Some (heap p !! l).

(** The record a [new income] or [new expense] choice [c] appends, with
    the field values [recordTransaction] reads from the input [ist] that
    follows the choice; nothing for any other choice. *)
Definition supplied (c : Z) (ist : istream) : list object :=
  if (c =? 1) || (c =? 2) then
    match recordTransaction (constructed c)
            {| statics := tt; heap := ∅; cin := ist; cout := "" |} with
    | Ok (o, _) => [o]
    | Undefined => []
    end
  else [].

Definition initial : locals := {| transactions := []; choice := None |}.

(** [reaches hist v p]: the menu loop, started on some input, is at the
    head of an iteration with variables [v] in state [p], and [hist] are
    the records supplied so far, in the order of the choices. *)
Inductive reaches : list object -> locals -> process unit object -> Prop :=
| reaches_start (inp : string) :
    reaches [] initial (start inp)
| reaches_next (hist : list object) (v v' : locals)
    (p p' : process unit object) (c : Z) (ist : istream) :
    reaches hist v p ->
    get_int (cin p) (choice v) = (Some c, ist) ->
    c <> 4 ->
    iteration v p = Ok (v', p') ->
    reaches (hist ++ supplied c ist) v' p'.

(** *** Sessions

    An amount as it is typed: digits, a decimal point, digits. *)
Record amount_text : Type := {
  whole : string;
  fraction : string
}.

Definition amount_typed (a : amount_text) : string :=
  whole a ++ "." ++ fraction a.

(** The [double] the amount is read as. *)
Definition amount_value (a : amount_text) : double :=
  decimal_to_double false (digits_value (whole a ++ fraction a))
    (0 - Z.of_nat (String.length (fraction a))).

Definition finite (x : double) : bool :=
  match x with
  | S754_infinity _ => false
  | _ => true
  end.

Definition amount_ok (a : amount_text) : bool :=
  match whole a with
  | String _ _ =>
      all_digits (whole a) && all_digits (fraction a) && finite (amount_value a)
  | EmptyString => false
  end.

(** What the user does in one pass through the menu: record an income, or
    an expense, ask for the display, or type a choice that is none of 1,
    2, 3 and 4. *)
Inductive pass : Type :=
| income_pass (id : Z) (date source : string) (amount : amount_text)
| expense_pass (id : Z) (date category : string) (amount : amount_text)
| display_pass
| invalid_pass (c : Z).

Definition well_typed (s : pass) : bool :=
  match s with
  | income_pass id dt src am | expense_pass id dt src am =>
      is_int id && is_word dt && no_newline src && amount_ok am
  | display_pass => true
  | invalid_pass c =>
      is_int c && negb (c =? 1) && negb (c =? 2) && negb (c =? 3)
      && negb (c =? 4)
  end.

(** What is typed in a pass, each answer followed by a newline. *)
Definition typed (s : pass) : string :=
  match s with
  | income_pass id dt src am =>
      put_int 1 ++ nl ++ put_int id ++ nl ++ dt ++ nl ++ src ++ nl
      ++ amount_typed am ++ nl
  | expense_pass id dt src am =>
      put_int 2 ++ nl ++ put_int id ++ nl ++ dt ++ nl ++ src ++ nl
      ++ amount_typed am ++ nl
  | display_pass => put_int 3 ++ nl
  | invalid_pass c => put_int c ++ nl
  end.

(** The whole input of a session: the passes, then the choice 4. *)
Definition session (ss : list pass) : string :=
  join (map typed ss) ++ put_int 4 ++ nl.

(** The record a pass supplies, if any. *)
Definition record_of (s : pass) : list object :=
  match s with
  | income_pass id dt src am =>
      [IncomeObj {| IncomeFields.base :=
                      {| Transaction.transaction_ID := Some id;
                         Transaction.date := dt |};
                    IncomeFields.source := src;
                    IncomeFields.amount := Some (amount_value am) |}]
  | expense_pass id dt src am =>
      [ExpenseObj {| ExpenseFields.base :=
                       {| Transaction.transaction_ID := Some id;
                          Transaction.date := dt |};
                     ExpenseFields.category := src;
                     ExpenseFields.amount := Some (amount_value am) |}]
  | display_pass | invalid_pass _ => []
  end.

(** What [recordTransaction] prints. *)
Definition income_prompts : string :=
  nl ++ "--- Recording Income Transaction ---" ++ nl
  ++ "Enter Transaction ID: " ++ "Enter Date (YYYY-MM-DD): "
  ++ "Enter Source of Income: " ++ "Enter Amount Received: ".

Definition expense_prompts : string :=
  nl ++ "--- Recording Expense Transaction ---" ++ nl
  ++ "Enter Transaction ID: " ++ "Enter Date (YYYY-MM-DD): "
  ++ "Enter Expense Category: " ++ "Enter Amount Spent: ".

(** What the program prints in a pass, after the menu, when [recs] are
    the records supplied before it. *)
Definition printed (recs : list object) (s : pass) : string :=
  match s with
  | income_pass _ _ _ _ => income_prompts
  | expense_pass _ _ _ _ => expense_prompts
  | display_pass => header ++ join (omap text recs)
  | invalid_pass _ => "Invalid choice! Try again." ++ nl
  end.

(** The choice a pass begins with. *)
Definition choice_of (s : pass) : Z :=
  match s with
  | income_pass _ _ _ _ => 1
  | expense_pass _ _ _ _ => 2
  | display_pass => 3
  | invalid_pass c => c
  end.

(** The output of the passes [ss] that follow the records [recs]. *)
Fixpoint outputs (recs : list object) (ss : list pass) : string :=
  match ss with
  | [] => ""
  | s :: ss' =>
      menu ++ printed recs s ++ outputs (recs ++ record_of s) ss'
  end.

(** The records the passes [ss] supply, in their order. *)
Definition supplied_by (ss : list pass) : list object :=
  flat_map record_of ss.

(** The whole output of a session. *)
Definition transcript (ss : list pass) : string :=
  outputs [] ss ++ menu ++ "Exiting..." ++ nl.

End TransactionsSpec.

Module LibrarySpec.
Import Library BookFields.

(** The book [b] once checked out. *)
Definition checked_out (b : BookFields.t) : BookFields.t :=
  {| title := title b; author := author b; ISBN := ISBN b;
     isAvailable := false |}.

End LibrarySpec.

(** ** Vocabulary of the input errors, the populated records and the
    patrons *)

Module InputErrors.
Import Stream.

(** A character that cannot begin a number, after white space is
    skipped. *)
Definition not_numeric (c : ascii) : bool :=
  negb (isdigit c) && negb (isspace c)
  && negb (Ascii.eqb c "-") && negb (Ascii.eqb c "+").

(** The input after a number field that begins with [c] has failed:
    nothing of the field is consumed, and [failbit] is set. *)
Definition failed_at (c : ascii) (rest : string) : istream :=
  {| buf := String c rest; eofbit := false; failbit := true |}.

End InputErrors.

Module HospitalInput.
Import Stream Hospital HospitalSpec.

(** A doctor and a patient with the given fields. *)
Definition doctor (nm : string) (ag sp : option Z) (id : Z) : DoctorFields.t :=
  {| DoctorFields.person := {| Person.name := nm; Person.age := ag |};
     DoctorFields.doctor_specialist := sp;
     DoctorFields.doctor_id := id |}.

Definition patient (nm : string) (ag : option Z) (dt : string) (id : Z)
  : PatientFields.t :=
  {| PatientFields.person := {| Person.name := nm; Person.age := ag |};
     PatientFields.admission_date := dt;
     PatientFields.patient_id := id |}.

(** What [getdata] prints: the three prompts of each class. *)
Definition doctor_prompts : string :=
  "Enter Doctor Name: Enter Age: Enter Specialist ID: ".
Definition patient_prompts : string :=
  "Enter Patient Name: Enter Age: Enter Admission Date: ".

(** What [getdata] prints, by the class of the object. *)
Definition prompts_of (o : object) : string :=
  match o with
  | DoctorObj _ => doctor_prompts
  | PatientObj _ => patient_prompts
  end.

(** The object a round of the entry loop stores for the choice [c], and
    the input after the round: the object is constructed with the next
    sequence number of its class, taken from the counters [s], and
    populated with what the three extractions of its [getdata] read
    from [ist], the input after the choice. *)
Definition entered (c : Z) (s : counters) (ist : istream) : object * istream :=
  let r1 := get_word ist "" in
  let r2 := get_int (snd r1) None in
  if c =? 1 then
    let r3 := get_int (snd r2) None in
    (DoctorObj (doctor (fst r1) (fst r2) (fst r3) (wrap_int (doctor_count s + 1))),
     snd r3)
  else
    let r3 := get_word (snd r2) "" in
    (PatientObj (patient (fst r1) (fst r2) (fst r3) (wrap_int (patient_count s + 1))),
     snd r3).
End HospitalInput.

Module TransactionsInput.
Import Stream Transactions TransactionsSpec.

(** The text [s], [k] times over. *)
Fixpoint copies (k : nat) (s : string) : string :=
  match k with
  | O => ""
  | S k' => s ++ copies k' s
  end.

(** What an iteration with an invalid choice prints. *)
Definition invalid_round : string :=
  menu ++ "Invalid choice! Try again." ++ nl.

(** The fields of an object, whatever its class: the ID, the date, the
    source or category, and the amount. *)
Definition id_of (o : object) : option Z :=
  match o with
  | IncomeObj t => Transaction.transaction_ID (IncomeFields.base t)
  | ExpenseObj t => Transaction.transaction_ID (ExpenseFields.base t)
  end.

Definition date_of (o : object) : string :=
  match o with
  | IncomeObj t => Transaction.date (IncomeFields.base t)
  | ExpenseObj t => Transaction.date (ExpenseFields.base t)
  end.

Definition line_of (o : object) : string :=
  match o with
  | IncomeObj t => IncomeFields.source t
  | ExpenseObj t => ExpenseFields.category t
  end.

Definition amount_of (o : object) : option double :=
  match o with
  | IncomeObj t => IncomeFields.amount t
  | ExpenseObj t => ExpenseFields.amount t
  end.

(** An object of the class of [o] with the given fields. *)
Definition populated (o : object) (id : option Z) (dt ln : string)
    (am : option double) : object :=
  match o with
  | IncomeObj _ =>
      IncomeObj {| IncomeFields.base :=
                     {| Transaction.transaction_ID := id; Transaction.date := dt |};
                   IncomeFields.source := ln;
                   IncomeFields.amount := am |}
  | ExpenseObj _ =>
      ExpenseObj {| ExpenseFields.base :=
                      {| Transaction.transaction_ID := id; Transaction.date := dt |};
                    ExpenseFields.category := ln;
                    ExpenseFields.amount := am |}
  end.

(** What [recordTransaction] prints, by the class of the object. *)
Definition prompts (o : object) : string :=
  match o with
  | IncomeObj _ => income_prompts
  | ExpenseObj _ => expense_prompts
  end.

(** What [displayInfo] prints for [constructed k], the object of choice
    [k] as [new] leaves it. *)
Definition blank_text (k : Z) : string :=
  if k =? 1 then
    nl ++ "[Income Transaction]" ++ nl
    ++ "Transaction ID: 0" ++ nl
    ++ "Date: " ++ nl
    ++ "Source: " ++ nl
    ++ "Amount Received: 0" ++ nl
  else
    nl ++ "[Expense Transaction]" ++ nl
    ++ "Transaction ID: 0" ++ nl
    ++ "Date: " ++ nl
    ++ "Category: " ++ nl
    ++ "Amount Spent: 0" ++ nl.

End TransactionsInput.

Module LibraryPatrons.
Import Stream Library BookFields PatronFields.

(** The book [b] once returned. *)
Definition returned (b : BookFields.t) : BookFields.t :=
  {| title := title b; author := author b; ISBN := ISBN b;
     isAvailable := true |}.

(** The line [Patron::displayInfo] prints for a borrowed book. *)
Definition borrowed_line (b : BookFields.t) : string :=
  "  - " ++ title b ++ " by " ++ author b ++ nl.

(** What the patrons of a library do, each patron known by its number. *)
Inductive action : Type :=
| borrows (who : nat) (book : loc)
| gives_back (who : nat) (book : loc).

Definition book_of (a : action) : loc :=
  match a with
  | borrows _ book | gives_back _ book => book
  end.

(** One action on the patrons [ps]: the member function is called on
    the patron of that number; a number that is no patron's does
    nothing. *)
Definition act (a : action) (ps : list PatronFields.t) : M (list PatronFields.t) :=
  match a with
  | borrows i book =>
      match ps !! i with
      | Some pt => pt' <- Patron.borrowBook book pt ;; ret (<[i := pt']> ps)
      | None => ret ps
      end
  | gives_back i book =>
      match ps !! i with
      | Some pt => pt' <- Patron.returnBook book pt ;; ret (<[i := pt']> ps)
      | None => ret ps
      end
  end.

Fixpoint acts (l : list action) (ps : list PatronFields.t)
  : M (list PatronFields.t) :=
  match l with
  | [] => ret ps
  | a :: l' => ps' <- act a ps ;; acts l' ps'
  end.

(** How many entries of the borrowed lists of [ps] are [book]. *)
Definition holders (book : loc) (ps : list PatronFields.t) : nat :=
  count_occ Pos.eq_dec (concat (map borrowedBooks ps)) book.

(** The availability flags agree with the borrowed lists: a book that
    is available is in no list, and a book that is checked out is in
    the lists exactly once. *)
Definition consistent (h : gmap loc BookFields.t) (ps : list PatronFields.t) : Prop :=
  forall book b,
    h !! book = Some b -> holders book ps = if isAvailable b then 0%nat else 1%nat.

(** The pointers [ls] are live in [h] and point to the books [bs]. *)
Definition point_to (h : gmap loc BookFields.t) (ls : list loc)
    (bs : list BookFields.t) : Prop :=
  Forall2 (fun l b => h !! l = Some b) ls bs.

(** The two books and the two patrons of [main]. *)
Definition gatsby : BookFields.t :=
  Book.Book "The Great Gatsby" "F. Scott Fitzgerald" "12345".
Definition nineteen : BookFields.t := Book.Book "1984" "George Orwell" "67890".
Definition alice : PatronFields.t := Patron.Patron "Alice" "P001".
Definition bob : PatronFields.t := Patron.Patron "Bob" "P002".

End LibraryPatrons.

(** * Properties *)

(** ** Text *)

Lemma append_nil_l (a : string) : "" ++ a = a.
Proof. reflexivity. Qed.

Lemma append_cons (x : ascii) (a b : string) :
  String x a ++ b = String x (a ++ b).
Proof. reflexivity. Qed.

Lemma append_assoc (a b c : string) : (a ++ b) ++ c = a ++ (b ++ c).
Proof.
  induction a as [|x a IH]; [reflexivity|].
  rewrite !append_cons. f_equal. exact IH.
Qed.

Lemma append_nil_r (a : string) : a ++ "" = a.
Proof.
  induction a as [|x a IH]; [reflexivity|].
  rewrite append_cons. f_equal. exact IH.
Qed.

(** ** Sequencing *)

Lemma fresh_loc_free {A : Type} (h : gmap loc A) : h !! fresh (dom h) = None.
Proof. apply not_elem_of_dom. apply is_fresh. Qed.

Section ProgFacts.
Context {St Obj : Type}.
Implicit Types p : process St Obj.

Lemma bind_Ok {A B : Type} (c : @prog St Obj A) (k : A -> @prog St Obj B) p r :
  bind c k p = Ok r <-> exists a p1, c p = Ok (a, p1) /\ k a p1 = Ok r.
Proof.
  unfold bind. split.
  - destruct (c p) as [[a p1]|]; [|discriminate]. intros H. exists a, p1. auto.
  - intros (a & p1 & -> & H). exact H.
Qed.

Lemma bind_run {A B : Type} (c : @prog St Obj A) (k : A -> @prog St Obj B) p a p1 :
  c p = Ok (a, p1) -> bind c k p = k a p1.
Proof. unfold bind. intros ->. reflexivity. Qed.

Lemma bind_Undefined {A B : Type} (c : @prog St Obj A) (k : A -> @prog St Obj B) p :
  c p = Undefined -> bind c k p = Undefined.
Proof. unfold bind. intros ->. reflexivity. Qed.

Lemma set_cout_cout p : set_cout (cout p) p = p.
Proof. destruct p; reflexivity. Qed.

Lemma set_cout_twice (a b : string) p :
  set_cout b (set_cout a p) = set_cout b p.
Proof. reflexivity. Qed.

(** Several outputs in a row are one output of the concatenated text. *)
Lemma emit_emit (a b : string) p :
  set_cout (cout (set_cout (cout p ++ a) p) ++ b) (set_cout (cout p ++ a) p)
  = set_cout (cout p ++ (a ++ b)) p.
Proof. unfold set_cout. simpl. now rewrite append_assoc. Qed.

Lemma call_run (l : loc) (m : Obj -> @prog St Obj Obj) p o o' p' :
  heap p !! l = Some o ->
  m o p = Ok (o', p') ->
  is_Some (heap p' !! l) ->
  call l m p = Ok (tt, set_heap (<[l := o']> (heap p')) p').
Proof.
  intros Hl Hm [x Hx]. unfold call, deref, assign, bind.
  rewrite Hl, Hm, Hx. reflexivity.
Qed.

(** A call that is defined found a live object, and ran the member
    function on it. *)
Lemma call_Ok (l : loc) (m : Obj -> @prog St Obj Obj) p u p2 :
  call l m p = Ok (u, p2) ->
  exists o o' p', heap p !! l = Some o /\ m o p = Ok (o', p')
                  /\ is_Some (heap p' !! l)
                  /\ p2 = set_heap (<[l := o']> (heap p')) p'.
Proof.
  unfold call, deref, assign, bind.
  destruct (heap p !! l) as [o|] eqn:Hl; [|discriminate].
  destruct (m o p) as [[o' p']|] eqn:Hm; [|discriminate].
  destruct (heap p' !! l) as [x|] eqn:Hx; [|discriminate].
  intros H. injection H as _ <-. exists o, o', p'. eauto.
Qed.

Lemma for_count_Ok_S {T : Type} (k : nat) (i : Z)
    (body : Z -> T -> @prog St Obj T) (acc : T) p r :
  for_count (S k) i body acc p = Ok r <->
  exists acc1 p1, body i acc p = Ok (acc1, p1)
                  /\ for_count k (i + 1) body acc1 p1 = Ok r.
Proof. simpl. apply bind_Ok. Qed.

(** A loop of [k + 1] rounds is [k] rounds and then the last one. *)
Lemma for_count_snoc {T : Type} (k : nat) (i : Z)
    (body : Z -> T -> @prog St Obj T) (acc : T) p :
  for_count (S k) i body acc p
  = bind (for_count k i body acc)
         (fun acc' => body (i + Z.of_nat k) acc') p.
Proof.
  revert i acc p. induction k as [|k IH]; intros i acc p.
  - simpl. unfold bind, ret. rewrite Z.add_0_r.
    destruct (body i acc p) as [[a q]|]; reflexivity.
  - change (for_count (S (S k)) i body acc p)
      with (bind (body i acc) (fun a => for_count (S k) (i + 1) body a) p).
    change (for_count (S k) i body acc)
      with (bind (body i acc) (fun a => for_count k (i + 1) body a)).
    unfold bind at 1 2 3.
    destruct (body i acc p) as [[a q]|]; [|reflexivity].
    rewrite IH. unfold bind.
    replace (i + 1 + Z.of_nat k) with (i + Z.of_nat (S k)) by lia.
    reflexivity.
Qed.

End ProgFacts.

(** Unfolding the primitive statements of a program. *)
Ltac unfold_prog :=
  unfold bind, ret, use, emit, get_statics, put_statics, cin_int, cin_word,
    cin_double, cin_ignore, cin_getline, new, delete_obj, deref, assign,
    call, call_value, call_const, elem in *.

(** Case analysis on the results of the extractions in the goal. *)
Ltac destruct_reads :=
  repeat (match goal with
          | |- context [Stream.get_int ?a ?b] =>
              destruct (Stream.get_int a b) as [? ?] eqn:?
          | |- context [Stream.get_word ?a ?b] =>
              destruct (Stream.get_word a b) as [? ?] eqn:?
          | |- context [Stream.getline ?a ?b] =>
              destruct (Stream.getline a b) as [? ?] eqn:?
          | |- context [Stream.get_double ?a ?b] =>
              destruct (Stream.get_double a b) as [? ?] eqn:?
          end; simpl).

(** ** Reading back what was printed *)

Module StreamFacts.
Import Stream.

Lemma good_reading (s : string) : good (reading s) = true.
Proof. reflexivity. Qed.

Lemma buf_reading (s : string) : buf (reading s) = s.
Proof. reflexivity. Qed.

Lemma skipws_all_space (ws s : string) :
  all_space ws = true -> skipws (ws ++ s) = skipws s.
Proof.
  induction ws as [|c ws IH]; intros H; [reflexivity|].
  simpl in H. apply andb_prop in H as [Hc Hws].
  rewrite append_cons. simpl. rewrite Hc. exact (IH Hws).
Qed.

Lemma span_digits (d : Decimal.uint) (c : ascii) (rest : string) :
  isdigit c = false ->
  span isdigit (NilEmpty.string_of_uint d ++ String c rest)
  = (NilEmpty.string_of_uint d, String c rest).
Proof.
  intros Hc. induction d as [|d IH|d IH|d IH|d IH|d IH|d IH|d IH|d IH|d IH|d IH];
    simpl NilEmpty.string_of_uint;
    [rewrite append_nil_l; simpl; rewrite Hc; reflexivity|..];
    rewrite append_cons; simpl span; rewrite IH; reflexivity.
Qed.

Lemma span_word (w : string) (c : ascii) (rest : string) :
  no_space w = true -> isspace c = true ->
  span (fun a => negb (isspace a)) (w ++ String c rest) = (w, String c rest).
Proof.
  intros Hw Hc. induction w as [|a w IH].
  - rewrite append_nil_l. simpl. rewrite Hc. reflexivity.
  - simpl in Hw. apply andb_prop in Hw as [Ha Hw].
    rewrite append_cons. simpl. rewrite Ha, (IH Hw). reflexivity.
Qed.

(** The decimal digits [put_int] prints for a natural number. *)
Lemma put_int_digits (z : Z) :
  0 <= z ->
  exists d : Decimal.uint,
    d <> Decimal.Nil
    /\ put_int z = NilEmpty.string_of_uint d
    /\ put_int (- z) = (if z =? 0 then "" else "-") ++ NilEmpty.string_of_uint d
    /\ Z.of_uint d = z.
Proof.
  intros Hz. destruct z as [|q|q]; [| |lia].
  - exists (Decimal.D0 Decimal.Nil). repeat split; discriminate.
  - exists (Pos.to_uint q).
    pose proof (DecimalPos.Unsigned.to_uint_nonnil q) as Hnn.
    split; [exact Hnn|].
    assert (Hs : NilZero.string_of_uint (Pos.to_uint q)
                 = NilEmpty.string_of_uint (Pos.to_uint q)).
    { destruct (Pos.to_uint q); [contradiction|reflexivity..]. }
    split; [exact Hs|]. split.
    + unfold put_int. simpl. rewrite Hs. reflexivity.
    + unfold Z.of_uint. rewrite DecimalPos.Unsigned.of_to. reflexivity.
Qed.

Lemma digits_value_digits (d : Decimal.uint) :
  digits_value (NilEmpty.string_of_uint d) = Z.of_uint d.
Proof. unfold digits_value. rewrite NilEmpty.usu. reflexivity. Qed.

(** The first character of a number is a digit: neither white space nor
    a sign. *)
Lemma digits_head (d : Decimal.uint) :
  d <> Decimal.Nil ->
  exists a r, NilEmpty.string_of_uint d = String a r
              /\ isspace a = false /\ isdigit a = true.
Proof.
  intros Hd. destruct d; [contradiction|..]; simpl; eexists _, _;
    (split; [reflexivity|]); split; reflexivity.
Qed.

Lemma take_sign_digit (a : ascii) (r : string) :
  isdigit a = true -> take_sign (String a r) = (false, String a r).
Proof.
  destruct a as [[|] [|] [|] [|] [|] [|] [|] [|]];
    intros H; try discriminate H; reflexivity.
Qed.

(** [cin >> x] reads back the [int] that [cout << z] printed, after any
    white space and up to the next character that is not a digit. *)
Lemma get_int_typed (ws : string) (z : Z) (c : ascii) (rest : string)
    (x : option Z) :
  all_space ws = true ->
  is_int z = true ->
  isdigit c = false ->
  get_int (reading (ws ++ put_int z ++ String c rest)) x
  = (Some z, reading (String c rest)).
Proof.
  intros Hws Hz Hc. unfold is_int in Hz.
  apply andb_prop in Hz as [Hlo Hhi].
  apply Z.leb_le in Hlo. apply Z.leb_le in Hhi.
  unfold get_int. rewrite good_reading, buf_reading.
  rewrite (skipws_all_space _ _ Hws).
  destruct (Z_le_gt_dec 0 z) as [Hpos|Hneg].
  - destruct (put_int_digits z Hpos) as (d & Hnn & Hput & _ & Hval).
    destruct (digits_head d Hnn) as (a & r & Hd & Hsp & Hdig).
    rewrite Hput, Hd, append_cons. simpl skipws. rewrite Hsp.
    rewrite (take_sign_digit a _ Hdig).
    rewrite <- append_cons, <- Hd.
    rewrite (span_digits d c rest Hc).
    rewrite digits_value_digits, Hval.
    destruct (Z.ltb_spec z INT_MIN); [lia|].
    destruct (Z.ltb_spec INT_MAX z); [lia|]. rewrite Hd. reflexivity.
  - destruct (put_int_digits (- z) ltac:(lia)) as (d & Hnn & _ & Hput & Hval).
    rewrite Z.opp_involutive in Hput.
    destruct (Z.eqb_spec (- z) 0) as [H0|_]; [lia|].
    destruct (digits_head d Hnn) as (a & r & Hd & _).
    rewrite Hput. rewrite append_assoc.
    change ("-" ++ NilEmpty.string_of_uint d ++ String c rest)
      with (String "-" (NilEmpty.string_of_uint d ++ String c rest)).
    simpl skipws. cbv beta iota. unfold take_sign. cbv beta iota.
    rewrite (span_digits d c rest Hc).
    rewrite digits_value_digits, Hval.
    destruct (Z.ltb_spec (- - z) INT_MIN); [lia|].
    destruct (Z.ltb_spec INT_MAX (- - z)); [lia|].
    rewrite Z.opp_involutive, Hd. reflexivity.
Qed.

(** [cin >> s] reads a word back, after any white space and up to the
    next white space. *)
Lemma get_word_typed (ws w : string) (c : ascii) (rest x : string) :
  all_space ws = true ->
  is_word w = true ->
  isspace c = true ->
  get_word (reading (ws ++ w ++ String c rest)) x
  = (w, reading (String c rest)).
Proof.
  intros Hws Hw Hc. unfold get_word. rewrite good_reading, buf_reading.
  rewrite (skipws_all_space _ _ Hws).
  destruct w as [|a w]; [discriminate|].
  change (is_word (String a w)) with (no_space (String a w)) in Hw.
  pose proof Hw as Hw'. simpl in Hw'. apply andb_prop in Hw' as [Ha _].
  apply negb_true_iff in Ha.
  rewrite append_cons. simpl skipws. rewrite Ha.
  rewrite <- append_cons.
  rewrite (span_word (String a w) c rest Hw Hc). reflexivity.
Qed.

Lemma get_int_line (z : Z) (more : string) (x : option Z) :
  is_int z = true ->
  get_int (reading (nl ++ put_int z ++ nl ++ more)) x
  = (Some z, reading (nl ++ more)).
Proof.
  intros Hz.
  exact (get_int_typed nl z (ascii_of_nat 10) more x eq_refl Hz eq_refl).
Qed.

Lemma get_word_line (w more x : string) :
  is_word w = true ->
  get_word (reading (nl ++ w ++ nl ++ more)) x = (w, reading (nl ++ more)).
Proof.
  intros Hw.
  exact (get_word_typed nl w (ascii_of_nat 10) more x eq_refl Hw eq_refl).
Qed.

Lemma span_all_digits (w : string) (c : ascii) (rest : string) :
  all_digits w = true -> isdigit c = false ->
  span isdigit (w ++ String c rest) = (w, String c rest).
Proof.
  intros Hw Hc. induction w as [|a w IH].
  - rewrite append_nil_l. simpl. rewrite Hc. reflexivity.
  - simpl in Hw. apply andb_prop in Hw as [Ha Hw].
    rewrite append_cons. simpl. rewrite Ha, (IH Hw). reflexivity.
Qed.

Lemma until_nl_line (w more : string) :
  no_newline w = true -> until_nl (w ++ nl ++ more) = (w, Some more).
Proof.
  intros Hw. induction w as [|a w IH].
  - reflexivity.
  - simpl in Hw. apply andb_prop in Hw as [Ha Hw].
    apply negb_true_iff in Ha.
    rewrite append_cons. simpl. rewrite Ha, (IH Hw). reflexivity.
Qed.

(** [cin.ignore()] drops the newline a token was followed by, and
    [getline] then reads the next line whole. *)
Lemma ignore_newline (s : string) : ignore (reading (nl ++ s)) = reading s.
Proof. reflexivity. Qed.

Lemma getline_typed (w more x : string) :
  no_newline w = true ->
  getline (reading (w ++ nl ++ more)) x = (w, reading more).
Proof.
  intros Hw. unfold getline. rewrite good_reading, buf_reading.
  rewrite (until_nl_line w more Hw). reflexivity.
Qed.

End StreamFacts.

(** ** Input that has failed *)

Module FailedInput.
Import Stream.

Lemma good_setfail (ist : istream) : good (setfail ist) = false.
Proof. unfold good, setfail. simpl. apply andb_false_r. Qed.

Lemma get_int_failed (ist : istream) (x : option Z) :
  good ist = false -> get_int ist x = (x, setfail ist).
Proof. unfold get_int. intros ->. reflexivity. Qed.

Lemma get_word_failed (ist : istream) (x : string) :
  good ist = false -> get_word ist x = (x, setfail ist).
Proof. unfold get_word. intros ->. reflexivity. Qed.

Lemma getline_failed (ist : istream) (x : string) :
  good ist = false -> getline ist x = (x, setfail ist).
Proof. unfold getline. intros ->. reflexivity. Qed.

Lemma get_double_failed (ist : istream) (x : option double) :
  good ist = false -> get_double ist x = (x, setfail ist).
Proof. unfold get_double. intros ->. reflexivity. Qed.

Lemma ignore_failed (ist : istream) :
  good ist = false -> ignore ist = setfail ist.
Proof. unfold ignore. intros ->. reflexivity. Qed.

Lemma skipws_blank (ws : string) : all_space ws = true -> skipws ws = "".
Proof.
  induction ws as [|c ws IH]; intros H; [reflexivity|].
  simpl in H. apply andb_prop in H as [Hc Hws]. simpl. rewrite Hc. auto.
Qed.

(** At the end of the input, with at most white space left, [cin >> x]
    leaves [x] as it is and sets both state bits. *)
Lemma get_int_blank (ws : string) (x : option Z) :
  all_space ws = true -> get_int (reading ws) x = (x, at_eof).
Proof.
  intros H. unfold get_int. simpl. rewrite (skipws_blank ws H). reflexivity.
Qed.

Lemma take_sign_other (c : ascii) (r : string) :
  Ascii.eqb c "-" = false -> Ascii.eqb c "+" = false ->
  take_sign (String c r) = (false, String c r).
Proof.
  destruct c as [[|] [|] [|] [|] [|] [|] [|] [|]];
    intros H1 H2; try discriminate H1; try discriminate H2; reflexivity.
Qed.

(** A field that begins with a character [c] no number begins with:
    [cin >> x] stores 0, consumes nothing but the white space, and sets
    [failbit]. *)
Lemma get_int_malformed (ws : string) (c : ascii) (rest : string) (x : option Z) :
  all_space ws = true ->
  isdigit c = false -> isspace c = false ->
  Ascii.eqb c "-" = false -> Ascii.eqb c "+" = false ->
  get_int (reading (ws ++ String c rest)) x
  = (Some 0, {| buf := String c rest; eofbit := false; failbit := true |}).
Proof.
  intros Hws Hd Hs Hm Hp. unfold get_int. simpl good. cbv iota.
  simpl buf. rewrite (StreamFacts.skipws_all_space _ _ Hws).
  simpl skipws. rewrite Hs. rewrite (take_sign_other c rest Hm Hp).
  simpl span. rewrite Hd. reflexivity.
Qed.

End FailedInput.

(** ** The library program *)

Module LibraryFacts.
Import Library.
Import BookFields PatronFields.
Import LibrarySpec.

Lemma checked_out_unavailable (b : BookFields.t) :
  isAvailable b = false -> checked_out b = b.
Proof. destruct b; simpl; intros ->; reflexivity. Qed.

(** C10.  [Book::checkOut] returns [true] exactly when the book was
    available, and then makes it unavailable; otherwise it returns
    [false] and leaves the book as it was.  [Patron::borrowBook], called
    on a live book, appends the book's address to the borrowed list
    exactly when [checkOut] returned [true], and leaves the list
    unchanged otherwise. *)
Theorem checkOut_borrowBook :
  forall (b : BookFields.t) (book : loc) (this : PatronFields.t)
         (p : process unit BookFields.t),
    heap p !! book = Some b ->
    Book.checkOut b p
      = Ok ((isAvailable b, if isAvailable b then checked_out b else b), p)
    /\ exists this' p',
        Patron.borrowBook book this p = Ok (this', p')
        /\ name this' = name this
        /\ cardNumber this' = cardNumber this
        /\ statics p' = statics p
        /\ cin p' = cin p
        /\ if isAvailable b
           then borrowedBooks this' = (borrowedBooks this ++ [book])%list
                /\ heap p' = <[book := checked_out b]> (heap p)
           else borrowedBooks this' = borrowedBooks this
                /\ heap p' = heap p.
Proof.
  intros b book this p Hb. split.
  - unfold Book.checkOut. destruct (isAvailable b); reflexivity.
  - unfold Patron.borrowBook, call_value, call_const, Book.checkOut,
      Book.getTitle, bind, deref, assign, ret, emit.
    rewrite Hb. destruct (isAvailable b) eqn:Hav; simpl; rewrite Hb; simpl.
    + rewrite lookup_insert_eq. simpl. eexists _, _. split; [reflexivity|].
      simpl. repeat split; reflexivity.
    + rewrite lookup_insert_eq. simpl. eexists _, _. split; [reflexivity|].
      simpl. repeat split; try reflexivity.
      apply insert_id. exact Hb.
Qed.

Lemma checkOut_borrowBook_witness :
  let p := set_heap {[ 1%positive := Book.Book "1984" "George Orwell" "67890" ]}
                    Library.start in
  exists this' p',
    Patron.borrowBook 1%positive (Patron.Patron "Alice" "P001") p = Ok (this', p')
    /\ borrowedBooks this' = [1%positive].
Proof.
  intros p.
  destruct (checkOut_borrowBook (Book.Book "1984" "George Orwell" "67890")
              1%positive (Patron.Patron "Alice" "P001") p)
    as [_ (this' & p' & Hrun & _ & _ & _ & _ & Hlist & _)].
  - reflexivity.
  - exists this', p'. split; [exact Hrun | exact Hlist].
Defined.

End LibraryFacts.

(** ** The hospital program *)

Module HospitalFacts.
Import Stream Hospital HospitalSpec InputErrors HospitalInput.

Lemma putdata_line (o : object) (p : process counters object) :
  putdata o p = match line o with
                | Some s => Ok (o, set_cout (cout p ++ s) p)
                | None => Undefined
                end.
Proof.
  destruct o as [[[nm [a|]] [sp|] id]|[[nm [a|]] dt id]];
    unfold putdata, line, Doctor.putdata, Patient.putdata;
    unfold_prog; simpl; try reflexivity;
    rewrite ?append_assoc; reflexivity.
Qed.

(** [Doctor::getdata] and [Patient::getdata] in one step: the three
    extractions in a row, and the three prompts. *)
Lemma Doctor_getdata_run (d : DoctorFields.t) (p : process counters object) :
  Doctor.getdata d p
  = let r1 := get_word (cin p) (Person.name (DoctorFields.person d)) in
    let r2 := get_int (snd r1) (Person.age (DoctorFields.person d)) in
    let r3 := get_int (snd r2) (DoctorFields.doctor_specialist d) in
    Ok ({| DoctorFields.person := {| Person.name := fst r1; Person.age := fst r2 |};
           DoctorFields.doctor_specialist := fst r3;
           DoctorFields.doctor_id := DoctorFields.doctor_id d |},
        set_cin (snd r3)
          (set_cout (cout p ++ "Enter Doctor Name: Enter Age: Enter Specialist ID: ") p)).
Proof.
  unfold Doctor.getdata. unfold_prog. simpl.
  destruct (get_word (cin p) (Person.name (DoctorFields.person d))) as [nm i1].
  simpl.
  destruct (get_int i1 (Person.age (DoctorFields.person d))) as [a i2]. simpl.
  destruct (get_int i2 (DoctorFields.doctor_specialist d)) as [sp i3]. simpl.
  unfold set_cin, set_cout. simpl. rewrite !append_assoc. reflexivity.
Qed.

Lemma Patient_getdata_run (q : PatientFields.t) (p : process counters object) :
  Patient.getdata q p
  = let r1 := get_word (cin p) (Person.name (PatientFields.person q)) in
    let r2 := get_int (snd r1) (Person.age (PatientFields.person q)) in
    let r3 := get_word (snd r2) (PatientFields.admission_date q) in
    Ok ({| PatientFields.person := {| Person.name := fst r1; Person.age := fst r2 |};
           PatientFields.admission_date := fst r3;
           PatientFields.patient_id := PatientFields.patient_id q |},
        set_cin (snd r3)
          (set_cout (cout p ++ "Enter Patient Name: Enter Age: Enter Admission Date: ") p)).
Proof.
  unfold Patient.getdata. unfold_prog. simpl.
  destruct (get_word (cin p) (Person.name (PatientFields.person q))) as [nm i1].
  simpl.
  destruct (get_int i1 (Person.age (PatientFields.person q))) as [a i2]. simpl.
  destruct (get_word i2 (PatientFields.admission_date q)) as [dt i3]. simpl.
  unfold set_cin, set_cout. simpl. rewrite !append_assoc. reflexivity.
Qed.

(** [getdata] is always defined; it leaves the objects, the counters and
    the class and sequence number of its object as they are. *)
Lemma getdata_defined (o : object) (p : process counters object) :
  exists o' p',
    getdata o p = Ok (o', p')
    /\ heap p' = heap p /\ statics p' = statics p
    /\ is_doctor o' = is_doctor o
    /\ doctor_ids [o'] = doctor_ids [o]
    /\ patient_ids [o'] = patient_ids [o].
Proof.
  destruct o as [d|q]; unfold getdata, Doctor.getdata, Patient.getdata;
    unfold_prog; simpl.
  - destruct_reads. eexists _, _. split; [reflexivity|]. simpl. auto.
  - destruct_reads. eexists _, _. split; [reflexivity|]. simpl. auto.
Qed.

Lemma create_run (c : Z) (p : process counters object) :
  create c p
  = Ok (fresh (dom (heap p)),
        set_heap (<[fresh (dom (heap p)) := constructed c (statics p)]> (heap p))
                 (set_statics (counted c (statics p)) p)).
Proof.
  unfold create, constructed, counted, Doctor.Doctor, Patient.Patient.
  destruct (c =? 1); unfold_prog; reflexivity.
Qed.

(** One round of the entry loop, when a choice [c] is read. *)
Lemma entry_run (i : Z) (people : list (option loc))
    (p : process counters object) (c : Z) (ist : istream) :
  get_int (cin p) None = (Some c, ist) ->
  (Z.to_nat i < length people)%nat ->
  let l := fresh (dom (heap p)) in
  let q := set_heap (<[l := constructed c (statics p)]> (heap p))
             (set_statics (counted c (statics p))
                (set_cin ist
                   (set_cout (cout p ++ nl ++ "Enter 1 for Doctor, 2 for Patient: ") p))) in
  exists o q',
    getdata (constructed c (statics p)) q = Ok (o, q')
    /\ entry i people p
       = Ok (<[Z.to_nat i := Some l]> people, set_heap (<[l := o]> (heap p)) q').
Proof.
  intros Hc Hi l q.
  destruct (getdata_defined (constructed c (statics p)) q)
    as (o & q' & Hg & Hh & _).
  exists o, q'. split; [exact Hg|].
  unfold entry.
  rewrite (bind_run _ _ _ tt
             (set_cout (cout p ++ nl ++ "Enter 1 for Doctor, 2 for Patient: ") p))
    by reflexivity.
  rewrite (bind_run _ _ _ (Some c)
             (set_cin ist (set_cout (cout p ++ nl ++ "Enter 1 for Doctor, 2 for Patient: ") p))).
  2:{ unfold cin_int. simpl. rewrite Hc. reflexivity. }
  rewrite (bind_run _ _ _ c _ eq_refl).
  rewrite (bind_run _ _ _ _ _ (create_run c _)).
  simpl statics. simpl heap.
  unfold elem at 1.
  rewrite (bind_run _ _ _ l q).
  2:{ rewrite list_lookup_insert_eq by exact Hi. reflexivity. }
  assert (Hq : heap q = <[l := constructed c (statics p)]> (heap p)) by reflexivity.
  rewrite (bind_run _ _ _ tt (set_heap (<[l := o]> (heap q')) q')).
  2:{ apply call_run with (o := constructed c (statics p)); [|exact Hg|].
      - rewrite Hq. apply lookup_insert_eq.
      - rewrite Hh, Hq, lookup_insert_eq. eauto. }
  unfold ret. rewrite Hh, Hq, insert_insert_eq. reflexivity.
Qed.

Lemma wrap_int_small (z : Z) : INT_MIN <= z <= INT_MAX -> wrap_int z = z.
Proof.
  unfold wrap_int, INT_MIN, INT_MAX. intros H.
  rewrite Z.mod_small by lia. lia.
Qed.

(** A round of the entry loop that is defined read a choice and stored
    into the array. *)
Lemma entry_Ok (i : Z) (people : list (option loc))
    (p : process counters object) r :
  entry i people p = Ok r ->
  exists c ist, get_int (cin p) None = (Some c, ist)
                /\ (Z.to_nat i < length people)%nat.
Proof.
  unfold entry. intros H.
  apply bind_Ok in H as (u & p1 & H1 & H). injection H1 as <- <-.
  apply bind_Ok in H as (ch & p2 & H2 & H).
  unfold cin_int in H2. simpl in H2.
  destruct (get_int (cin p) None) as [v ist] eqn:Hg. injection H2 as <- <-.
  apply bind_Ok in H as (c & p3 & H3 & H).
  destruct v as [v|]; [|discriminate]. injection H3 as <- <-.
  apply bind_Ok in H as (l & p4 & _ & H).
  apply bind_Ok in H as (q & p5 & H5 & _).
  exists v, ist. split; [reflexivity|].
  unfold elem in H5.
  destruct (<[Z.to_nat i:=Some l]> people !! Z.to_nat i) as [x|] eqn:Hl;
    [|discriminate].
  apply lookup_lt_Some in Hl. rewrite length_insert in Hl. exact Hl.
Qed.

(** What a round of the entry loop does to the array, the objects and
    the counters. *)
Lemma entry_effect (i : Z) (people people' : list (option loc))
    (p p' : process counters object) :
  entry i people p = Ok (people', p') ->
  exists c l o,
    (Z.to_nat i < length people)%nat
    /\ heap p !! l = None
    /\ people' = <[Z.to_nat i := Some l]> people
    /\ heap p' = <[l := o]> (heap p)
    /\ statics p' = counted c (statics p)
    /\ doctor_ids [o] = doctor_ids [constructed c (statics p)]
    /\ patient_ids [o] = patient_ids [constructed c (statics p)].
Proof.
  intros H. destruct (entry_Ok _ _ _ _ H) as (c & ist & Hc & Hi).
  destruct (entry_run i people p c ist Hc Hi) as (o & q' & Hg & He).
  rewrite He in H. injection H as <- <-.
  match type of Hg with
  | getdata ?o0 ?q = _ =>
      destruct (getdata_defined o0 q) as (o1 & q1 & Hg1 & _ & Hs & _ & Hd & Hp)
  end.
  rewrite Hg in Hg1. injection Hg1 as <- <-.
  exists c, (fresh (dom (heap p))), o.
  split; [exact Hi|]. split; [apply fresh_loc_free|].
  split; [reflexivity|]. split; [reflexivity|].
  split; [exact Hs|]. split; [exact Hd | exact Hp].
Qed.

Lemma upto_S (k : nat) : upto (S k) = (upto k ++ [Z.of_nat (S k)])%list.
Proof. unfold upto. rewrite seq_S, map_app. reflexivity. Qed.

Lemma length_upto (k : nat) : length (upto k) = k.
Proof. unfold upto. rewrite length_map, length_seq. reflexivity. Qed.

Lemma doctor_ids_app (a b : list object) :
  doctor_ids (a ++ b) = (doctor_ids a ++ doctor_ids b)%list.
Proof. apply omap_app. Qed.

Lemma patient_ids_app (a b : list object) :
  patient_ids (a ++ b) = (patient_ids a ++ patient_ids b)%list.
Proof. apply omap_app. Qed.

(** The state of the entry loop after [k] rounds, started with both
    counters at 0: the first [k] slots of the array hold distinct fresh
    pointers to the objects [os], everything else is as before, and the
    sequence numbers count the doctors and the patients separately. *)
Lemma entries_rounds (k : nat) (people0 people : list (option loc))
    (p0 p : process counters object) :
  statics p0 = {| doctor_count := 0; patient_count := 0 |} ->
  Z.of_nat k <= INT_MAX ->
  for_count k 0 entry people0 p0 = Ok (people, p) ->
  exists ls os,
    length ls = k /\ (k <= length people0)%nat
    /\ people = ((Some <$> ls) ++ drop k people0)%list
    /\ point_to (heap p) ls os
    /\ NoDup ls
    /\ (forall l, l ∈ ls -> heap p0 !! l = None)
    /\ (forall l, l ∉ ls -> heap p !! l = heap p0 !! l)
    /\ statics p = {| doctor_count := Z.of_nat (length (doctor_ids os));
                      patient_count := Z.of_nat (length (patient_ids os)) |}
    /\ doctor_ids os = upto (length (doctor_ids os))
    /\ patient_ids os = upto (length (patient_ids os)).
Proof.
  intros Hs0. revert people p. induction k as [|k IH]; intros people p Hk H.
  - injection H as <- <-. exists [], []. rewrite Hs0. simpl.
    repeat split; try reflexivity; try lia; try constructor.
    intros l Hl. inversion Hl.
  - rewrite for_count_snoc in H.
    apply bind_Ok in H as (people1 & p1 & H1 & H).
    destruct (IH people1 p1 ltac:(lia) H1)
      as (ls & os & Hlen & Hle & Hpe & Hpt & Hnd & Hfresh & Hframe & Hst & Hd & Hp).
    apply entry_effect in H as (c & l & o & Hi & Hl & -> & Hh & Hst' & Hdo & Hpo).
    assert (Hlos : length os = k).
    { rewrite <- Hlen. symmetry. eapply Forall2_length, Hpt. }
    assert (Hnin : l ∉ ls).
    { intros Hin. apply list_elem_of_lookup in Hin as [j Hj].
      destruct (Forall2_lookup_l _ _ _ _ _ Hpt Hj) as (o' & _ & Ho').
      congruence. }
    assert (Hik : Z.to_nat (0 + Z.of_nat k) = k) by lia.
    rewrite Hik in *.
    assert (Hk0 : (k < length people0)%nat).
    { rewrite Hpe, length_app, length_fmap, length_drop in Hi. lia. }
    destruct (lookup_lt_is_Some_2 people0 k Hk0) as [x Hx].
    assert (Hdl : (length (doctor_ids os) + length (patient_ids os) <= k)%nat).
    { rewrite <- Hlos. clear. induction os as [|[d|q] os IHos]; simpl; lia. }
    exists (ls ++ [l])%list, (os ++ [o])%list.
    split; [rewrite length_app; simpl; lia|].
    split; [lia|].
    split.
    { rewrite Hpe. rewrite insert_app_r_alt by (rewrite length_fmap; lia).
      rewrite length_fmap, Hlen, Nat.sub_diag.
      rewrite (drop_S _ _ _ Hx). simpl.
      rewrite fmap_app. simpl. rewrite <- app_assoc. reflexivity. }
    split.
    { apply Forall2_app.
      - eapply Forall2_impl; [exact Hpt|]. intros l' o' Hl'. simpl in Hl'.
        rewrite Hh. rewrite lookup_insert_ne; [exact Hl'|]. congruence.
      - constructor; [|constructor]. rewrite Hh. apply lookup_insert_eq. }
    split.
    { apply NoDup_app. split; [exact Hnd|]. split.
      - intros y Hy Hy'. apply list_elem_of_singleton in Hy'. subst y. auto.
      - apply NoDup_singleton. }
    split.
    { intros y Hy. apply elem_of_app in Hy as [Hy|Hy]; [auto|].
      apply list_elem_of_singleton in Hy. subst y.
      rewrite <- Hframe by exact Hnin. exact Hl. }
    split.
    { intros y Hy. rewrite Hh.
      rewrite lookup_insert_ne.
      - apply Hframe. intros Hin. apply Hy. apply elem_of_app. auto.
      - intros ->. apply Hy. apply elem_of_app. right. constructor. }
    rewrite !doctor_ids_app, !patient_ids_app, !length_app.
    rewrite Hdo, Hpo, Hst', Hst. unfold counted, constructed. simpl.
    destruct (c =? 1); simpl.
    + rewrite wrap_int_small by (unfold INT_MIN; lia).
      rewrite !Nat.add_0_r, Nat.add_1_r, app_nil_r.
      split; [f_equal; lia|]. split; [|exact Hp].
      rewrite upto_S, <- Hd. f_equal. f_equal. lia.
    + rewrite wrap_int_small by (unfold INT_MIN; lia).
      rewrite !Nat.add_0_r, Nat.add_1_r, app_nil_r.
      split; [f_equal; lia|]. split; [exact Hd|].
      rewrite upto_S, <- Hp. f_equal. f_equal. lia.
Qed.

(** C1.  When the entry loop of the hospital program has run, from the
    start-up value 0 of both counters and for a count [n] that an [int]
    can hold, the doctors among the [n] objects it created carry the
    sequence numbers 1, 2, 3, ... in the order of their creation, however
    many patients were created in between, and so do the patients. *)
Theorem sequence_numbers_per_variant :
  forall (n : Z) (people people' : list (option loc))
         (p p' : process counters object),
    statics p = {| doctor_count := 0; patient_count := 0 |} ->
    n <= INT_MAX ->
    entries n people p = Ok (people', p') ->
    exists (ls : list loc) (os : list object),
      length ls = Z.to_nat n
      /\ people' = ((Some <$> ls) ++ drop (Z.to_nat n) people)%list
      /\ point_to (heap p') ls os
      /\ doctor_ids os = upto (length (doctor_ids os))
      /\ patient_ids os = upto (length (patient_ids os)).
Proof.
  intros n people people' p p' Hs Hn H.
  unfold entries, for_range in H. rewrite Z.sub_0_r in H.
  assert (Hn' : Z.of_nat (Z.to_nat n) <= INT_MAX) by (unfold INT_MAX in *; lia).
  destruct (entries_rounds (Z.to_nat n) people people' p p' Hs Hn' H)
    as (ls & os & Hlen & _ & Hpe & Hpt & _ & _ & _ & _ & Hd & Hp).
  exists ls, os. auto.
Qed.

Lemma sequence_numbers_per_variant_witness :
  let inp := "1 Asha 34 7" ++ nl ++ "2 Bob 50 2024-01-01" ++ nl
             ++ "2 Cy 61 2024-01-02" ++ nl ++ "1 Dee 45 9" ++ nl in
  let r := value_or ([], start "") (entries 4 (replicate 4 None) (start inp)) in
  exists (ls : list loc) (os : list object),
    length ls = Z.to_nat 4
    /\ fst r = ((Some <$> ls) ++ drop (Z.to_nat 4) (replicate 4 None))%list
    /\ point_to (heap (snd r)) ls os
    /\ doctor_ids os = upto (length (doctor_ids os))
    /\ patient_ids os = upto (length (patient_ids os)).
Proof.
  intros inp r.
  apply (sequence_numbers_per_variant 4 (replicate 4 None) (fst r)
           (start inp) (snd r)).
  - reflexivity.
  - vm_compute. discriminate.
  - vm_compute. reflexivity.
Defined.

(** The same run, evaluated: two doctors and two patients, interleaved. *)
Example sequence_numbers_interleaved :
  let inp := "1 Asha 34 7" ++ nl ++ "2 Bob 50 2024-01-01" ++ nl
             ++ "2 Cy 61 2024-01-02" ++ nl ++ "1 Dee 45 9" ++ nl in
  let r := value_or ([], start "") (entries 4 (replicate 4 None) (start inp)) in
  let os := omap (fun q => q ≫= fun l => heap (snd r) !! l) (fst r) in
  doctor_ids os = [1; 2] /\ patient_ids os = [1; 2]
  /\ map is_doctor os = [true; false; false; true].
Proof. vm_compute. auto. Qed.

(** One round of the entry loop, in full. *)
Lemma entry_entered (i : Z) (people : list (option loc))
    (p : process counters object) (c : Z) (ist : istream) :
  get_int (cin p) None = (Some c, ist) ->
  (Z.to_nat i < length people)%nat ->
  entry i people p
  = Ok (<[Z.to_nat i := Some (fresh (dom (heap p)))]> people,
        {| statics := counted c (statics p);
           heap := <[fresh (dom (heap p)) := fst (entered c (statics p) ist)]> (heap p);
           cin := snd (entered c (statics p) ist);
           cout := cout p ++ nl ++ "Enter 1 for Doctor, 2 for Patient: "
                     ++ prompts_of (fst (entered c (statics p) ist)) |}).
Proof.
  intros Hc Hi.
  destruct (entry_run i people p c ist Hc Hi) as (o & q' & Hg & He).
  rewrite He. f_equal. f_equal.
  unfold constructed, entered, getdata, bind in *.
  destruct (c =? 1).
  - rewrite Doctor_getdata_run in Hg. unfold ret in Hg. injection Hg as <- <-.
    simpl. unfold set_heap, set_cin, set_cout. simpl.
    rewrite !append_assoc. reflexivity.
  - rewrite Patient_getdata_run in Hg. unfold ret in Hg. injection Hg as <- <-.
    simpl. unfold set_heap, set_cin, set_cout. simpl.
    rewrite !append_assoc. reflexivity.
Qed.


(** C9.  In a round of the entry loop that reads the choice [c], whatever
    [c] is, a new object is constructed with the next sequence number of
    its class, stored in [people[i]] and populated by the three
    extractions of its [getdata]; it is a [Doctor] exactly when [c] is 1
    and a [Patient] for every other value, and nothing else in the heap
    changes.  On typed answers: after the choice 1 the object stored is
    the doctor with the name, the age and the specialist id typed, and
    after any other choice an [int] can hold it is the patient with the
    name, the age and the admission date typed. *)
Theorem doctor_iff_choice_is_one :
  (forall (i : Z) (people : list (option loc)) (p : process counters object)
          (c : Z) (ist : istream),
      get_int (cin p) None = (Some c, ist) ->
      (Z.to_nat i < length people)%nat ->
      let l := fresh (dom (heap p)) in
      let o := fst (entered c (statics p) ist) in
      entry i people p
      = Ok (<[Z.to_nat i := Some l]> people,
            {| statics := counted c (statics p);
               heap := <[l := o]> (heap p);
               cin := snd (entered c (statics p) ist);
               cout := cout p ++ nl ++ "Enter 1 for Doctor, 2 for Patient: "
                         ++ prompts_of o |})
      /\ heap p !! l = None
      /\ (is_doctor o = true <-> c = 1)
      /\ (is_doctor o = false <-> c <> 1))
  /\ (forall (i : Z) (people : list (option loc)) (p : process counters object)
             (ws more : string) (c : Z) (nm : string) (ag : Z),
         (Z.to_nat i < length people)%nat ->
         all_space ws = true -> is_int c = true ->
         is_word nm = true -> is_int ag = true ->
         let l := fresh (dom (heap p)) in
         let dc := doctor_count (statics p) in
         let pc := patient_count (statics p) in
         (forall sp : Z,
             c = 1 -> is_int sp = true ->
             cin p = reading (ws ++ put_int c ++ nl ++ nm ++ nl ++ put_int ag ++ nl
                                ++ put_int sp ++ nl ++ more) ->
             entry i people p
             = Ok (<[Z.to_nat i := Some l]> people,
                   {| statics := {| doctor_count := wrap_int (dc + 1);
                                    patient_count := pc |};
                      heap := <[l := DoctorObj (doctor nm (Some ag) (Some sp)
                                                  (wrap_int (dc + 1)))]> (heap p);
                      cin := reading (nl ++ more);
                      cout := cout p ++ nl ++ "Enter 1 for Doctor, 2 for Patient: "
                                ++ doctor_prompts |}))
         /\ (forall dt : string,
                c <> 1 -> is_word dt = true ->
                cin p = reading (ws ++ put_int c ++ nl ++ nm ++ nl ++ put_int ag ++ nl
                                   ++ dt ++ nl ++ more) ->
                entry i people p
                = Ok (<[Z.to_nat i := Some l]> people,
                      {| statics := {| doctor_count := dc;
                                       patient_count := wrap_int (pc + 1) |};
                         heap := <[l := PatientObj (patient nm (Some ag) dt
                                                      (wrap_int (pc + 1)))]> (heap p);
                         cin := reading (nl ++ more);
                         cout := cout p ++ nl ++ "Enter 1 for Doctor, 2 for Patient: "
                                   ++ patient_prompts |}))).
Proof.
  split.
  - intros i people p c ist Hc Hi l o.
    split; [exact (entry_entered i people p c ist Hc Hi)|].
    split; [apply fresh_loc_free|].
    unfold o, entered.
    destruct (Z.eqb_spec c 1) as [->|Hne]; simpl; split; split;
      intros H; try reflexivity; try discriminate; try exact Hne; congruence.
  - intros i people p ws more c nm ag Hi Hws Hc Hnm Hag l dc pc. split.
    + intros sp -> Hsp Hcin.
      assert (Hg : get_int (cin p) None
                   = (Some 1, reading (nl ++ nm ++ nl ++ put_int ag ++ nl
                                         ++ put_int sp ++ nl ++ more))).
      { rewrite Hcin.
        exact (StreamFacts.get_int_typed ws 1 (ascii_of_nat 10) _ None Hws
                 eq_refl eq_refl). }
      rewrite (entry_entered i people p 1 _ Hg Hi).
      unfold entered. change (1 =? 1) with true. cbv iota.
      rewrite (StreamFacts.get_word_line nm _ _ Hnm). cbv zeta. simpl snd. simpl fst.
      rewrite (StreamFacts.get_int_line ag _ _ Hag). simpl snd. simpl fst.
      rewrite (StreamFacts.get_int_line sp _ _ Hsp). simpl snd. simpl fst.
      reflexivity.
    + intros dt Hne Hdt Hcin.
      assert (Hg : get_int (cin p) None
                   = (Some c, reading (nl ++ nm ++ nl ++ put_int ag ++ nl
                                         ++ dt ++ nl ++ more))).
      { rewrite Hcin.
        exact (StreamFacts.get_int_typed ws c (ascii_of_nat 10) _ None Hws
                 Hc eq_refl). }
      rewrite (entry_entered i people p c _ Hg Hi).
      unfold entered, counted. rewrite (proj2 (Z.eqb_neq c 1) Hne). cbv iota.
      rewrite (StreamFacts.get_word_line nm _ _ Hnm). cbv zeta. simpl snd. simpl fst.
      rewrite (StreamFacts.get_int_line ag _ _ Hag). simpl snd. simpl fst.
      rewrite (StreamFacts.get_word_line dt _ _ Hdt). simpl snd. simpl fst.
      reflexivity.
Qed.

Lemma doctor_iff_choice_is_one_witness :
  let inp := "99" ++ nl ++ "Bob" ++ nl ++ "50" ++ nl ++ "2024-01-01" ++ nl in
  entry 0 [None] (start inp)
  = Ok ([Some 1%positive],
        {| statics := {| doctor_count := 0; patient_count := 1 |};
           heap := {[ 1%positive := PatientObj (patient "Bob" (Some 50) "2024-01-01" 1) ]};
           cin := reading nl;
           cout := nl ++ "Enter 1 for Doctor, 2 for Patient: " ++ patient_prompts |})
  /\ is_doctor (fst (entered 99 zero (reading (nl ++ "Bob" ++ nl ++ "50" ++ nl
                                                   ++ "2024-01-01" ++ nl))))
     = false.
Proof.
  intros inp.
  destruct doctor_iff_choice_is_one as [HA HB]. split.
  - exact (proj2 (HB 0 [None] (start inp) "" "" 99 "Bob" 50
                    ltac:(simpl; lia) eq_refl eq_refl eq_refl eq_refl)
             "2024-01-01" ltac:(discriminate) eq_refl eq_refl).
  - destruct (HA 0 [None] (start inp) 99
                (reading (nl ++ "Bob" ++ nl ++ "50" ++ nl ++ "2024-01-01" ++ nl))
                eq_refl ltac:(simpl; lia)) as (_ & _ & _ & Hp).
    apply Hp. discriminate.
Defined.

(** ** The three loops and the exit status *)

Lemma get_int_range (ist ist' : istream) (n : Z) :
  get_int ist None = (Some n, ist') -> INT_MIN <= n <= INT_MAX.
Proof.
  unfold get_int. intros H.
  destruct (good ist); [|discriminate].
  destruct (skipws (buf ist)) as [|a s]; [discriminate|].
  destruct (take_sign (String a s)) as [neg s1].
  destruct (span isdigit s1) as [ds rest].
  destruct ds as [|d ds]; [injection H as <- _; unfold INT_MIN, INT_MAX; lia|].
  destruct (Z.ltb_spec (if neg then - digits_value (String d ds)
                        else digits_value (String d ds)) INT_MIN) as [Hlo|Hlo];
    [injection H as <- _; unfold INT_MIN, INT_MAX; lia|].
  destruct (Z.ltb_spec INT_MAX (if neg then - digits_value (String d ds)
                                else digits_value (String d ds))) as [Hhi|Hhi];
    [injection H as <- _; unfold INT_MIN, INT_MAX; lia|].
  injection H as <- _. lia.
Qed.

(** A call of [putdata] through a pointer to [o]. *)
Lemma call_putdata (l : loc) (o : object) (p : process counters object) :
  heap p !! l = Some o ->
  call l putdata p = match line o with
                     | Some s => Ok (tt, set_cout (cout p ++ s) p)
                     | None => Undefined
                     end.
Proof.
  intros Hl. pose proof (putdata_line o p) as Hd.
  destruct (line o) as [s|].
  - rewrite (call_run l putdata p o o _ Hl Hd) by (simpl; eauto).
    simpl. rewrite (insert_id _ _ _ Hl). reflexivity.
  - unfold call, deref, bind. rewrite Hl, Hd. reflexivity.
Qed.

Lemma elem_middle {St Obj : Type} (pre post : list (option loc)) (l : loc)
    (p : process St Obj) :
  elem (pre ++ Some l :: post) (Z.of_nat (length pre)) p = Ok (l, p).
Proof.
  unfold elem. rewrite Nat2Z.id, list_lookup_middle by reflexivity. reflexivity.
Qed.

(** The display loop over pointers to [os]: the lines of the objects, in
    the order of the array. *)
Lemma records_loop (h : gmap loc object) (ls : list loc) (os : list object) :
  Forall2 (fun l o => h !! l = Some o) ls os ->
  forall (pre post : list (option loc)) (p : process counters object),
    heap p = h ->
    for_count (length ls) (Z.of_nat (length pre))
      (fun i _ => q <- elem (pre ++ (Some <$> ls) ++ post) i ;; call q putdata)
      tt p
    = match mapM line os with
      | Some ss => Ok (tt, set_cout (cout p ++ join ss) p)
      | None => Undefined
      end.
Proof.
  induction 1 as [|l o ls os Hl Hpt IH]; intros pre post p Hp.
  - simpl. unfold ret. rewrite append_nil_r, set_cout_cout. reflexivity.
  - rewrite fmap_cons. cbn [length for_count]. simpl mapM.
    change ((Some l :: (Some <$> ls)) ++ post)%list
      with (Some l :: ((Some <$> ls) ++ post))%list.
    unfold bind at 1. rewrite (bind_run _ _ _ l p (elem_middle _ _ _ _)).
    rewrite (call_putdata l o p) by (rewrite Hp; exact Hl).
    destruct (line o) as [s|]; [|reflexivity].
    rewrite (cons_middle (Some l) pre), app_assoc.
    replace (Z.of_nat (length pre) + 1) with (Z.of_nat (length (pre ++ [Some l])))
      by (rewrite length_app; simpl; lia).
    rewrite (IH (pre ++ [Some l])%list post (set_cout (cout p ++ s) p) Hp).
    destruct (mapM line os) as [ss|]; [|reflexivity].
    simpl. rewrite set_cout_twice, append_assoc. reflexivity.
Qed.

(** The objects left when those at [ls] are deleted, one after the other. *)
Lemma lookup_delete_all (ls : list loc) (h : gmap loc object) (l : loc) :
  foldl (fun h l => delete l h) h ls !! l
  = if decide (l ∈ ls) then None else h !! l.
Proof.
  revert h. induction ls as [|x ls IH]; intros h; simpl.
  - destruct (decide (l ∈ [])) as [H|_]; [inversion H | reflexivity].
  - rewrite IH.
    destruct (decide (l ∈ ls)) as [Hin|Hnin].
    + destruct (decide (l ∈ x :: ls)) as [_|H]; [reflexivity|].
      exfalso. apply H. apply elem_of_cons. auto.
    + destruct (decide (l = x)) as [->|Hne].
      * rewrite lookup_delete_eq.
        destruct (decide (x ∈ x :: ls)) as [_|H]; [reflexivity|].
        exfalso. apply H. apply elem_of_cons. auto.
      * rewrite lookup_delete_ne by congruence.
        destruct (decide (l ∈ x :: ls)) as [H|_]; [|reflexivity].
        apply elem_of_cons in H as [H|H]; contradiction.
Qed.

(** The clean-up loop over distinct pointers to live objects. *)
Lemma cleanup_loop (ls : list loc) :
  forall (pre post : list (option loc)) (p : process counters object),
    NoDup ls ->
    (forall l, l ∈ ls -> is_Some (heap p !! l)) ->
    for_count (length ls) (Z.of_nat (length pre))
      (fun i _ => q <- elem (pre ++ (Some <$> ls) ++ post) i ;; delete_obj q)
      tt p
    = Ok (tt, set_heap (foldl (fun h l => delete l h) (heap p) ls) p).
Proof.
  induction ls as [|l ls IH]; intros pre post p Hnd Hlive.
  - simpl. unfold ret. destruct p; reflexivity.
  - apply NoDup_cons in Hnd as [Hnin Hnd].
    rewrite fmap_cons. cbn [length for_count].
    change ((Some l :: (Some <$> ls)) ++ post)%list
      with (Some l :: ((Some <$> ls) ++ post))%list.
    destruct (Hlive l ltac:(apply elem_of_cons; auto)) as [o Ho].
    unfold bind at 1. rewrite (bind_run _ _ _ l p (elem_middle _ _ _ _)).
    unfold delete_obj at 1. rewrite Ho.
    rewrite (cons_middle (Some l) pre), app_assoc.
    replace (Z.of_nat (length pre) + 1) with (Z.of_nat (length (pre ++ [Some l])))
      by (rewrite length_app; simpl; lia).
    rewrite (IH (pre ++ [Some l])%list post _ Hnd).
    + reflexivity.
    + intros y Hy. simpl.
      rewrite lookup_delete_ne by (intros ->; contradiction).
      apply Hlive. apply elem_of_cons. auto.
Qed.

(** [main] in its four phases. *)
Lemma main_phases (p final : process counters object) (code : Z) :
  main p = Ok (code, final) ->
  exists n ist people p1 p2,
    get_int (cin p) None = (Some n, ist)
    /\ 0 <= n
    /\ entries n (replicate (Z.to_nat n) None)
         (set_cin ist (set_cout (cout p ++ "Enter number of records: ") p))
       = Ok (people, p1)
    /\ records n people (set_cout (cout p1 ++ nl ++ "--- Records ---" ++ nl) p1)
       = Ok (tt, p2)
    /\ cleanup n people p2 = Ok (tt, final)
    /\ code = 0.
Proof.
  unfold main. intros H.
  apply bind_Ok in H as (u & q0 & H0 & H). injection H0 as <- <-.
  apply bind_Ok in H as (n' & q1 & H1 & H).
  unfold cin_int in H1. simpl cin in H1.
  destruct (get_int (cin p) None) as [on ist] eqn:Hg. injection H1 as <- <-.
  apply bind_Ok in H as (n & q2 & H2 & H).
  destruct on as [n0|]; [|discriminate]. injection H2 as <- <-.
  apply bind_Ok in H as (people0 & q & Ha & H). unfold array in Ha.
  destruct (Z.leb_spec 0 n0) as [Hpos|_]; [|discriminate]. injection Ha as <- <-.
  apply bind_Ok in H as (people & p1 & He & H).
  apply bind_Ok in H as (u1 & q3 & H3 & H). injection H3 as <- <-.
  apply bind_Ok in H as ([] & p2 & Hr & H).
  apply bind_Ok in H as ([] & p3 & Hc & H). injection H as <- <-.
  exists n0, ist, people, p1, p2. auto 10.
Qed.

(** [main] once the count [n] is read and the entry loop has run: the
    array holds [n] distinct pointers, to objects [os] that are all the
    objects there are, and the rest of [main] prints the heading and the
    lines of [os], deletes the objects and returns 0. *)
Lemma main_after_entries (p p1 : process counters object) (n : Z)
    (ist : istream) (people : list (option loc)) :
  statics p = {| doctor_count := 0; patient_count := 0 |} ->
  heap p = ∅ ->
  get_int (cin p) None = (Some n, ist) ->
  0 <= n ->
  entries n (replicate (Z.to_nat n) None)
    (set_cin ist (set_cout (cout p ++ "Enter number of records: ") p))
  = Ok (people, p1) ->
  exists ls os,
    people = Some <$> ls
    /\ length ls = Z.to_nat n
    /\ NoDup ls
    /\ point_to (heap p1) ls os
    /\ (forall l, l ∉ ls -> heap p1 !! l = None)
    /\ doctor_ids os = upto (length (doctor_ids os))
    /\ patient_ids os = upto (length (patient_ids os))
    /\ main p = match mapM line os with
                | Some ss =>
                    Ok (0, set_heap ∅
                             (set_cout (cout p1 ++ records_heading ++ join ss) p1))
                | None => Undefined
                end.
Proof.
  intros Hs Hh Hg Hpos He.
  pose proof (get_int_range _ _ _ Hg) as Hn.
  pose proof He as Hr. unfold entries, for_range in Hr. rewrite Z.sub_0_r in Hr.
  apply entries_rounds in Hr
      as (ls & os & Hlen & _ & Hpe & Hpt & Hnd & Hfresh & Hframe & _ & Hd & Hp);
    [|exact Hs|unfold INT_MAX in *; lia].
  rewrite drop_ge, app_nil_r in Hpe by (rewrite length_replicate; lia).
  exists ls, os. split; [exact Hpe|]. split; [exact Hlen|].
  split; [exact Hnd|]. split; [exact Hpt|].
  assert (Hnone : forall l, l ∉ ls -> heap p1 !! l = None).
  { intros l Hl. rewrite (Hframe l Hl). simpl. rewrite Hh. apply lookup_empty. }
  split; [exact Hnone|]. split; [exact Hd|]. split; [exact Hp|].
  unfold main.
  rewrite (bind_run _ _ _ tt (set_cout (cout p ++ "Enter number of records: ") p)
             eq_refl).
  rewrite (bind_run _ _ _ (Some n)
             (set_cin ist (set_cout (cout p ++ "Enter number of records: ") p))).
  2:{ unfold cin_int. simpl cin. rewrite Hg. reflexivity. }
  rewrite (bind_run _ _ _ n _ eq_refl).
  rewrite (bind_run _ _ _ (replicate (Z.to_nat n) None)
             (set_cin ist (set_cout (cout p ++ "Enter number of records: ") p))).
  2:{ unfold array. destruct (Z.leb_spec 0 n); [reflexivity | lia]. }
  rewrite (bind_run _ _ _ _ _ He).
  rewrite (bind_run _ _ _ tt (set_cout (cout p1 ++ records_heading) p1) eq_refl).
  unfold records, cleanup, for_range. rewrite Z.sub_0_r, <- Hlen, Hpe.
  pose proof (records_loop (heap p1) ls os Hpt [] []
                (set_cout (cout p1 ++ records_heading) p1) eq_refl) as Hrec.
  rewrite app_nil_r in Hrec. simpl length in Hrec.
  change (Z.of_nat 0) with 0 in Hrec. simpl app in Hrec.
  unfold bind at 1. rewrite Hrec.
  destruct (mapM line os) as [ss|]; [|reflexivity].
  pose proof (cleanup_loop ls [] []
                (set_cout (cout (set_cout (cout p1 ++ records_heading) p1) ++ join ss)
                   (set_cout (cout p1 ++ records_heading) p1)) Hnd) as Hcl.
  rewrite app_nil_r in Hcl. simpl length in Hcl.
  change (Z.of_nat 0) with 0 in Hcl. simpl app in Hcl.
  unfold bind at 1. rewrite Hcl.
  2:{ intros l Hl. simpl. apply list_elem_of_lookup in Hl as [j Hj].
      destruct (Forall2_lookup_l _ _ _ _ _ Hpt Hj) as (o & _ & Ho). eauto. }
  unfold ret. f_equal. f_equal.
  rewrite set_cout_twice. simpl. unfold set_heap, set_cout. simpl.
  f_equal.
  - apply map_eq. intros l. rewrite lookup_delete_all, lookup_empty.
    destruct (decide (l ∈ ls)) as [_|Hl]; [reflexivity | exact (Hnone l Hl)].
  - rewrite append_assoc. reflexivity.
Qed.

(** ** Sessions: the program on well-typed input *)

(** One round of the entry loop on the answers [a]. *)
Lemma entry_typed (a : answers) (i : Z) (people : list (option loc))
    (p : process counters object) (more : string) :
  well_typed a = true ->
  (Z.to_nat i < length people)%nat ->
  0 <= doctor_count (statics p) < INT_MAX ->
  0 <= patient_count (statics p) < INT_MAX ->
  cin p = reading (nl ++ typed a ++ more) ->
  exists l p',
    entry i people p = Ok (<[Z.to_nat i := Some l]> people, p')
    /\ heap p !! l = None
    /\ heap p' = <[l := record_of (statics p) a]> (heap p)
    /\ statics p' = count_after (statics p) a
    /\ cin p' = reading (nl ++ more)
    /\ cout p' = cout p ++ prompts a.
Proof.
  intros Hwt Hi Hdc Hpc Hcin.
  assert (Hc : get_int (cin p) None
               = (Some (choice_of a),
                  reading (nl ++ match a with
                                 | doctor_answers nm ag sp =>
                                     nm ++ nl ++ put_int ag ++ nl ++ put_int sp ++ nl ++ more
                                 | patient_answers _ nm ag dt =>
                                     nm ++ nl ++ put_int ag ++ nl ++ dt ++ nl ++ more
                                 end))).
  { rewrite Hcin. destruct a as [nm ag sp|c nm ag dt]; unfold typed;
      rewrite !append_assoc; apply StreamFacts.get_int_line.
    - reflexivity.
    - unfold well_typed in Hwt. rewrite !andb_true_iff in Hwt. tauto. }
  destruct (entry_run i people p _ _ Hc Hi) as (o & q' & Hg & He).
  exists (fresh (dom (heap p))).
  exists (set_heap (<[fresh (dom (heap p)) := o]> (heap p)) q').
  split; [exact He|]. split; [apply fresh_loc_free|].
  revert Hg. unfold getdata, constructed, counted.
  destruct a as [nm ag sp|c nm ag dt]; unfold choice_of;
    unfold well_typed in Hwt; rewrite !andb_true_iff in Hwt.
  - destruct Hwt as [[Hnm Hag] Hsp].
    change (1 =? 1) with true. cbv iota.
    unfold bind at 1. rewrite Doctor_getdata_run. simpl cin.
    rewrite (StreamFacts.get_word_line nm _ _ Hnm). simpl snd.
    rewrite (StreamFacts.get_int_line ag _ _ Hag). simpl snd.
    rewrite (StreamFacts.get_int_line sp _ _ Hsp). simpl snd. simpl fst.
    unfold ret. intros Hg. injection Hg as <- <-. simpl.
    rewrite wrap_int_small by (unfold INT_MIN, INT_MAX in *; lia).
    repeat split. unfold prompts. rewrite !append_assoc. reflexivity.
  - destruct Hwt as [[[[_ Hc1] Hnm] Hag] Hdt].
    apply negb_true_iff in Hc1. rewrite Hc1.
    unfold bind at 1. rewrite Patient_getdata_run. simpl cin.
    rewrite (StreamFacts.get_word_line nm _ _ Hnm). simpl snd.
    rewrite (StreamFacts.get_int_line ag _ _ Hag). simpl snd.
    rewrite (StreamFacts.get_word_line dt _ _ Hdt). simpl snd. simpl fst.
    unfold ret. intros Hg. injection Hg as <- <-. simpl.
    rewrite wrap_int_small by (unfold INT_MIN, INT_MAX in *; lia).
    repeat split. unfold prompts. rewrite !append_assoc. reflexivity.
Qed.

(** The entry loop on the answers [es], from index [i]. *)
Lemma entries_typed (es : list answers) :
  forall (i : Z) (people : list (option loc)) (p : process counters object)
         (rest : string),
    forallb well_typed es = true ->
    0 <= i ->
    (Z.to_nat i + length es <= length people)%nat ->
    0 <= doctor_count (statics p) ->
    0 <= patient_count (statics p) ->
    doctor_count (statics p) + Z.of_nat (length es) <= INT_MAX ->
    patient_count (statics p) + Z.of_nat (length es) <= INT_MAX ->
    cin p = reading (nl ++ join (map typed es) ++ rest) ->
    exists people' p' ls,
      for_count (length es) i entry people p = Ok (people', p')
      /\ point_to (heap p') ls (made (statics p) es)
      /\ people' = (take (Z.to_nat i) people ++ (Some <$> ls)
                    ++ drop (Z.to_nat i + length es) people)%list
      /\ (forall l o, heap p !! l = Some o -> heap p' !! l = Some o)
      /\ statics p' = counts_after (statics p) es
      /\ cin p' = reading (nl ++ rest)
      /\ cout p' = cout p ++ join (map prompts es).
Proof.
  induction es as [|a es IH];
    intros i people p rest Hwt Hi Hlen Hdc Hpc Hdm Hpm Hcin.
  - exists people, p, []. split; [reflexivity|]. split; [constructor|].
    split; [simpl; rewrite Nat.add_0_r, take_drop; reflexivity|].
    split; [auto|]. split; [reflexivity|]. split; [exact Hcin|].
    simpl. rewrite append_nil_r. reflexivity.
  - simpl in Hwt. apply andb_prop in Hwt as [Ha Hes].
    simpl length in *.
    assert (Hcin1 : cin p = reading (nl ++ typed a ++ join (map typed es) ++ rest)).
    { rewrite Hcin. simpl map. unfold join. simpl foldr.
      rewrite append_assoc. reflexivity. }
    destruct (entry_typed a i people p _ Ha ltac:(lia)
                ltac:(unfold INT_MAX in *; lia)
                ltac:(unfold INT_MAX in *; lia) Hcin1)
      as (l & p1 & He & Hl & Hh1 & Hs1 & Hc1 & Ho1).
    assert (Hbounds : 0 <= doctor_count (statics p1)
                      /\ 0 <= patient_count (statics p1)
                      /\ doctor_count (statics p1) + Z.of_nat (length es) <= INT_MAX
                      /\ patient_count (statics p1) + Z.of_nat (length es) <= INT_MAX).
    { rewrite Hs1. destruct a; simpl; lia. }
    destruct Hbounds as (B1 & B2 & B3 & B4).
    destruct (IH (i + 1) (<[Z.to_nat i := Some l]> people) p1 rest Hes
                ltac:(lia) ltac:(rewrite length_insert; lia) B1 B2 B3 B4 Hc1)
      as (people' & p' & ls & Hfor & Hpt & Hpe & Hfr & Hst & Hcin' & Hcout').
    exists people', p', (l :: ls).
    split.
    { simpl for_count. unfold bind. rewrite He. exact Hfor. }
    split.
    { simpl made. constructor.
      - apply Hfr. rewrite Hh1. apply lookup_insert_eq.
      - rewrite Hs1 in Hpt. exact Hpt. }
    split.
    { rewrite Hpe.
      replace (Z.to_nat (i + 1)) with (S (Z.to_nat i)) by lia.
      rewrite (take_S_r _ _ (Some l))
        by (apply list_lookup_insert_eq; lia).
      rewrite take_insert_ge by lia.
      rewrite drop_insert_lt by lia.
      rewrite fmap_cons, <- app_assoc. simpl.
      replace (S (Z.to_nat i + length es)) with (Z.to_nat i + S (length es))%nat
        by lia.
      reflexivity. }
    split.
    { intros x y Hx. apply Hfr. rewrite Hh1.
      rewrite lookup_insert_ne; [exact Hx | congruence]. }
    split; [rewrite Hst, Hs1; reflexivity|].
    split; [exact Hcin'|].
    rewrite Hcout', Ho1. simpl map. unfold join. simpl foldr.
    rewrite append_assoc. reflexivity.
Qed.

Lemma lines_of_made (s : counters) (es : list answers) :
  mapM line (made s es) = Some (omap line (made s es)).
Proof.
  revert s. induction es as [|a es IH]; intros s; [reflexivity|].
  simpl made. simpl mapM. simpl omap.
  destruct a; simpl line; rewrite IH; reflexivity.
Qed.

Lemma point_to_functional (h : gmap loc object) (ls : list loc)
    (os os' : list object) :
  point_to h ls os -> point_to h ls os' -> os = os'.
Proof.
  intros H. revert os'. induction H as [|l o ls os Hl H IH]; intros os' H'.
  - inversion H'. reflexivity.
  - inversion H' as [|? o' ? os'' Hl' H'']; subst.
    f_equal; [congruence | exact (IH _ H'')].
Qed.

(** C8.  When [main] of the hospital program returns, it returns 0; it
    has then read the count [n] first, run the entry loop, which created
    and populated exactly [n] objects, printed the heading and the lines
    of these objects in the order of their creation, read no input after
    the entry loop, and deleted the objects.  On the input of a session
    -- a count that an [int] can hold, 0 included, followed by that many
    well-typed records -- [main] does return, with the transcript of the
    session as its output.  When the count is read as 0, as it is for a
    count that is not a number, nothing is created: [main] prints the
    prompt and the heading and returns 0, the error notwithstanding. *)
Theorem hospital_main_runs_to_zero :
  (forall (inp : string) (code : Z) (final : process counters object),
      main (start inp) = Ok (code, final) ->
      code = 0
      /\ exists (n : Z) (ist : istream) (ls : list loc) (os : list object)
                (ss : list string) (p1 : process counters object),
          get_int (from_text inp) None = (Some n, ist)
          /\ 0 <= n
          /\ entries n (replicate (Z.to_nat n) None)
               (set_cin ist (set_cout "Enter number of records: " (start inp)))
             = Ok (Some <$> ls, p1)
          /\ length ls = Z.to_nat n
          /\ NoDup ls
          /\ point_to (heap p1) ls os
          /\ (forall l, l ∉ ls -> heap p1 !! l = None)
          /\ mapM line os = Some ss
          /\ final = set_heap ∅
                       (set_cout (cout p1 ++ records_heading ++ join ss) p1))
  /\ (forall (es : list answers) (rest : string),
         forallb well_typed es = true ->
         Z.of_nat (length es) <= INT_MAX ->
         main (start (session es ++ rest))
         = Ok (0, {| statics := counts_after zero es;
                     heap := ∅;
                     cin := reading (nl ++ rest);
                     cout := transcript es |}))
  /\ (forall (inp : string) (ist : istream),
         get_int (from_text inp) None = (Some 0, ist) ->
         main (start inp)
         = Ok (0, {| statics := zero;
                     heap := ∅;
                     cin := ist;
                     cout := "Enter number of records: " ++ records_heading |}))
  /\ (forall (ws rest : string) (x : ascii),
         all_space ws = true ->
         not_numeric x = true ->
         main (start (ws ++ String x rest))
         = Ok (0, {| statics := zero;
                     heap := ∅;
                     cin := failed_at x rest;
                     cout := "Enter number of records: " ++ records_heading |})).
Proof.
  assert (Hzero : forall (inp : string) (ist : istream),
             get_int (from_text inp) None = (Some 0, ist) ->
             main (start inp)
             = Ok (0, {| statics := zero;
                         heap := ∅;
                         cin := ist;
                         cout := "Enter number of records: " ++ records_heading |})).
  { intros inp ist Hg. unfold main.
    rewrite (bind_run _ _ _ tt
               (set_cout (cout (start inp) ++ "Enter number of records: ")
                  (start inp)) eq_refl).
    rewrite (bind_run _ _ _ (Some 0)
               (set_cin ist
                  (set_cout (cout (start inp) ++ "Enter number of records: ")
                     (start inp)))).
    2:{ unfold cin_int. simpl cin. rewrite Hg. reflexivity. }
    reflexivity. }
  split; [|split; [|split]].
  - intros inp code final H.
    pose proof (main_phases _ _ _ H)
      as (n & ist & people & p1 & p2 & Hg & Hpos & He & _ & _ & ->).
    split; [reflexivity|].
    destruct (main_after_entries (start inp) p1 n ist people eq_refl eq_refl Hg
                Hpos He)
      as (ls & os & -> & Hlen & Hnd & Hpt & Hnone & _ & _ & Hmain).
    rewrite Hmain in H.
    destruct (mapM line os) as [ss|] eqn:Hss; [|discriminate].
    injection H as <-.
    exists n, ist, ls, os, ss, p1.
    split; [exact Hg|]. split; [exact Hpos|]. split; [exact He|].
    split; [exact Hlen|].
    split; [exact Hnd|]. split; [exact Hpt|]. split; [exact Hnone|].
    split; [exact Hss | reflexivity].
  - intros es rest Hwt Hn.
    assert (Hpos : 0 <= Z.of_nat (length es)) by lia.
    set (n := Z.of_nat (length es)) in *.
    assert (Hg : get_int (cin (start (session es ++ rest))) None
                 = (Some n, reading (nl ++ join (map typed es) ++ rest))).
    { unfold start, session. simpl cin. fold n. rewrite !append_assoc.
      apply (StreamFacts.get_int_typed "" n (ascii_of_nat 10) _ None eq_refl);
        [|reflexivity].
      unfold is_int, INT_MIN. apply andb_true_intro.
      split; [apply Z.leb_le; lia | apply Z.leb_le; exact Hn]. }
    set (q0 := set_cin (reading (nl ++ join (map typed es) ++ rest))
                 (set_cout (cout (start (session es ++ rest))
                            ++ "Enter number of records: ")
                    (start (session es ++ rest)))).
    destruct (entries_typed es 0 (replicate (Z.to_nat n) None) q0 rest Hwt
                ltac:(lia)
                ltac:(rewrite length_replicate; unfold n; lia)
                ltac:(simpl; lia) ltac:(simpl; lia)
                ltac:(simpl; fold n; lia) ltac:(simpl; fold n; lia) eq_refl)
      as (people' & p1 & ls & Hfor & Hpt & Hpe & _ & Hst & Hcin & Hcout).
    assert (He : entries n (replicate (Z.to_nat n) None) q0 = Ok (people', p1)).
    { unfold entries, for_range. rewrite Z.sub_0_r.
      replace (Z.to_nat n) with (length es) by (unfold n; lia). 
      replace (Z.to_nat n) with (length es) in Hfor by (unfold n; lia).
      exact Hfor. }
    destruct (main_after_entries (start (session es ++ rest)) p1 n _ people'
                eq_refl eq_refl Hg Hpos He)
      as (ls0 & os0 & Hpe0 & _ & _ & Hpt0 & _ & _ & _ & Hmain).
    assert (Hls : ls0 = ls).
    { rewrite Hpe0 in Hpe. simpl in Hpe.
      rewrite drop_ge, app_nil_r in Hpe
        by (rewrite length_replicate; unfold n; lia).
      apply (inj (fmap Some)) in Hpe. exact Hpe. }
    subst ls0.
    rewrite (point_to_functional _ _ _ _ Hpt0 Hpt) in Hmain.
    rewrite Hmain, lines_of_made. f_equal. f_equal.
    destruct p1 as [st h ci co]. simpl in *. subst st ci co.
    unfold set_heap, set_cout, transcript. simpl.
    rewrite ?append_assoc. reflexivity.
  - exact Hzero.
  - intros ws rest x Hws Hx. apply Hzero.
    unfold not_numeric in Hx. rewrite !andb_true_iff, !negb_true_iff in Hx.
    destruct Hx as [[[Hd Hs] Hm] Hp].
    exact (FailedInput.get_int_malformed ws x rest None Hws Hd Hs Hm Hp).
Qed.

Lemma hospital_main_runs_to_zero_witness :
  let es := [doctor_answers "Asha" 34 7;
             patient_answers 2 "Bob" 50 "2024-01-01";
             patient_answers 0 "Cy" 61 "2024-01-02"] in
  let r := value_or (1, start "") (main (start (session es ++ ""))) in
  let blank := {| statics := zero; heap := ∅; cin := reading nl;
                  cout := "Enter number of records: " ++ records_heading |} in
  main (start (session es ++ "")) = Ok (0, snd r)
  /\ cout (snd r) = transcript es
  /\ heap (snd r) = ∅
  /\ fst r = 0
  /\ main (start (session [] ++ "")) = Ok (0, blank)
  /\ main (start ("0" ++ nl)) = Ok (0, blank)
  /\ main (start ("many" ++ nl))
     = Ok (0, {| statics := zero; heap := ∅;
                 cin := failed_at "m" ("any" ++ nl);
                 cout := "Enter number of records: " ++ records_heading |}).
Proof.
  intros es r blank.
  destruct hospital_main_runs_to_zero as (HA & HB & HC & HD).
  assert (Hrun : main (start (session es ++ ""))
                 = Ok (0, {| statics := counts_after zero es;
                             heap := ∅;
                             cin := reading (nl ++ "");
                             cout := transcript es |})).
  { apply HB; [reflexivity|]. vm_compute. discriminate. }
  assert (Hr : r = (0, {| statics := counts_after zero es;
                          heap := ∅;
                          cin := reading (nl ++ "");
                          cout := transcript es |})).
  { unfold r. rewrite Hrun. reflexivity. }
  rewrite Hr. simpl snd. simpl fst.
  split; [exact Hrun|]. split; [reflexivity|]. split; [reflexivity|].
  split; [exact (proj1 (HA (session es ++ "") 0 _ Hrun))|].
  split; [exact (HB [] "" eq_refl ltac:(vm_compute; discriminate))|].
  split; [exact (HC ("0" ++ nl) (reading nl) eq_refl)|].
  exact (HD "" ("any" ++ nl) "m"%char eq_refl eq_refl).
Defined.

(** The session of the witness, evaluated. *)
Example hospital_transcript :
  transcript [doctor_answers "Asha" 34 7;
              patient_answers 2 "Bob" 50 "2024-01-01";
              patient_answers 0 "Cy" 61 "2024-01-02"]
  = "Enter number of records: "
    ++ nl ++ "Enter 1 for Doctor, 2 for Patient: "
    ++ "Enter Doctor Name: Enter Age: Enter Specialist ID: "
    ++ nl ++ "Enter 1 for Doctor, 2 for Patient: "
    ++ "Enter Patient Name: Enter Age: Enter Admission Date: "
    ++ nl ++ "Enter 1 for Doctor, 2 for Patient: "
    ++ "Enter Patient Name: Enter Age: Enter Admission Date: "
    ++ nl ++ "--- Records ---" ++ nl
    ++ "Doctor -> Name: Asha, Age: 34, Specialist ID: 7, Doctor ID: 1" ++ nl
    ++ "Patient -> Name: Bob, Age: 50, Admission Date: 2024-01-01, Patient ID: 1" ++ nl
    ++ "Patient -> Name: Cy, Age: 61, Admission Date: 2024-01-02, Patient ID: 2" ++ nl.
Proof. vm_compute. reflexivity. Qed.

(** C6.  The first doctor constructed in a process gets the sequence
    number 1; populated from an input that supplies Asha, 34 and 7 it is
    the record [asha], and [putdata] then prints one line that contains
    "Asha", "34", "7" and, as the doctor id, "1". *)
Theorem first_doctor_is_presented :
  forall (rest out : string) (h : gmap loc object) (pc : Z),
    let p := {| statics := {| doctor_count := 0; patient_count := pc |};
                heap := h;
                cin := from_text ("Asha 34 7" ++ nl ++ rest);
                cout := out |} in
    exists (d0 : DoctorFields.t) (p0 p1 : process counters object),
      Doctor.Doctor p = Ok (d0, p0)
      /\ Doctor.getdata d0 p0 = Ok (asha, p1)
      /\ Doctor.putdata asha p1 = Ok (asha, set_cout (cout p1 ++ asha_line) p1)
      /\ DoctorFields.doctor_id asha = 1
      /\ occurs_in "Asha" asha_line = true
      /\ occurs_in "34" asha_line = true
      /\ occurs_in "7" asha_line = true
      /\ occurs_in "Doctor ID: 1" asha_line = true.
Proof.
  intros rest out h pc p.
  exists {| DoctorFields.person := {| Person.name := ""; Person.age := None |};
            DoctorFields.doctor_specialist := None;
            DoctorFields.doctor_id := 1 |},
    (set_statics {| doctor_count := 1; patient_count := pc |} p),
    (set_cin {| buf := nl ++ rest; eofbit := false; failbit := false |}
       (set_cout (out ++ "Enter Doctor Name: Enter Age: Enter Specialist ID: ")
          (set_statics {| doctor_count := 1; patient_count := pc |} p))).
  split; [reflexivity|].
  split; [rewrite Doctor_getdata_run; vm_compute; reflexivity|].
  split.
  - pose proof (putdata_line (DoctorObj asha)) as H.
    unfold putdata in H. simpl line in H.
    match goal with |- Doctor.putdata asha ?q = _ => specialize (H q) end.
    unfold bind, ret in H.
    destruct (Doctor.putdata asha _) as [[d q]|]; [|discriminate].
    injection H as -> ->. reflexivity.
  - vm_compute. repeat split; reflexivity.
Qed.

End HospitalFacts.

(** ** The transaction program *)

Module TransactionsFacts.
Import Stream Transactions TransactionsSpec.

Lemma displayInfo_text (o : object) (p : process unit object) :
  displayInfo o p = match text o with
                    | Some s => Ok (o, set_cout (cout p ++ s) p)
                    | None => Undefined
                    end.
Proof.
  destruct o as [[[[id|] dt] src [a|]]|[[[id|] dt] cat [a|]]];
    unfold displayInfo, text, IncomeTransaction.displayInfo,
      ExpenseTransaction.displayInfo;
    unfold_prog; simpl; try reflexivity;
    rewrite ?append_assoc; reflexivity.
Qed.

(** [recordTransaction] is always defined and touches neither the
    objects nor the class of its own object. *)
Lemma recordTransaction_defined (o : object) (p : process unit object) :
  exists o' p',
    recordTransaction o p = Ok (o', p') /\ heap p' = heap p.
Proof.
  destruct o as [t|t]; unfold recordTransaction,
    IncomeTransaction.recordTransaction, ExpenseTransaction.recordTransaction;
    unfold_prog; simpl; destruct_reads;
    eexists _, _; (split; [reflexivity|]); reflexivity.
Qed.

(** A call of [displayInfo] through a pointer to [o]. *)
Lemma call_displayInfo (l : loc) (o : object) (p : process unit object) :
  heap p !! l = Some o ->
  call l displayInfo p = match text o with
                         | Some s => Ok (tt, set_cout (cout p ++ s) p)
                         | None => Undefined
                         end.
Proof.
  intros Hl. pose proof (displayInfo_text o p) as Hd.
  destruct (text o) as [s|].
  - rewrite (call_run l displayInfo p o o _ Hl Hd) by (simpl; eauto).
    simpl. rewrite (insert_id _ _ _ Hl). reflexivity.
  - unfold call, deref, bind. rewrite Hl, Hd. reflexivity.
Qed.

(** The display pass over a registry pointing to [os]: the texts of the
    objects, in the order of the registry. *)
Lemma display_loop_on (h : gmap loc object) (ts : list loc) (os : list object) :
  Forall2 (fun l o => h !! l = Some o) ts os ->
  forall p : process unit object,
    heap p = h ->
    for_each ts (fun tr => call tr displayInfo) p
    = match mapM text os with
      | Some ss => Ok (tt, set_cout (cout p ++ join ss) p)
      | None => Undefined
      end.
Proof.
  induction 1 as [|l o ts os Hl Hpt IH]; intros p Hp.
  - simpl. unfold ret. rewrite append_nil_r, set_cout_cout. reflexivity.
  - simpl for_each. unfold bind at 1.
    rewrite (call_displayInfo l o p) by (rewrite Hp; exact Hl).
    simpl mapM. destruct (text o) as [s|]; [|reflexivity].
    rewrite (IH (set_cout (cout p ++ s) p) Hp).
    destruct (mapM text os) as [ss|]; [|reflexivity].
    simpl. rewrite set_cout_twice, append_assoc. reflexivity.
Qed.

Lemma display_loop (ts : list loc) (os : list object) (p : process unit object) :
  point_to (heap p) ts os ->
  for_each ts (fun tr => call tr displayInfo) p
  = match mapM text os with
    | Some ss => Ok (tt, set_cout (cout p ++ join ss) p)
    | None => Undefined
    end.
Proof. intros H. exact (display_loop_on (heap p) ts os H p eq_refl). Qed.

(** The object [recordTransaction] leaves depends on the input only. *)
Lemma recordTransaction_object (o : object) (p q : process unit object) :
  cin p = cin q ->
  exists o' p' q',
    recordTransaction o p = Ok (o', p')
    /\ recordTransaction o q = Ok (o', q').
Proof.
  intros Hc.
  destruct o as [t|t]; unfold recordTransaction,
    IncomeTransaction.recordTransaction, ExpenseTransaction.recordTransaction;
    unfold_prog; simpl; rewrite <- Hc; destruct_reads;
    eexists _, _, _; split; reflexivity.
Qed.

(** The display pass changes neither the objects nor the input. *)
Lemma display_loop_frame (ts : list loc) (p p' : process unit object) u :
  for_each ts (fun tr => call tr displayInfo) p = Ok (u, p') ->
  heap p' = heap p /\ cin p' = cin p /\ statics p' = statics p.
Proof.
  revert p. induction ts as [|l ts IH]; intros p H.
  - injection H as _ <-. auto.
  - simpl in H. apply bind_Ok in H as (u1 & p1 & H1 & H).
    apply call_Ok in H1 as (o & o' & q & Hl & Hd & _ & ->).
    rewrite displayInfo_text in Hd. destruct (text o) as [s|]; [|discriminate].
    injection Hd as <- <-.
    apply IH in H as (Hh & Hc & Hs). simpl in *.
    rewrite Hh, Hc, Hs. rewrite (insert_id _ _ _ Hl). auto.
Qed.

(** The [switch] statement, case by case. *)
Lemma dispatch_new (c : Z) (ts : list loc) (p : process unit object) :
  c = 1 \/ c = 2 ->
  let l := fresh (dom (heap p)) in
  let q := set_heap (<[l := constructed c]> (heap p)) p in
  exists o q',
    recordTransaction (constructed c) q = Ok (o, q')
    /\ heap q' = heap q
    /\ dispatch c ts p = Ok ((ts ++ [l])%list, set_heap (<[l := o]> (heap p)) q').
Proof.
  intros Hc l q.
  destruct (recordTransaction_defined (constructed c) q) as (o & q' & Hr & Hh).
  exists o, q'. split; [exact Hr|]. split; [exact Hh|].
  assert (Hq : heap q = <[l := constructed c]> (heap p)) by reflexivity.
  assert (Hcall : call l recordTransaction q
                  = Ok (tt, set_heap (<[l := o]> (heap p)) q')).
  { rewrite (call_run l recordTransaction q (constructed c) o q').
    - rewrite Hh, Hq, insert_insert_eq. reflexivity.
    - rewrite Hq. apply lookup_insert_eq.
    - exact Hr.
    - rewrite Hh, Hq, lookup_insert_eq. eauto. }
  unfold dispatch.
  destruct Hc as [-> | ->]; simpl;
    unfold IncomeTransaction.IncomeTransaction,
      ExpenseTransaction.ExpenseTransaction;
    rewrite (bind_run _ _ _ _ p eq_refl);
    rewrite (bind_run _ _ _ l q eq_refl);
    rewrite (bind_run _ _ _ _ _ Hcall); reflexivity.
Qed.

Lemma dispatch_display (ts : list loc) (os : list object) (p : process unit object) :
  point_to (heap p) ts os ->
  dispatch 3 ts p
  = match mapM text os with
    | Some ss => Ok (ts, set_cout (cout p ++ header ++ join ss) p)
    | None => Undefined
    end.
Proof.
  intros H. unfold dispatch. simpl.
  rewrite (bind_run _ _ _ tt (set_cout (cout p ++ header) p) eq_refl).
  unfold bind. rewrite (display_loop ts os (set_cout (cout p ++ header) p) H).
  destruct (mapM text os) as [ss|]; [|reflexivity].
  unfold ret. simpl. rewrite set_cout_twice, append_assoc. reflexivity.
Qed.

Lemma dispatch_exit (ts : list loc) (p : process unit object) :
  dispatch 4 ts p = Ok (ts, set_cout (cout p ++ "Exiting..." ++ nl) p).
Proof. reflexivity. Qed.

Lemma dispatch_invalid (c : Z) (ts : list loc) (p : process unit object) :
  c <> 1 -> c <> 2 -> c <> 3 -> c <> 4 ->
  dispatch c ts p
  = Ok (ts, set_cout (cout p ++ "Invalid choice! Try again." ++ nl) p).
Proof.
  intros H1 H2 H3 H4. unfold dispatch.
  destruct (Z.eqb_spec c 1); [contradiction|].
  destruct (Z.eqb_spec c 2); [contradiction|].
  destruct (Z.eqb_spec c 3); [contradiction|].
  destruct (Z.eqb_spec c 4); [contradiction|].
  reflexivity.
Qed.

(** One pass through the loop body, by what [cin >> choice] leaves in
    [choice]. *)
Lemma iteration_run (v : locals) (p : process unit object) :
  iteration v p
  = match get_int (cin p) (choice v) with
    | (Some c, ist) =>
        match dispatch c (transactions v)
                (set_cin ist (set_cout (cout p ++ menu) p)) with
        | Ok (ts', p') => Ok ({| transactions := ts'; choice := Some c |}, p')
        | Undefined => Undefined
        end
    | (None, _) => Undefined
    end.
Proof.
  unfold iteration.
  rewrite (bind_run _ _ _ tt (set_cout (cout p ++ menu) p) eq_refl).
  unfold bind at 1. unfold cin_int. simpl cin.
  destruct (get_int (cin p) (choice v)) as [[c|] ist]; [|reflexivity].
  unfold bind, use, ret.
  destruct (dispatch c _ _) as [[ts' p']|]; reflexivity.
Qed.

Lemma do_while_S (fuel : nat) (v : locals) (p : process unit object) :
  do_while (S fuel) v p
  = match iteration v p with
    | Ok (v', p') =>
        match choice v' with
        | Some c => if c =? 4 then Ok (Some v', p') else do_while fuel v' p'
        | None => Undefined
        end
    | Undefined => Undefined
    end.
Proof.
  simpl. unfold bind, use, ret.
  destruct (iteration v p) as [[v' p']|]; [|reflexivity].
  destruct (choice v') as [c|]; [|reflexivity].
  destruct (c =? 4); reflexivity.
Qed.

Lemma supplied_new (c : Z) (ist : istream) (q : process unit object) o q' :
  c = 1 \/ c = 2 ->
  cin q = ist ->
  recordTransaction (constructed c) q = Ok (o, q') ->
  supplied c ist = [o].
Proof.
  intros Hc Hq Hr. unfold supplied.
  replace ((c =? 1) || (c =? 2)) with true
    by (destruct Hc as [-> | ->]; reflexivity).
  destruct (recordTransaction_object (constructed c) q
              {| statics := tt; heap := ∅; cin := ist; cout := "" |} Hq)
    as (o1 & q1 & q2 & H1 & H2).
  rewrite H2. congruence.
Qed.

Lemma supplied_other (c : Z) (ist : istream) :
  c <> 1 -> c <> 2 -> supplied c ist = [].
Proof.
  intros H1 H2. unfold supplied.
  destruct (Z.eqb_spec c 1); [contradiction|].
  destruct (Z.eqb_spec c 2); [contradiction|]. reflexivity.
Qed.

(** What an iteration does to the registry and to the objects: a choice
    of 1 or 2 appends a pointer to a fresh object holding the supplied
    record and leaves the other objects alone; any other choice changes
    neither. *)
Lemma iteration_effect (v v' : locals) (p p' : process unit object) :
  iteration v p = Ok (v', p') ->
  exists c ist,
    get_int (cin p) (choice v) = (Some c, ist)
    /\ choice v' = Some c
    /\ (((c = 1 \/ c = 2)
         /\ exists l o,
              heap p !! l = None
              /\ transactions v' = (transactions v ++ [l])%list
              /\ heap p' = <[l := o]> (heap p)
              /\ supplied c ist = [o])
        \/ (c <> 1 /\ c <> 2
            /\ transactions v' = transactions v
            /\ heap p' = heap p
            /\ supplied c ist = [])).
Proof.
  rewrite iteration_run.
  destruct (get_int (cin p) (choice v)) as [[c|] ist] eqn:Hg; [|discriminate].
  set (q := set_cin ist (set_cout (cout p ++ menu) p)).
  intros H. exists c, ist. split; [reflexivity|].
  destruct (dispatch c (transactions v) q) as [[ts' p1]|] eqn:Hd; [|discriminate].
  injection H as <- <-. split; [reflexivity|]. simpl.
  destruct (Z.eq_dec c 1) as [H1|H1]; [|destruct (Z.eq_dec c 2) as [H2|H2]].
  1,2: left; (split; [auto|]);
    (destruct (dispatch_new c (transactions v) q ltac:(auto))
       as (o & q' & Hr & Hh & Hd'));
    rewrite Hd' in Hd; injection Hd as <- <-;
    exists (fresh (dom (heap p))), o;
    (split; [apply fresh_loc_free|]); (split; [reflexivity|]);
    (split; [reflexivity|]);
    eapply (supplied_new c ist _ o q'); [auto | | exact Hr]; reflexivity.
  right. split; [exact H1|]. split; [exact H2|].
  rewrite (supplied_other c ist H1 H2).
  destruct (Z.eq_dec c 3) as [->|H3]; [|destruct (Z.eq_dec c 4) as [->|H4]].
  - unfold dispatch in Hd. simpl in Hd.
    apply bind_Ok in Hd as (u & q1 & He & Hd). injection He as <- <-.
    apply bind_Ok in Hd as (u & q2 & Hf & Hd). injection Hd as <- <-.
    apply display_loop_frame in Hf as (Hh & _). auto.
  - rewrite dispatch_exit in Hd. injection Hd as <- <-. auto.
  - rewrite dispatch_invalid in Hd by assumption. injection Hd as <- <-. auto.
Qed.

(** C3.  In an iteration of the menu loop in which the choice read is
    none of 1, 2, 3 and 4, the message for an invalid choice is printed
    after the menu, the registry with its size and the objects are
    unchanged, nothing but the variable [choice] and the two streams
    changes, and the loop goes on with another iteration. *)
Theorem invalid_choice_changes_nothing :
  forall (v : locals) (p : process unit object) (c : Z) (ist : istream),
    get_int (cin p) (choice v) = (Some c, ist) ->
    c <> 1 -> c <> 2 -> c <> 3 -> c <> 4 ->
    exists (v' : locals) (p' : process unit object),
      iteration v p = Ok (v', p')
      /\ cout p' = cout p ++ menu ++ "Invalid choice! Try again." ++ nl
      /\ transactions v' = transactions v
      /\ length (transactions v') = length (transactions v)
      /\ heap p' = heap p
      /\ statics p' = statics p
      /\ choice v' = Some c
      /\ cin p' = ist
      /\ forall fuel : nat, do_while (S fuel) v p = do_while fuel v' p'.
Proof.
  intros v p c ist Hc H1 H2 H3 H4.
  assert (Hit : iteration v p
                = Ok ({| transactions := transactions v; choice := Some c |},
                      set_cout (cout p ++ menu ++ "Invalid choice! Try again." ++ nl)
                        (set_cin ist p))).
  { rewrite iteration_run, Hc, dispatch_invalid by assumption.
    simpl. rewrite append_assoc. reflexivity. }
  eexists _, _. split; [exact Hit|].
  do 7 (split; [reflexivity|]).
  intros fuel. rewrite do_while_S, Hit. simpl.
  destruct (Z.eqb_spec c 4); [contradiction | reflexivity].
Qed.

Lemma invalid_choice_changes_nothing_witness :
  exists (v' : locals) (p' : process unit object),
    iteration {| transactions := []; choice := None |} (start ("99" ++ nl))
    = Ok (v', p')
    /\ cout p' = menu ++ "Invalid choice! Try again." ++ nl
    /\ transactions v' = []
    /\ heap p' = ∅.
Proof.
  destruct (invalid_choice_changes_nothing
              {| transactions := []; choice := None |} (start ("99" ++ nl)) 99
              (snd (get_int (cin (start ("99" ++ nl))) None)))
    as (v' & p' & Hit & Hout & Hts & _ & Hh & _).
  - vm_compute. reflexivity.
  - discriminate.
  - discriminate.
  - discriminate.
  - discriminate.
  - exists v', p'. auto.
Defined.

(** ** Ownership of the registry *)

Lemma owns_start (inp : string) : owns initial (start inp).
Proof.
  split; [constructor|]. intros l. simpl. split.
  - intros H. inversion H.
  - rewrite lookup_empty. intros [x Hx]. discriminate.
Qed.

Lemma owns_iteration (v v' : locals) (p p' : process unit object) :
  owns v p -> iteration v p = Ok (v', p') -> owns v' p'.
Proof.
  intros [Hnd Hdom] H. unfold owns.
  apply iteration_effect in H
    as (c & ist & _ & _ & [(_ & l & o & Hl & -> & -> & _) | (_ & _ & -> & -> & _)]).
  - split.
    + apply NoDup_app. split; [exact Hnd|]. split; [|apply NoDup_singleton].
      intros x Hx Hx'. apply list_elem_of_singleton in Hx'. subst x.
      apply Hdom in Hx as [y Hy]. congruence.
    + intros x. rewrite elem_of_app, list_elem_of_singleton, Hdom.
      destruct (decide (x = l)) as [->|Hne].
      * rewrite lookup_insert_eq. split; eauto.
      * rewrite lookup_insert_ne by congruence. split; [|auto].
        intros [H|H]; [exact H | contradiction].
  - split; assumption.
Qed.

Lemma owns_do_while (fuel : nat) (v v' : locals) (p p' : process unit object) :
  owns v p -> do_while fuel v p = Ok (Some v', p') -> owns v' p'.
Proof.
  revert v p. induction fuel as [|fuel IH]; intros v p Ho H; [discriminate|].
  rewrite do_while_S in H.
  destruct (iteration v p) as [[v1 p1]|] eqn:Hit; [|discriminate].
  pose proof (owns_iteration _ _ _ _ Ho Hit) as Ho1.
  destruct (choice v1) as [c|]; [|discriminate].
  destruct (c =? 4).
  - injection H as <- <-. exact Ho1.
  - exact (IH _ _ Ho1 H).
Qed.

(** Deleting every entry of a registry that owns the objects leaves no
    object. *)
Lemma release_all (ts : list loc) (p : process unit object) :
  NoDup ts ->
  (forall l, l ∈ ts <-> is_Some (heap p !! l)) ->
  for_each ts delete_obj p = Ok (tt, set_heap ∅ p).
Proof.
  revert p. induction ts as [|l ts IH]; intros p Hnd Hdom.
  - simpl. unfold ret. f_equal. f_equal.
    assert (He : heap p = ∅).
    { apply map_empty. intros i. apply eq_None_not_Some. rewrite <- Hdom.
      intros H. inversion H. }
    destruct p as [st h ci co]. simpl in He. subst h. reflexivity.
  - apply NoDup_cons in Hnd as [Hnin Hnd].
    simpl. unfold bind, delete_obj.
    destruct (proj1 (Hdom l) ltac:(constructor)) as [x Hx]. rewrite Hx.
    rewrite IH; [reflexivity | exact Hnd |].
    intros y. simpl. split.
    + intros Hy. rewrite lookup_delete_ne by (intros ->; contradiction).
      apply Hdom. constructor. exact Hy.
    + intros Hy. destruct (decide (y = l)) as [->|Hne].
      * rewrite lookup_delete_eq in Hy. destruct Hy as [z Hz]. discriminate.
      * rewrite lookup_delete_ne in Hy by congruence.
        apply Hdom in Hy. apply elem_of_cons in Hy as [Hy|Hy];
          [contradiction | exact Hy].
Qed.

(** An extraction that leaves 4 in a variable that did not hold 4 before
    has read it: the stream has not failed. *)
Lemma get_int_reads_four (ist ist' : istream) (x : option Z) :
  get_int ist x = (Some 4, ist') -> x <> Some 4 -> failbit ist' = false.
Proof.
  unfold get_int. intros H Hx.
  destruct (good ist); [|injection H as -> _; contradiction].
  destruct (skipws (buf ist)) as [|a s] eqn:Hs;
    [injection H as -> _; contradiction|].
  destruct (take_sign (String a s)) as [neg s1].
  destruct (span isdigit s1) as [ds rest].
  destruct ds as [|d ds]; [discriminate|].
  destruct (_ <? INT_MIN); [discriminate|].
  destruct (INT_MAX <? _); [discriminate|].
  injection H as _ <-. reflexivity.
Qed.

(** The loop ends only in a state where [choice] is 4, read from the
    input in the last iteration. *)
Lemma do_while_exit (fuel : nat) (v v' : locals) (p p' : process unit object) :
  do_while fuel v p = Ok (Some v', p') ->
  choice v' = Some 4 /\ (choice v <> Some 4 -> failbit (cin p') = false).
Proof.
  revert v p. induction fuel as [|fuel IH]; intros v p H; [discriminate|].
  rewrite do_while_S in H.
  destruct (iteration v p) as [[v1 p1]|] eqn:Hit; [|discriminate].
  destruct (choice v1) as [c|] eqn:Hc1; [|discriminate].
  destruct (Z.eqb_spec c 4) as [->|Hne].
  - injection H as <- <-. split; [exact Hc1|]. intros Hv.
    rewrite iteration_run in Hit.
    destruct (get_int (cin p) (choice v)) as [[c|] ist] eqn:Hg; [|discriminate].
    destruct (dispatch c _ _) as [[ts' q]|] eqn:Hd; [|discriminate].
    injection Hit as <- <-. simpl in Hc1. injection Hc1 as ->.
    rewrite dispatch_exit in Hd. injection Hd as _ <-. simpl.
    exact (get_int_reads_four _ _ _ Hg Hv).
  - destruct (IH _ _ H) as [H4 Hf]. split; [exact H4|].
    intros _. apply Hf. rewrite Hc1. congruence.
Qed.

(** Once the loop has ended within some number of iterations, allowing
    more changes nothing. *)
Lemma do_while_more_fuel (fuel fuel' : nat) (v v' : locals)
    (p p' : process unit object) :
  do_while fuel v p = Ok (Some v', p') ->
  (fuel <= fuel')%nat ->
  do_while fuel' v p = Ok (Some v', p').
Proof.
  revert fuel' v p. induction fuel as [|fuel IH]; intros fuel' v p H Hle;
    [discriminate|].
  destruct fuel' as [|fuel']; [lia|].
  rewrite do_while_S in *.
  destruct (iteration v p) as [[v1 p1]|]; [|discriminate].
  destruct (choice v1) as [c|]; [|discriminate].
  destruct (c =? 4); [exact H|]. apply IH; [exact H | lia].
Qed.

(** ** Sessions: the program on well-typed input *)

Lemma isdigit_not_space (c : ascii) : isdigit c = true -> isspace c = false.
Proof.
  destruct c as [[|] [|] [|] [|] [|] [|] [|] [|]];
    intros H; try discriminate H; reflexivity.
Qed.

(** [cin >> x] reads an amount back as its value, after any white space
    and up to the newline that follows it. *)
Lemma get_double_typed (ws : string) (a : amount_text) (more : string)
    (x : option double) :
  all_space ws = true ->
  amount_ok a = true ->
  get_double (reading (ws ++ amount_typed a ++ nl ++ more)) x
  = (Some (amount_value a), reading (nl ++ more)).
Proof.
  intros Hws Ha. unfold amount_ok in Ha.
  destruct (whole a) as [|c w] eqn:Hwhole; [discriminate|].
  rewrite !andb_true_iff in Ha. destruct Ha as [[Hw Hf] Hfin].
  pose proof Hw as Hw'. simpl in Hw'. apply andb_prop in Hw' as [Hc _].
  unfold get_double. rewrite StreamFacts.good_reading, StreamFacts.buf_reading.
  rewrite (StreamFacts.skipws_all_space _ _ Hws).
  unfold amount_typed. rewrite Hwhole, !append_assoc, append_cons.
  simpl skipws. rewrite (isdigit_not_space c Hc).
  rewrite (StreamFacts.take_sign_digit c _ Hc).
  rewrite <- append_cons.
  change ("." ++ fraction a ++ nl ++ more)
    with (String "." (fraction a ++ String (ascii_of_nat 10) more)).
  rewrite (StreamFacts.span_all_digits (String c w) "." _ Hw eq_refl).
  cbv iota beta.
  rewrite (StreamFacts.span_all_digits (fraction a) (ascii_of_nat 10) more Hf eq_refl).
  rewrite append_cons. cbv iota beta.
  change (take_exponent (String (ascii_of_nat 10) more))
    with (Some 0, String (ascii_of_nat 10) more).
  cbv iota beta. rewrite <- append_cons.
  unfold amount_value in *. rewrite Hwhole in *.
  destruct (decimal_to_double false _ _); try discriminate Hfin; reflexivity.
Qed.

(** [recordTransaction] of the two classes in one step: the four
    extractions in a row, and the prompts. *)
Lemma Income_recordTransaction_run (t : IncomeFields.t) (p : process unit object) :
  IncomeTransaction.recordTransaction t p
  = let r1 := get_int (cin p) (Transaction.transaction_ID (IncomeFields.base t)) in
    let r2 := get_word (snd r1) (Transaction.date (IncomeFields.base t)) in
    let r3 := getline (ignore (snd r2)) (IncomeFields.source t) in
    let r4 := get_double (snd r3) (IncomeFields.amount t) in
    Ok ({| IncomeFields.base :=
             {| Transaction.transaction_ID := fst r1; Transaction.date := fst r2 |};
           IncomeFields.source := fst r3;
           IncomeFields.amount := fst r4 |},
        set_cin (snd r4)
          (set_cout (cout p ++ income_prompts) p)).
Proof.
  unfold IncomeTransaction.recordTransaction. unfold_prog. simpl.
  destruct (get_int (cin p) _) as [id i1]. simpl.
  destruct (get_word i1 _) as [dt i2]. simpl.
  destruct (getline (ignore i2) _) as [src i3]. simpl.
  destruct (get_double i3 _) as [am i4]. simpl.
  unfold set_cin, set_cout. simpl. rewrite !append_assoc. reflexivity.
Qed.

Lemma Expense_recordTransaction_run (t : ExpenseFields.t) (p : process unit object) :
  ExpenseTransaction.recordTransaction t p
  = let r1 := get_int (cin p) (Transaction.transaction_ID (ExpenseFields.base t)) in
    let r2 := get_word (snd r1) (Transaction.date (ExpenseFields.base t)) in
    let r3 := getline (ignore (snd r2)) (ExpenseFields.category t) in
    let r4 := get_double (snd r3) (ExpenseFields.amount t) in
    Ok ({| ExpenseFields.base :=
             {| Transaction.transaction_ID := fst r1; Transaction.date := fst r2 |};
           ExpenseFields.category := fst r3;
           ExpenseFields.amount := fst r4 |},
        set_cin (snd r4)
          (set_cout (cout p ++ expense_prompts) p)).
Proof.
  unfold ExpenseTransaction.recordTransaction. unfold_prog. simpl.
  destruct (get_int (cin p) _) as [id i1]. simpl.
  destruct (get_word i1 _) as [dt i2]. simpl.
  destruct (getline (ignore i2) _) as [src i3]. simpl.
  destruct (get_double i3 _) as [am i4]. simpl.
  unfold set_cin, set_cout. simpl. rewrite !append_assoc. reflexivity.
Qed.

Lemma texts_defined (recs : list object) :
  Forall (fun o => is_Some (text o)) recs ->
  mapM text recs = Some (omap text recs).
Proof.
  induction 1 as [|o recs [x Hx] _ IH]; [reflexivity|].
  simpl. rewrite Hx. simpl. rewrite IH. reflexivity.
Qed.

Lemma record_of_text (s : pass) :
  Forall (fun o => is_Some (text o)) (record_of s).
Proof. destruct s; simpl; repeat constructor; simpl; eauto. Qed.

(** One iteration of the menu loop on the pass [s], when [recs] are the
    records of the registry. *)
Lemma iteration_typed (s : pass) (v : locals) (p : process unit object)
    (ws more : string) (recs : list object) :
  all_space ws = true ->
  well_typed s = true ->
  cin p = reading (ws ++ typed s ++ more) ->
  point_to (heap p) (transactions v) recs ->
  Forall (fun o => is_Some (text o)) recs ->
  exists v' p',
    iteration v p = Ok (v', p')
    /\ choice v' = Some (choice_of s)
    /\ choice_of s <> 4
    /\ point_to (heap p') (transactions v') (recs ++ record_of s)
    /\ cin p' = reading (nl ++ more)
    /\ cout p' = cout p ++ menu ++ printed recs s.
Proof.
  intros Hws Hwt Hcin Hpt Htx.
  assert (Hint : is_int (choice_of s) = true /\ choice_of s <> 4).
  { destruct s; simpl in *; try (split; [reflexivity | discriminate]).
    rewrite !andb_true_iff, !negb_true_iff in Hwt.
    destruct Hwt as [[[[Hc _] _] _] H4]. split; [exact Hc|].
    apply Z.eqb_neq. exact H4. }
  destruct Hint as [Hint Hne4].
  assert (Hg : exists tail,
             typed s ++ more = put_int (choice_of s) ++ nl ++ tail
             /\ get_int (cin p) (choice v)
                = (Some (choice_of s), reading (nl ++ tail))).
  { assert (Ht : exists tail, typed s ++ more = put_int (choice_of s) ++ nl ++ tail).
    { destruct s; unfold typed, choice_of; rewrite !append_assoc; eauto. }
    destruct Ht as [tail Ht]. exists tail. split; [exact Ht|].
    rewrite Hcin, Ht.
    exact (StreamFacts.get_int_typed ws _ (ascii_of_nat 10) tail _ Hws Hint eq_refl). }
  destruct Hg as (tail & Ht & Hg).
  rewrite iteration_run, Hg.
  set (q := set_cin (reading (nl ++ tail)) (set_cout (cout p ++ menu) p)).
  destruct s as [id dt src am|id dt src am| |c].
  - (* a new income record *)
    unfold well_typed in Hwt. rewrite !andb_true_iff in Hwt.
    destruct Hwt as [[[Hid Hdt] Hsrc] Ham].
    unfold typed in Ht. rewrite !append_assoc in Ht.
    apply (inj (String.append (put_int 1))) in Ht.
    apply (inj (String.append nl)) in Ht. subst tail.
    destruct (dispatch_new 1 (transactions v) q (or_introl eq_refl))
      as (o & q' & Hr & _ & Hd).
    simpl choice_of. rewrite Hd.
    revert Hr. change (constructed 1) with
      (IncomeObj {| IncomeFields.base :=
                      {| Transaction.transaction_ID := Some 0; Transaction.date := "" |};
                    IncomeFields.source := "";
                    IncomeFields.amount := Some (S754_zero false) |}).
    unfold recordTransaction, bind. rewrite Income_recordTransaction_run.
    simpl cin.
    rewrite (StreamFacts.get_int_line id _ _ Hid). simpl snd.
    rewrite (StreamFacts.get_word_line dt _ _ Hdt). simpl snd.
    rewrite StreamFacts.ignore_newline.
    rewrite (StreamFacts.getline_typed src _ _ Hsrc). simpl snd.
    rewrite (get_double_typed "" am more _ eq_refl Ham). simpl snd. simpl fst.
    unfold ret. intros Hr. injection Hr as <- <-.
    eexists _, _. split; [reflexivity|]. simpl.
    split; [reflexivity|]. split; [discriminate|]. split.
    + apply Forall2_app.
      * eapply Forall2_impl; [exact Hpt|]. intros l' o' Hl'. simpl in Hl'.
        rewrite lookup_insert_ne; [exact Hl'|].
        intros <-. rewrite fresh_loc_free in Hl'. discriminate.
      * constructor; [apply lookup_insert_eq | constructor].
    + split; [reflexivity|]. rewrite !append_assoc. reflexivity.
  - (* a new expense record *)
    unfold well_typed in Hwt. rewrite !andb_true_iff in Hwt.
    destruct Hwt as [[[Hid Hdt] Hsrc] Ham].
    unfold typed in Ht. rewrite !append_assoc in Ht.
    apply (inj (String.append (put_int 2))) in Ht.
    apply (inj (String.append nl)) in Ht. subst tail.
    destruct (dispatch_new 2 (transactions v) q (or_intror eq_refl))
      as (o & q' & Hr & _ & Hd).
    simpl choice_of. rewrite Hd.
    revert Hr. change (constructed 2) with
      (ExpenseObj {| ExpenseFields.base :=
                       {| Transaction.transaction_ID := Some 0; Transaction.date := "" |};
                     ExpenseFields.category := "";
                     ExpenseFields.amount := Some (S754_zero false) |}).
    unfold recordTransaction, bind. rewrite Expense_recordTransaction_run.
    simpl cin.
    rewrite (StreamFacts.get_int_line id _ _ Hid). simpl snd.
    rewrite (StreamFacts.get_word_line dt _ _ Hdt). simpl snd.
    rewrite StreamFacts.ignore_newline.
    rewrite (StreamFacts.getline_typed src _ _ Hsrc). simpl snd.
    rewrite (get_double_typed "" am more _ eq_refl Ham). simpl snd. simpl fst.
    unfold ret. intros Hr. injection Hr as <- <-.
    eexists _, _. split; [reflexivity|]. simpl.
    split; [reflexivity|]. split; [discriminate|]. split.
    + apply Forall2_app.
      * eapply Forall2_impl; [exact Hpt|]. intros l' o' Hl'. simpl in Hl'.
        rewrite lookup_insert_ne; [exact Hl'|].
        intros <-. rewrite fresh_loc_free in Hl'. discriminate.
      * constructor; [apply lookup_insert_eq | constructor].
    + split; [reflexivity|]. rewrite !append_assoc. reflexivity.
  - (* the display *)
    unfold typed in Ht. rewrite !append_assoc in Ht.
    apply (inj (String.append (put_int 3))) in Ht.
    apply (inj (String.append nl)) in Ht. subst tail.
    simpl choice_of.
    rewrite (dispatch_display (transactions v) recs q Hpt).
    rewrite (texts_defined recs Htx).
    eexists _, _. split; [reflexivity|]. simpl.
    split; [reflexivity|]. split; [discriminate|].
    split; [rewrite app_nil_r; exact Hpt|].
    split; [reflexivity|]. rewrite !append_assoc. reflexivity.
  - (* a choice that is none of the four *)
    unfold typed in Ht. rewrite !append_assoc in Ht.
    apply (inj (String.append (put_int c))) in Ht.
    apply (inj (String.append nl)) in Ht. subst tail.
    unfold well_typed in Hwt. rewrite !andb_true_iff, !negb_true_iff in Hwt.
    destruct Hwt as [[[[_ H1] H2] H3] H4].
    apply Z.eqb_neq in H1, H2, H3, H4.
    simpl choice_of. rewrite (dispatch_invalid c _ q H1 H2 H3 H4).
    eexists _, _. split; [reflexivity|]. simpl.
    split; [reflexivity|]. split; [exact H4|].
    split; [rewrite app_nil_r; exact Hpt|].
    split; [reflexivity|]. rewrite !append_assoc. reflexivity.
Qed.

(** The menu loop on the passes [ss] followed by the choice 4: it ends
    in the iteration after the last pass, and not before. *)
Lemma do_while_typed (ss : list pass) :
  forall (v : locals) (p : process unit object) (ws rest : string)
         (recs : list object),
    all_space ws = true ->
    forallb well_typed ss = true ->
    cin p = reading (ws ++ session ss ++ rest) ->
    point_to (heap p) (transactions v) recs ->
    Forall (fun o => is_Some (text o)) recs ->
    (exists v' p',
        do_while (S (length ss)) v p = Ok (Some v', p')
        /\ cin p' = reading (nl ++ rest)
        /\ cout p' = cout p ++ outputs recs ss ++ menu ++ "Exiting..." ++ nl)
    /\ forall fuel, (fuel <= length ss)%nat ->
                    exists p', do_while fuel v p = Ok (None, p').
Proof.
  induction ss as [|s ss IH]; intros v p ws rest recs Hws Hwt Hcin Hpt Htx.
  - split.
    + assert (Hg : get_int (cin p) (choice v) = (Some 4, reading (nl ++ rest))).
      { rewrite Hcin. unfold session. simpl map. unfold join. simpl foldr.
        rewrite append_nil_l, !append_assoc.
        exact (StreamFacts.get_int_typed ws 4 (ascii_of_nat 10) rest _ Hws
                 eq_refl eq_refl). }
      eexists _, _. split.
      { rewrite do_while_S, iteration_run, Hg, dispatch_exit. reflexivity. }
      simpl. split; [reflexivity|]. rewrite !append_assoc. reflexivity.
    + intros fuel Hf. assert (fuel = 0%nat) as -> by (simpl in Hf; lia).
      exists p. reflexivity.
  - simpl in Hwt. apply andb_prop in Hwt as [Hs Hss].
    assert (Hcin1 : cin p = reading (ws ++ typed s ++ session ss ++ rest)).
    { rewrite Hcin. unfold session. simpl map. unfold join. simpl foldr.
      rewrite !append_assoc. reflexivity. }
    destruct (iteration_typed s v p ws _ recs Hws Hs Hcin1 Hpt Htx)
      as (v1 & p1 & Hit & Hc & Hne & Hpt1 & Hcin' & Hcout').
    assert (Htx1 : Forall (fun o => is_Some (text o)) (recs ++ record_of s)).
    { apply Forall_app. split; [exact Htx | apply record_of_text]. }
    destruct (IH v1 p1 nl rest _ eq_refl Hss Hcin' Hpt1 Htx1)
      as [(v' & p' & Hloop & Hcin2 & Hcout2) Hshort].
    assert (Hstep : forall fuel, do_while (S fuel) v p = do_while fuel v1 p1).
    { intros fuel. rewrite do_while_S, Hit, Hc.
      destruct (Z.eqb_spec (choice_of s) 4); [contradiction | reflexivity]. }
    split.
    + exists v', p'. split; [simpl length; rewrite Hstep; exact Hloop|].
      split; [exact Hcin2|].
      rewrite Hcout2, Hcout'. simpl outputs. rewrite !append_assoc. reflexivity.
    + intros fuel Hf. destruct fuel as [|fuel]; [exists p; reflexivity|].
      rewrite Hstep. apply Hshort. simpl in Hf. lia.
Qed.

(** [main] on a session: it returns 0 once the fuel covers the passes
    and the final choice, having printed the transcript and deleted all
    objects; with less fuel the loop is still running. *)
Lemma main_typed (ss : list pass) (rest : string) (fuel : nat) :
  forallb well_typed ss = true ->
  ((length ss < fuel)%nat ->
   main fuel (start (session ss ++ rest))
   = Ok (Some 0, {| statics := tt; heap := ∅;
                    cin := reading (nl ++ rest);
                    cout := transcript ss |}))
  /\ ((fuel <= length ss)%nat ->
      exists p', main fuel (start (session ss ++ rest)) = Ok (None, p')).
Proof.
  intros Hwt.
  destruct (do_while_typed ss initial (start (session ss ++ rest)) "" rest []
              eq_refl Hwt eq_refl ltac:(constructor) ltac:(constructor))
    as [(v' & p' & Hloop & Hcin & Hcout) Hshort].
  unfold main. fold initial. split.
  - intros Hlt. rewrite (bind_run _ _ _ (Some v') p').
    2:{ apply (do_while_more_fuel (S (length ss))); [exact Hloop | lia]. }
    destruct (owns_do_while _ _ _ _ _ (owns_start _) Hloop) as [Hnd Hdom].
    unfold bind. rewrite (release_all _ _ Hnd Hdom). unfold ret.
    f_equal. f_equal.
    destruct p' as [[] h ci co]. simpl in *. subst ci co.
    unfold set_heap, transcript. simpl. reflexivity.
  - intros Hge. destruct (Hshort fuel Hge) as [p1 Hp1].
    exists p1. unfold bind. rewrite Hp1. reflexivity.
Qed.

Lemma outputs_app (ss1 ss2 : list pass) :
  forall recs : list object,
    outputs recs (ss1 ++ ss2)
    = outputs recs ss1 ++ outputs (recs ++ supplied_by ss1) ss2.
Proof.
  induction ss1 as [|s ss1 IH]; intros recs.
  - simpl. rewrite app_nil_r, append_nil_l. reflexivity.
  - simpl. rewrite IH, !append_assoc, <- app_assoc. reflexivity.
Qed.

Lemma supplied_by_text (ss : list pass) :
  Forall (fun o => is_Some (text o)) (supplied_by ss).
Proof.
  induction ss as [|s ss IH]; [constructor|].
  simpl. apply Forall_app. split; [apply record_of_text | exact IH].
Qed.

(** C4.  The menu loop goes on after every iteration whose choice is not
    4 and ends after an iteration whose choice is 4; it ends in no other
    way, and then the 4 was read from an input stream that has not
    failed.  When [main] returns, it returns 0 and has deleted every
    object of the registry.  On a session of well-typed passes, none of
    which is the choice 4, followed by the choice 4, the loop is still
    running after as many iterations as there are passes, and [main]
    returns 0 after one more, with no object left. *)
Theorem loop_ends_only_on_exit_choice :
  forall (fuel : nat) (v v' : locals) (p p' : process unit object),
    (iteration v p = Ok (v', p') ->
     (choice v' <> Some 4 -> do_while (S fuel) v p = do_while fuel v' p')
     /\ (choice v' = Some 4 -> do_while (S fuel) v p = Ok (Some v', p')))
    /\ (do_while fuel v p = Ok (Some v', p') ->
        choice v' = Some 4
        /\ (choice v <> Some 4 -> failbit (cin p') = false)
        /\ forall fuel', (fuel <= fuel')%nat ->
                         do_while fuel' v p = Ok (Some v', p'))
    /\ (forall (inp : string) (code : Z) (final : process unit object),
           main fuel (start inp) = Ok (Some code, final) ->
           code = 0 /\ heap final = ∅)
    /\ forall (ss : list pass) (rest : string),
        forallb well_typed ss = true ->
        ((fuel <= length ss)%nat ->
         exists p1 : process unit object,
           do_while fuel initial (start (session ss ++ rest)) = Ok (None, p1)
           /\ main fuel (start (session ss ++ rest)) = Ok (None, p1))
        /\ ((length ss < fuel)%nat ->
            main fuel (start (session ss ++ rest))
            = Ok (Some 0, {| statics := tt; heap := ∅;
                             cin := reading (nl ++ rest);
                             cout := transcript ss |})).
Proof.
  intros fuel v v' p p'. split; [|split; [|split]].
  - intros Hit. rewrite do_while_S, Hit.
    pose proof Hit as He. apply iteration_effect in He as (c & _ & _ & Hc & _).
    rewrite Hc. split; intros H.
    + destruct (Z.eqb_spec c 4) as [->|_]; [contradiction | reflexivity].
    + injection H as ->. reflexivity.
  - intros H. destruct (do_while_exit _ _ _ _ _ H) as [H4 Hf].
    split; [exact H4|]. split; [exact Hf|].
    intros fuel' Hle. exact (do_while_more_fuel _ _ _ _ _ _ H Hle).
  - intros inp code final H. unfold main in H.
    apply bind_Ok in H as (r & p1 & Hloop & H).
    destruct r as [v1|]; [|discriminate].
    apply bind_Ok in H as (u & p2 & Hdel & H). injection H as <- <-.
    split; [reflexivity|].
    destruct (owns_do_while _ _ _ _ _ (owns_start inp) Hloop) as [Hnd Hdom].
    rewrite (release_all _ _ Hnd Hdom) in Hdel.
    injection Hdel as _ Heq. rewrite <- Heq. reflexivity.
  - intros ss rest Hwt. split.
    + intros Hle.
      destruct (do_while_typed ss initial (start (session ss ++ rest)) "" rest
                  [] eq_refl Hwt eq_refl ltac:(constructor) ltac:(constructor))
        as [_ Hshort].
      destruct (Hshort fuel Hle) as [p1 Hp1]. exists p1.
      split; [exact Hp1|]. unfold main, bind. fold initial.
      rewrite Hp1. reflexivity.
    + exact (proj1 (main_typed ss rest fuel Hwt)).
Qed.

Lemma loop_ends_only_on_exit_choice_witness :
  let inp := "1" ++ nl ++ "1 2024-01-01 Salary" ++ nl ++ "1000.0" ++ nl
             ++ "7" ++ nl ++ "4" ++ nl in
  let ss := [income_pass 1 "2024-01-01" "Salary"
               {| whole := "1000"; fraction := "0" |};
             invalid_pass 7] in
  let r1 := value_or (initial, start "") (iteration initial (start inp)) in
  let r := value_or (None, start "") (do_while 3 initial (start inp)) in
  do_while 3 initial (start inp) = do_while 2 (fst r1) (snd r1)
  /\ (exists v', fst r = Some v' /\ choice v' = Some 4)
  /\ failbit (cin (snd r)) = false
  /\ (exists final : process unit object,
         main 3 (start inp) = Ok (Some 0, final) /\ heap final = ∅)
  /\ (exists p1 : process unit object,
         main 2 (start (session ss ++ "")) = Ok (None, p1))
  /\ main 3 (start (session ss ++ ""))
     = Ok (Some 0, {| statics := tt; heap := ∅;
                      cin := reading (nl ++ "");
                      cout := transcript ss |}).
Proof.
  intros inp ss r1 r.
  set (vf := value_or initial (match fst r with Some x => Ok x | None => Undefined end)).
  set (rm := value_or (None, start "") (main 3 (start inp))).
  assert (H1 : iteration initial (start inp) = Ok (fst r1, snd r1))
    by (vm_compute; reflexivity).
  assert (H2 : do_while 3 initial (start inp) = Ok (Some vf, snd r))
    by (vm_compute; reflexivity).
  assert (H3 : main 3 (start inp) = Ok (Some 0, snd rm))
    by (vm_compute; reflexivity).
  assert (Hwt : forallb well_typed ss = true) by (vm_compute; reflexivity).
  destruct (loop_ends_only_on_exit_choice 2 initial (fst r1)
              (start inp) (snd r1)) as (Ha & _ & _ & Hs2).
  destruct (loop_ends_only_on_exit_choice 3 initial vf
              (start inp) (snd r)) as (_ & Hb & Hc & Hs3).
  split.
  { apply (Ha H1). vm_compute. discriminate. }
  destruct (Hb H2) as (H4 & Hf & _).
  split.
  { exists vf. split; [vm_compute; reflexivity | exact H4]. }
  split.
  { apply Hf. vm_compute. discriminate. }
  split.
  { exists (snd rm). split; [exact H3|].
    exact (proj2 (Hc inp 0 (snd rm) H3)). }
  split.
  { destruct (proj1 (Hs2 ss "" Hwt) (le_n 2)) as (p1 & _ & Hm).
    exists p1. exact Hm. }
  apply (proj2 (Hs3 ss "" Hwt)). vm_compute. reflexivity.
Defined.

(** ** The registry and the display pass *)

(** At the head of every iteration the registry points, in order, to the
    records supplied so far, each as it was supplied, and owns them. *)
Lemma reaches_registry (hist : list object) (v : locals) (p : process unit object) :
  reaches hist v p ->
  point_to (heap p) (transactions v) hist /\ owns v p.
Proof.
  induction 1 as [inp | hist v v' p p' c ist Hr [Hpt Ho] Hg Hc Hit].
  - split; [constructor | apply owns_start].
  - split; [|exact (owns_iteration _ _ _ _ Ho Hit)].
    apply iteration_effect in Hit as (c' & ist' & Hg' & _ & Hcase).
    rewrite Hg in Hg'. injection Hg' as <- <-.
    destruct Hcase as [(_ & l & o & Hl & -> & -> & ->) | (_ & _ & -> & -> & ->)].
    + apply Forall2_app.
      * eapply Forall2_impl; [exact Hpt|]. intros l' o' Hl'. simpl in Hl'.
        rewrite lookup_insert_ne; [exact Hl'|]. congruence.
      * constructor; [apply lookup_insert_eq | constructor].
    + rewrite app_nil_r. exact Hpt.
Qed.

Lemma supplied_kind (c : Z) (ist : istream) :
  (c = 1 -> exists i, supplied c ist = [IncomeObj i])
  /\ (c = 2 -> exists e, supplied c ist = [ExpenseObj e]).
Proof.
  split; intros ->; unfold supplied, constructed, recordTransaction,
    IncomeTransaction.recordTransaction, ExpenseTransaction.recordTransaction;
    unfold_prog; simpl; destruct_reads; eexists; reflexivity.
Qed.

(** C2.  At any point of the menu loop, whatever was chosen before, a
    choice of 3 prints, after the menu and the heading, the texts of
    exactly the records supplied so far, in the order in which they were
    appended and with the field values they were populated with; the
    registry keeps them unchanged.  In particular, after a choice of 1
    and a choice of 2, a choice of 3 prints the income record and then
    the expense record, and nothing else.  On a session of well-typed
    passes, the program runs to its end, and a display pass prints the
    texts of the records of the passes before it, in their order; on
    the session income, expense, display, exit, these are the text of
    the income record and then the text of the expense record, with the
    values typed. *)
Theorem display_follows_insertion_order :
  (forall (hist : list object) (v : locals) (p : process unit object)
          (ist : istream),
      reaches hist v p ->
      get_int (cin p) (choice v) = (Some 3, ist) ->
      point_to (heap p) (transactions v) hist
      /\ iteration v p
         = match mapM text hist with
           | Some ss =>
               Ok ({| transactions := transactions v; choice := Some 3 |},
                   set_cout (cout p ++ menu ++ header ++ join ss)
                     (set_cin ist p))
           | None => Undefined
           end)
  /\ (forall (inp : string) (v1 v2 : locals) (p1 p2 : process unit object)
             (ist : istream),
         iteration initial (start inp) = Ok (v1, p1) ->
         choice v1 = Some 1 ->
         iteration v1 p1 = Ok (v2, p2) ->
         choice v2 = Some 2 ->
         get_int (cin p2) (choice v2) = (Some 3, ist) ->
         exists (i : IncomeFields.t) (e : ExpenseFields.t),
           reaches [IncomeObj i; ExpenseObj e] v2 p2
           /\ length (transactions v2) = 2%nat
           /\ iteration v2 p2
              = match text (IncomeObj i), text (ExpenseObj e) with
                | Some a, Some b =>
                    Ok ({| transactions := transactions v2; choice := Some 3 |},
                        set_cout (cout p2 ++ menu ++ header ++ a ++ b)
                          (set_cin ist p2))
                | _, _ => Undefined
                end)
  /\ (forall (before after : list pass) (rest : string),
         let ss := (before ++ display_pass :: after)%list in
         forallb well_typed ss = true ->
         exists ts : list string,
           Forall2 (fun o t => text o = Some t) (supplied_by before) ts
           /\ main (S (length ss)) (start (session ss ++ rest))
              = Ok (Some 0,
                    {| statics := tt; heap := ∅;
                       cin := reading (nl ++ rest);
                       cout := outputs [] before
                               ++ menu ++ header ++ join ts
                               ++ outputs (supplied_by before) after
                               ++ menu ++ "Exiting..." ++ nl |}))
  /\ (forall (id1 id2 : Z) (date1 date2 source category : string)
             (amount1 amount2 : amount_text) (rest : string),
         let ss := [income_pass id1 date1 source amount1;
                    expense_pass id2 date2 category amount2;
                    display_pass] in
         forallb well_typed ss = true ->
         main 4 (start (session ss ++ rest))
         = Ok (Some 0,
               {| statics := tt; heap := ∅;
                  cin := reading (nl ++ rest);
                  cout := menu ++ income_prompts
                          ++ menu ++ expense_prompts
                          ++ menu ++ header
                          ++ (nl ++ "[Income Transaction]" ++ nl
                              ++ "Transaction ID: " ++ put_int id1 ++ nl
                              ++ "Date: " ++ date1 ++ nl
                              ++ "Source: " ++ source ++ nl
                              ++ "Amount Received: "
                              ++ put_double (amount_value amount1) ++ nl)
                          ++ (nl ++ "[Expense Transaction]" ++ nl
                              ++ "Transaction ID: " ++ put_int id2 ++ nl
                              ++ "Date: " ++ date2 ++ nl
                              ++ "Category: " ++ category ++ nl
                              ++ "Amount Spent: "
                              ++ put_double (amount_value amount2) ++ nl)
                          ++ menu ++ "Exiting..." ++ nl |})).
Proof.
  assert (Hgen : forall hist v p ist,
             reaches hist v p ->
             get_int (cin p) (choice v) = (Some 3, ist) ->
             point_to (heap p) (transactions v) hist
             /\ iteration v p
                = match mapM text hist with
                  | Some ss =>
                      Ok ({| transactions := transactions v; choice := Some 3 |},
                          set_cout (cout p ++ menu ++ header ++ join ss)
                            (set_cin ist p))
                  | None => Undefined
                  end).
  { intros hist v p ist Hr Hg.
    destruct (reaches_registry _ _ _ Hr) as [Hpt _]. split; [exact Hpt|].
    rewrite iteration_run, Hg.
    rewrite (dispatch_display (transactions v) hist
               (set_cin ist (set_cout (cout p ++ menu) p)) Hpt).
    destruct (mapM text hist) as [ss|]; [|reflexivity].
    simpl. rewrite append_assoc. reflexivity. }
  split; [exact Hgen|].
  split; [|split].
  2:{ intros before after rest ss Hwt.
      exists (omap text (supplied_by before)). split.
      - pose proof (texts_defined _ (supplied_by_text before)) as Hm.
        apply mapM_Some in Hm. exact Hm.
      - rewrite (proj1 (main_typed ss rest (S (length ss)) Hwt)
                   (Nat.lt_succ_diag_r _)).
        do 3 f_equal. unfold transcript, ss.
        rewrite outputs_app. simpl outputs. simpl printed.
        rewrite app_nil_r, !append_assoc. reflexivity. }
  2:{ intros id1 id2 date1 date2 source category amount1 amount2 rest ss Hwt.
      rewrite (proj1 (main_typed ss rest 4 Hwt) (Nat.lt_succ_diag_r _)).
      do 3 f_equal. unfold transcript, ss. simpl outputs. simpl printed.
      unfold join. simpl foldr.
      rewrite ?append_assoc, ?append_nil_r, ?append_nil_l. reflexivity. }
  intros inp v1 v2 p1 p2 ist H1 Hc1 H2 Hc2 Hg.
  pose proof H1 as E1. apply iteration_effect in E1 as (c1 & ist1 & Hg1 & Hc1' & _).
  rewrite Hc1 in Hc1'. injection Hc1' as <-.
  pose proof H2 as E2. apply iteration_effect in E2 as (c2 & ist2 & Hg2 & Hc2' & _).
  rewrite Hc2 in Hc2'. injection Hc2' as <-.
  destruct (proj1 (supplied_kind 1 ist1) eq_refl) as [i Hi].
  destruct (proj2 (supplied_kind 2 ist2) eq_refl) as [e He].
  assert (Hr : reaches [IncomeObj i; ExpenseObj e] v2 p2).
  { change [IncomeObj i; ExpenseObj e]
      with (([] ++ [IncomeObj i]) ++ [ExpenseObj e])%list.
    rewrite <- Hi, <- He.
    eapply reaches_next; [|exact Hg2| discriminate |exact H2].
    eapply reaches_next; [apply reaches_start|exact Hg1| discriminate |exact H1]. }
  exists i, e. split; [exact Hr|].
  destruct (Hgen _ _ _ _ Hr Hg) as [Hpt Hit]. split.
  { apply Forall2_length in Hpt. exact Hpt. }
  rewrite Hit.
  destruct (text (IncomeObj i)) as [a|] eqn:Ha.
  - destruct (text (ExpenseObj e)) as [b|] eqn:Hb.
    + assert (Hm : mapM text [IncomeObj i; ExpenseObj e] = Some [a; b]).
      { apply mapM_Some. constructor; [exact Ha|]. constructor; [exact Hb|].
        constructor. }
      rewrite Hm. unfold join. simpl foldr. rewrite append_nil_r. reflexivity.
    + assert (Hm : mapM text [IncomeObj i; ExpenseObj e] = None).
      { apply mapM_None. apply Exists_cons_tl, Exists_cons_hd. exact Hb. }
      rewrite Hm. reflexivity.
  - assert (Hm : mapM text [IncomeObj i; ExpenseObj e] = None).
    { apply mapM_None. apply Exists_cons_hd. exact Ha. }
    rewrite Hm. reflexivity.
Qed.

Lemma display_follows_insertion_order_witness :
  let inp := "1" ++ nl ++ "1 2024-01-01 Salary" ++ nl ++ "1000.0" ++ nl
             ++ "2" ++ nl ++ "2 2024-01-02 Food" ++ nl ++ "250.5" ++ nl
             ++ "3" ++ nl ++ "4" ++ nl in
  let income := income_pass 1 "2024-01-01" "Salary"
                  {| whole := "1000"; fraction := "0" |} in
  let expense := expense_pass 2 "2024-01-02" "Food"
                   {| whole := "250"; fraction := "5" |} in
  let r1 := value_or (initial, start "") (iteration initial (start inp)) in
  let r2 := value_or (initial, start "") (iteration (fst r1) (snd r1)) in
  let ist := snd (get_int (cin (snd r2)) (choice (fst r2))) in
  (exists (hist : list object),
      point_to (heap (snd r2)) (transactions (fst r2)) hist
      /\ iteration (fst r2) (snd r2)
         = match mapM text hist with
           | Some ss =>
               Ok ({| transactions := transactions (fst r2); choice := Some 3 |},
                   set_cout (cout (snd r2) ++ menu ++ header ++ join ss)
                     (set_cin ist (snd r2)))
           | None => Undefined
           end)
  /\ (exists (i : IncomeFields.t) (e : ExpenseFields.t),
         reaches [IncomeObj i; ExpenseObj e] (fst r2) (snd r2)
         /\ length (transactions (fst r2)) = 2%nat)
  /\ (exists (ts : list string) (final : process unit object),
         Forall2 (fun o t => text o = Some t) (supplied_by [expense; income]) ts
         /\ main 5 (start (session [expense; income; display_pass; income] ++ ""))
            = Ok (Some 0, final))
  /\ exists final : process unit object,
      main 4 (start (session [income; expense; display_pass] ++ ""))
      = Ok (Some 0, final).
Proof.
  intros inp income expense r1 r2 ist.
  assert (H1 : iteration initial (start inp) = Ok (fst r1, snd r1))
    by (vm_compute; reflexivity).
  assert (H2 : iteration (fst r1) (snd r1) = Ok (fst r2, snd r2))
    by (vm_compute; reflexivity).
  assert (Hg : get_int (cin (snd r2)) (choice (fst r2)) = (Some 3, ist))
    by (vm_compute; reflexivity).
  destruct display_follows_insertion_order as (Hgen & Hpart & Hses & Hex).
  destruct (Hpart inp (fst r1) (fst r2) (snd r1) (snd r2) ist H1
              ltac:(vm_compute; reflexivity) H2
              ltac:(vm_compute; reflexivity) Hg)
    as (i & e & Hr & Hlen & _).
  split.
  { exists [IncomeObj i; ExpenseObj e]. exact (Hgen _ _ _ _ Hr Hg). }
  split.
  { exists i, e. split; [exact Hr | exact Hlen]. }
  split.
  { destruct (Hses [expense; income] [income] ""
                ltac:(vm_compute; reflexivity)) as (ts & Hts & Hm).
    exists ts. eexists. split; [exact Hts | exact Hm]. }
  eexists.
  exact (Hex 1 2 "2024-01-01" "2024-01-02" "Salary" "Food"
           {| whole := "1000"; fraction := "0" |}
           {| whole := "250"; fraction := "5" |} ""
           ltac:(vm_compute; reflexivity)).
Defined.

(** The run of the example, evaluated: what the third iteration prints. *)
Example display_of_income_then_expense :
  let inp := "1" ++ nl ++ "1 2024-01-01 Salary" ++ nl ++ "1000.0" ++ nl
             ++ "2" ++ nl ++ "2 2024-01-02 Food" ++ nl ++ "250.5" ++ nl
             ++ "3" ++ nl ++ "4" ++ nl in
  let r1 := value_or (initial, start "") (iteration initial (start inp)) in
  let r2 := value_or (initial, start "") (iteration (fst r1) (snd r1)) in
  let r3 := value_or (initial, start "") (iteration (fst r2) (snd r2)) in
  cout (snd r3)
  = cout (snd r2) ++ menu ++ header
    ++ nl ++ "[Income Transaction]" ++ nl
    ++ "Transaction ID: 1" ++ nl
    ++ "Date: 2024-01-01" ++ nl
    ++ "Source: Salary" ++ nl
    ++ "Amount Received: 1000" ++ nl
    ++ nl ++ "[Expense Transaction]" ++ nl
    ++ "Transaction ID: 2" ++ nl
    ++ "Date: 2024-01-02" ++ nl
    ++ "Category: Food" ++ nl
    ++ "Amount Spent: 250.5" ++ nl
  /\ fst (value_or (None, start "") (main 4 (start inp))) = Some 0.
Proof. vm_compute. split; reflexivity. Qed.

Lemma displayInfo_salary (p : process unit object) :
  IncomeTransaction.displayInfo salary p
  = Ok (salary, set_cout (cout p ++ salary_text) p).
Proof.
  pose proof (displayInfo_text (IncomeObj salary) p) as H.
  unfold displayInfo, bind, ret in H.
  destruct (IncomeTransaction.displayInfo salary p) as [[t q]|];
    [|discriminate].
  change (text (IncomeObj salary)) with (Some salary_text) in H.
  injection H as -> ->. reflexivity.
Qed.

(** C5, as the code has it.  [displayInfo] prints for the income record
    with ID 1, date 2024-01-01, source Salary and amount 1000.0 the label
    [[Income Transaction]] and then the four fields, one per line: the
    ID, the date and the source as supplied, and the amount in the
    general number format of the stream, that is as 1000.  The record is
    the one [recordTransaction] builds, in any object, from an input
    that supplies these four values. *)
Theorem income_record_is_presented :
  forall (rest : string) (p : process unit object) (t0 : IncomeFields.t),
    IncomeTransaction.displayInfo salary p
    = Ok (salary, set_cout (cout p ++ salary_text) p)
    /\ String.prefix (nl ++ "[Income Transaction]" ++ nl) salary_text = true
    /\ occurs_in ("Transaction ID: 1" ++ nl) salary_text = true
    /\ occurs_in ("Date: 2024-01-01" ++ nl) salary_text = true
    /\ occurs_in ("Source: Salary" ++ nl) salary_text = true
    /\ occurs_in ("Amount Received: 1000" ++ nl) salary_text = true
    /\ fst <$> (match IncomeTransaction.recordTransaction t0
                        (start ("1" ++ nl ++ "2024-01-01" ++ nl ++ "Salary" ++ nl
                                ++ "1000.0" ++ nl ++ rest)) with
                | Ok r => Some r
                | Undefined => None
                end) = Some salary.
Proof.
  intros rest p t0. split; [apply displayInfo_salary|].
  rewrite Income_recordTransaction_run.
  vm_compute. repeat split; reflexivity.
Qed.

(** C5, as the claim has it: the text 1000.0 is not in the output. *)
Lemma income_amount_not_verbatim :
  exists out : string,
    (forall p : process unit object,
        IncomeTransaction.displayInfo salary p
        = Ok (salary, set_cout (cout p ++ out) p))
    /\ occurs_in "1000.0" out = false.
Proof.
  exists salary_text. split; [exact displayInfo_salary|].
  vm_compute. reflexivity.
Qed.

End TransactionsFacts.

(** ** Presenting a record, in both programs *)

Module PresentFacts.
Import Stream.

(** C7.  [putdata] and [displayInfo] return the record they were called on
    unchanged and change the process only by appending a text to the
    output; the text is determined by the fields of the record, whatever
    the state of the process.  (When a number of the record is
    indeterminate the call is undefined, in every state.)  Called through
    a pointer they leave all objects, the counters and the input as they
    were.  A round of the entry loop and an iteration of the menu loop,
    which construct and populate one new object, leave every object that
    existed before as it was. *)
Theorem present_only_writes_output :
  (forall o : Hospital.object,
      (exists s : string,
          forall p, Hospital.putdata o p = Ok (o, set_cout (cout p ++ s) p))
      \/ (forall p, Hospital.putdata o p = Undefined))
  /\ (forall o : Transactions.object,
         (exists s : string,
             forall p, Transactions.displayInfo o p
                       = Ok (o, set_cout (cout p ++ s) p))
         \/ (forall p, Transactions.displayInfo o p = Undefined))
  /\ (forall (l : loc) (p p' : process Hospital.counters Hospital.object) u,
         call l Hospital.putdata p = Ok (u, p') ->
         exists s : string, p' = set_cout (cout p ++ s) p)
  /\ (forall (l : loc) (p p' : process unit Transactions.object) u,
         call l Transactions.displayInfo p = Ok (u, p') ->
         exists s : string, p' = set_cout (cout p ++ s) p)
  /\ (forall (i : Z) (people people' : list (option loc))
             (p p' : process Hospital.counters Hospital.object)
             (l : loc) (o : Hospital.object),
         Hospital.entry i people p = Ok (people', p') ->
         heap p !! l = Some o -> heap p' !! l = Some o)
  /\ (forall (v v' : Transactions.locals)
             (p p' : process unit Transactions.object)
             (l : loc) (o : Transactions.object),
         Transactions.iteration v p = Ok (v', p') ->
         heap p !! l = Some o -> heap p' !! l = Some o).
Proof.
  split; [|split; [|split; [|split; [|split]]]].
  - intros o. pose proof (HospitalFacts.putdata_line o) as H.
    destruct (HospitalSpec.line o) as [s|]; [left; exists s | right]; exact H.
  - intros o. pose proof (TransactionsFacts.displayInfo_text o) as H.
    destruct (TransactionsSpec.text o) as [s|]; [left; exists s | right]; exact H.
  - intros l p p' u H.
    apply call_Ok in H as (o & o' & q & Hl & Hp & _ & ->).
    rewrite HospitalFacts.putdata_line in Hp.
    destruct (HospitalSpec.line o) as [s|]; [|discriminate].
    injection Hp as <- <-. exists s. simpl.
    rewrite (insert_id _ _ _ Hl). destruct p; reflexivity.
  - intros l p p' u H.
    apply call_Ok in H as (o & o' & q & Hl & Hp & _ & ->).
    rewrite TransactionsFacts.displayInfo_text in Hp.
    destruct (TransactionsSpec.text o) as [s|]; [|discriminate].
    injection Hp as <- <-. exists s. simpl.
    rewrite (insert_id _ _ _ Hl). destruct p; reflexivity.
  - intros i people people' p p' l o H Hl.
    apply HospitalFacts.entry_effect in H
      as (c & l' & o' & _ & Hfree & _ & -> & _).
    rewrite lookup_insert_ne; [exact Hl | congruence].
  - intros v v' p p' l o H Hl.
    apply TransactionsFacts.iteration_effect in H
      as (c & ist & _ & _ & [(_ & l' & o' & Hfree & _ & -> & _) | (_ & _ & _ & -> & _)]).
    + rewrite lookup_insert_ne; [exact Hl | congruence].
    + exact Hl.
Qed.

Lemma present_only_writes_output_witness :
  let ph := set_heap {[ 1%positive := Hospital.DoctorObj HospitalSpec.asha ]}
              (Hospital.start ("2 Bob 50 2024-01-01" ++ nl)) in
  let pt := set_heap {[ 1%positive := Transactions.IncomeObj TransactionsSpec.salary ]}
              (Transactions.start ("2" ++ nl ++ "7 2024-01-02 Food" ++ nl
                                   ++ "250.5" ++ nl)) in
  (exists s, value_or (tt, ph) (call 1%positive Hospital.putdata ph)
             = (tt, set_cout (cout ph ++ s) ph))
  /\ (exists s, value_or (tt, pt) (call 1%positive Transactions.displayInfo pt)
                = (tt, set_cout (cout pt ++ s) pt))
  /\ heap (snd (value_or ([], ph) (Hospital.entry 0 [None] ph))) !! 1%positive
     = Some (Hospital.DoctorObj HospitalSpec.asha)
  /\ heap (snd (value_or (TransactionsSpec.initial, pt)
                  (Transactions.iteration
                     {| Transactions.transactions := [1%positive];
                        Transactions.choice := None |} pt))) !! 1%positive
     = Some (Transactions.IncomeObj TransactionsSpec.salary).
Proof.
  intros ph pt.
  destruct present_only_writes_output as (_ & _ & H3 & H4 & H5 & H6).
  set (r3 := value_or (tt, ph) (call 1%positive Hospital.putdata ph)).
  set (r4 := value_or (tt, pt) (call 1%positive Transactions.displayInfo pt)).
  set (r5 := value_or ([], ph) (Hospital.entry 0 [None] ph)).
  set (r6 := value_or (TransactionsSpec.initial, pt)
               (Transactions.iteration
                  {| Transactions.transactions := [1%positive];
                     Transactions.choice := None |} pt)).
  split; [|split; [|split]].
  - destruct (H3 1%positive ph (snd r3) tt) as [s Hs];
      [vm_compute; reflexivity|].
    exists s. rewrite <- Hs. vm_compute. reflexivity.
  - destruct (H4 1%positive pt (snd r4) tt) as [s Hs];
      [vm_compute; reflexivity|].
    exists s. rewrite <- Hs. vm_compute. reflexivity.
  - apply (H5 0 [None] (fst r5) ph (snd r5)); vm_compute; reflexivity.
  - apply (H6 {| Transactions.transactions := [1%positive];
                 Transactions.choice := None |} (fst r6) pt (snd r6));
      vm_compute; reflexivity.
Defined.

End PresentFacts.

(** * Further properties: input errors, and the library's patrons *)


(** ** The hospital program on other inputs *)

Module HospitalInputFacts.
Import Stream Hospital HospitalSpec InputErrors HospitalInput FailedInput.

(** X1.  [getdata] stores the three answers in the order in which they
    are typed -- the name, the age and the specialist id of a doctor or
    the admission date of a patient -- whatever white space (blanks or
    newlines) separates them, and keeps the sequence number of the
    object.  The name and the date are single words; what follows the
    last answer is left in the input. *)
Theorem getdata_stores_typed_answers :
  forall (p : process counters object)
         (ws0 ws1 ws2 more : string) (c1 c2 c3 : ascii)
         (nm : string) (ag : Z),
    all_space ws0 = true -> is_word nm = true ->
    isspace c1 = true -> all_space ws1 = true -> is_int ag = true ->
    isspace c2 = true -> all_space ws2 = true ->
    isspace c3 = true ->
    (forall (d : DoctorFields.t) (sp : Z),
        is_int sp = true ->
        cin p = reading (ws0 ++ nm ++ String c1 ws1 ++ put_int ag
                           ++ String c2 ws2 ++ put_int sp ++ String c3 more) ->
        Doctor.getdata d p
        = Ok (doctor nm (Some ag) (Some sp) (DoctorFields.doctor_id d),
              set_cin (reading (String c3 more))
                (set_cout (cout p ++ doctor_prompts) p)))
    /\ (forall (q : PatientFields.t) (dt : string),
           is_word dt = true ->
           cin p = reading (ws0 ++ nm ++ String c1 ws1 ++ put_int ag
                              ++ String c2 ws2 ++ dt ++ String c3 more) ->
           Patient.getdata q p
           = Ok (patient nm (Some ag) dt (PatientFields.patient_id q),
                 set_cin (reading (String c3 more))
                   (set_cout (cout p ++ patient_prompts) p))).
Proof.
  intros p ws0 ws1 ws2 more c1 c2 c3 nm ag Hws0 Hnm Hc1 Hws1 Hag Hc2 Hws2 Hc3.
  assert (Hd : forall c, isspace c = true -> isdigit c = false).
  { intros c H. destruct (isdigit c) eqn:E; [|reflexivity].
    rewrite (TransactionsFacts.isdigit_not_space c E) in H. discriminate. }
  split.
  - intros d sp Hsp Hcin. rewrite HospitalFacts.Doctor_getdata_run, Hcin.
    rewrite (append_cons c1 ws1).
    rewrite (StreamFacts.get_word_typed ws0 nm c1 _ _ Hws0 Hnm Hc1).
    cbv zeta. simpl snd. simpl fst.
    rewrite <- (append_cons c1 ws1), (append_cons c2 ws2).
    rewrite (StreamFacts.get_int_typed (String c1 ws1) ag c2 _ _);
      [|simpl; rewrite Hc1; exact Hws1 | exact Hag | exact (Hd c2 Hc2)].
    simpl snd. simpl fst. rewrite <- (append_cons c2 ws2).
    rewrite (StreamFacts.get_int_typed (String c2 ws2) sp c3 _ _);
      [|simpl; rewrite Hc2; exact Hws2 | exact Hsp | exact (Hd c3 Hc3)].
    reflexivity.
  - intros q dt Hdt Hcin. rewrite HospitalFacts.Patient_getdata_run, Hcin.
    rewrite (append_cons c1 ws1).
    rewrite (StreamFacts.get_word_typed ws0 nm c1 _ _ Hws0 Hnm Hc1).
    cbv zeta. simpl snd. simpl fst.
    rewrite <- (append_cons c1 ws1), (append_cons c2 ws2).
    rewrite (StreamFacts.get_int_typed (String c1 ws1) ag c2 _ _);
      [|simpl; rewrite Hc1; exact Hws1 | exact Hag | exact (Hd c2 Hc2)].
    simpl snd. simpl fst. rewrite <- (append_cons c2 ws2).
    rewrite (StreamFacts.get_word_typed (String c2 ws2) dt c3 _ _);
      [|simpl; rewrite Hc2; exact Hws2 | exact Hdt | exact Hc3].
    reflexivity.
Qed.

(** X2.  When the age typed is not a number (as when the name has a
    second word), [getdata] stores the name and the age 0, leaves the
    field after the age as it was, and the input has failed with
    nothing of the age field consumed.  [putdata] on a doctor whose
    specialist id was never stored is then undefined; on a patient it
    prints the age 0 and the former admission date. *)
Theorem getdata_with_malformed_age :
  forall (p : process counters object) (ws0 ws1 rest : string) (c1 x : ascii)
         (nm : string),
    all_space ws0 = true -> is_word nm = true ->
    isspace c1 = true -> all_space ws1 = true ->
    not_numeric x = true ->
    cin p = reading (ws0 ++ nm ++ String c1 ws1 ++ String x rest) ->
    (forall d : DoctorFields.t,
        let d' := doctor nm (Some 0) (DoctorFields.doctor_specialist d)
                    (DoctorFields.doctor_id d) in
        Doctor.getdata d p
        = Ok (d', set_cin (failed_at x rest)
                    (set_cout (cout p ++ doctor_prompts) p))
        /\ (DoctorFields.doctor_specialist d = None ->
            forall r, Doctor.putdata d' r = Undefined))
    /\ (forall q : PatientFields.t,
           let q' := patient nm (Some 0) (PatientFields.admission_date q)
                       (PatientFields.patient_id q) in
           Patient.getdata q p
           = Ok (q', set_cin (failed_at x rest)
                       (set_cout (cout p ++ patient_prompts) p))
           /\ forall r,
               Patient.putdata q' r
               = Ok (q', set_cout
                           (cout r ++ "Patient -> Name: " ++ nm ++ ", Age: 0"
                            ++ ", Admission Date: " ++ PatientFields.admission_date q
                            ++ ", Patient ID: "
                            ++ put_int (PatientFields.patient_id q) ++ nl) r)).
Proof.
  intros p ws0 ws1 rest c1 x nm Hws0 Hnm Hc1 Hws1 Hx Hcin.
  unfold not_numeric in Hx. rewrite !andb_true_iff, !negb_true_iff in Hx.
  destruct Hx as [[[Hd Hs] Hm] Hp]. split.
  - intros d d'. split.
    + rewrite HospitalFacts.Doctor_getdata_run, Hcin.
      rewrite (append_cons c1 ws1).
      rewrite (StreamFacts.get_word_typed ws0 nm c1 _ _ Hws0 Hnm Hc1).
      cbv zeta. simpl snd. simpl fst. rewrite <- (append_cons c1 ws1).
      rewrite (get_int_malformed (String c1 ws1) x rest _);
        [|simpl; rewrite Hc1; exact Hws1 | exact Hd | exact Hs | exact Hm | exact Hp].
      reflexivity.
    + intros Hsp r.
      pose proof (HospitalFacts.putdata_line (DoctorObj d') r) as H.
      assert (Hl : line (DoctorObj d') = None)
        by (unfold d'; simpl; rewrite Hsp; reflexivity).
      rewrite Hl in H. unfold putdata, bind in H.
      destruct (Doctor.putdata d' r) as [[a b]|]; [discriminate | reflexivity].
  - intros q q'. split.
    + rewrite HospitalFacts.Patient_getdata_run, Hcin.
      rewrite (append_cons c1 ws1).
      rewrite (StreamFacts.get_word_typed ws0 nm c1 _ _ Hws0 Hnm Hc1).
      cbv zeta. simpl snd. simpl fst. rewrite <- (append_cons c1 ws1).
      rewrite (get_int_malformed (String c1 ws1) x rest _);
        [|simpl; rewrite Hc1; exact Hws1 | exact Hd | exact Hs | exact Hm | exact Hp].
      reflexivity.
    + intros r.
      pose proof (HospitalFacts.putdata_line (PatientObj q') r) as H.
      change (line (PatientObj q'))
        with (Some ("Patient -> Name: " ++ nm ++ ", Age: " ++ put_int 0
                    ++ ", Admission Date: " ++ PatientFields.admission_date q
                    ++ ", Patient ID: "
                    ++ put_int (PatientFields.patient_id q) ++ nl)) in H.
      unfold putdata, bind, ret in H.
      destruct (Patient.putdata q' r) as [[a b]|]; [|discriminate].
      injection H as -> ->. reflexivity.
Qed.


Lemma getdata_stores_typed_answers_witness :
  let p := start ("Asha" ++ nl ++ "34   7" ++ nl) in
  Doctor.getdata (doctor "" None None 1) p
  = Ok (doctor "Asha" (Some 34) (Some 7) 1,
        set_cin (reading nl) (set_cout doctor_prompts p)).
Proof.
  intros p.
  exact (proj1 (getdata_stores_typed_answers p "" "" "  " "" (ascii_of_nat 10)
                  " " (ascii_of_nat 10) "Asha" 34
                  eq_refl eq_refl eq_refl eq_refl eq_refl eq_refl eq_refl eq_refl)
           (doctor "" None None 1) 7 eq_refl eq_refl).
Defined.

Lemma getdata_with_malformed_age_witness :
  let p := start ("Asha Rao 34 7" ++ nl) in
  Doctor.getdata (doctor "" None None 1) p
  = Ok (doctor "Asha" (Some 0) None 1,
        set_cin (failed_at "R" ("ao 34 7" ++ nl)) (set_cout doctor_prompts p))
  /\ Doctor.putdata (doctor "Asha" (Some 0) None 1) p = Undefined.
Proof.
  intros p.
  destruct (proj1 (getdata_with_malformed_age p "" "" ("ao 34 7" ++ nl) " " "R"
                     "Asha" eq_refl eq_refl eq_refl eq_refl eq_refl eq_refl)
              (doctor "" None None 1)) as [Hrun Hshow].
  split; [exact Hrun | exact (Hshow eq_refl p)].
Defined.

(** A round of the entry loop on failed input: [choice] is read before
    it has a value. *)
Lemma entry_failed (i : Z) (people : list (option loc))
    (p : process counters object) :
  good (cin p) = false -> entry i people p = Undefined.
Proof.
  intros Hg. unfold entry.
  rewrite (bind_run _ _ _ tt
             (set_cout (cout p ++ nl ++ "Enter 1 for Doctor, 2 for Patient: ") p)
             eq_refl).
  rewrite (bind_run _ _ _ None
             (set_cin (setfail (cin p))
                (set_cout (cout p ++ nl ++ "Enter 1 for Doctor, 2 for Patient: ") p))).
  2:{ unfold cin_int. simpl cin. rewrite (get_int_failed _ _ Hg). reflexivity. }
  reflexivity.
Qed.

(** [getdata] on failed input changes no field. *)
Lemma getdata_failed (o : object) (p : process counters object) :
  good (cin p) = false ->
  getdata o p
  = Ok (o, set_cin (setfail (cin p)) (set_cout (cout p ++ prompts_of o) p)).
Proof.
  intros Hg. destruct o as [d|q]; unfold getdata, bind.
  - rewrite HospitalFacts.Doctor_getdata_run.
    rewrite (get_word_failed _ _ Hg). cbv zeta. simpl snd. simpl fst.
    rewrite (get_int_failed _ _ (good_setfail _)). simpl snd. simpl fst.
    rewrite (get_int_failed _ _ (good_setfail _)). simpl snd. simpl fst.
    unfold ret. destruct d as [[nm ag] sp id]. reflexivity.
  - rewrite HospitalFacts.Patient_getdata_run.
    rewrite (get_word_failed _ _ Hg). cbv zeta. simpl snd. simpl fst.
    rewrite (get_int_failed _ _ (good_setfail _)). simpl snd. simpl fst.
    rewrite (get_word_failed _ _ (good_setfail _)). simpl snd. simpl fst.
    unfold ret. destruct q as [[nm ag] dt id]. reflexivity.
Qed.

(** X4.  Once the input has failed, [getdata] changes no field of its
    object and only prints its prompts, a round of the entry loop is
    undefined -- its [choice] is read without ever getting a value --
    and so is the entry loop with any positive count. *)
Theorem entry_loop_is_undefined_on_failed_input :
  forall (p : process counters object),
    good (cin p) = false ->
    (forall o : object,
        getdata o p
        = Ok (o, set_cin (setfail (cin p)) (set_cout (cout p ++ prompts_of o) p)))
    /\ (forall (i : Z) (people : list (option loc)),
           entry i people p = Undefined)
    /\ (forall (n : Z) (people : list (option loc)),
           0 < n -> entries n people p = Undefined).
Proof.
  intros p Hg. split; [|split].
  - intros o. exact (getdata_failed o p Hg).
  - intros i people. exact (entry_failed i people p Hg).
  - intros n people Hn. unfold entries, for_range. rewrite Z.sub_0_r.
    destruct (Z.to_nat n) as [|k] eqn:Hk; [lia|].
    simpl for_count. apply bind_Undefined. exact (entry_failed 0 people p Hg).
Qed.

Lemma entry_loop_is_undefined_on_failed_input_witness :
  let p := {| statics := zero; heap := ∅; cin := at_eof; cout := "" |} in
  entries 2 [None; None] p = Undefined.
Proof.
  intros p.
  exact (proj2 (proj2 (entry_loop_is_undefined_on_failed_input p eq_refl))
           2 [None; None] eq_refl).
Defined.

(** X6.  On an input with nothing but white space, the count is never
    assigned and [main] is undefined. *)
Theorem hospital_blank_input_is_undefined :
  forall inp : string,
    all_space inp = true -> main (start inp) = Undefined.
Proof.
  intros inp Hws. unfold main.
  rewrite (bind_run _ _ _ tt
             (set_cout (cout (start inp) ++ "Enter number of records: ") (start inp))
             eq_refl).
  rewrite (bind_run _ _ _ None
             (set_cin at_eof
                (set_cout (cout (start inp) ++ "Enter number of records: ")
                   (start inp)))).
  2:{ unfold cin_int. simpl cin. change (from_text inp) with (reading inp).
      rewrite (get_int_blank inp None Hws). reflexivity. }
  reflexivity.
Qed.

Lemma hospital_blank_input_is_undefined_witness :
  main (start "") = Undefined /\ main (start (nl ++ "  " ++ nl)) = Undefined.
Proof.
  split; apply hospital_blank_input_is_undefined; reflexivity.
Defined.

Lemma ids_partition (os : list object) :
  (length (doctor_ids os) + length (patient_ids os))%nat = length os.
Proof.
  induction os as [|[d|q] os IH]; [reflexivity| |].
  - change (doctor_ids (DoctorObj d :: os))
      with (DoctorFields.doctor_id d :: doctor_ids os).
    change (patient_ids (DoctorObj d :: os)) with (patient_ids os).
    simpl length. lia.
  - change (doctor_ids (PatientObj q :: os)) with (doctor_ids os).
    change (patient_ids (PatientObj q :: os))
      with (PatientFields.patient_id q :: patient_ids os).
    simpl length. lia.
Qed.

Lemma doctors_counted (os : list object) :
  length (doctor_ids os) = length (List.filter is_doctor os)
  /\ length (patient_ids os)
     = length (List.filter (fun o => negb (is_doctor o)) os).
Proof.
  induction os as [|[d|q] os [IHd IHp]]; [split; reflexivity| |].
  - change (doctor_ids (DoctorObj d :: os))
      with (DoctorFields.doctor_id d :: doctor_ids os).
    change (patient_ids (DoctorObj d :: os)) with (patient_ids os).
    simpl. rewrite IHd, IHp. split; reflexivity.
  - change (doctor_ids (PatientObj q :: os)) with (doctor_ids os).
    change (patient_ids (PatientObj q :: os))
      with (PatientFields.patient_id q :: patient_ids os).
    simpl. rewrite IHd, IHp. split; reflexivity.
Qed.

(** X7.  After the entry loop, started with both counters at 0, the
    array holds [n] distinct pointers, none of them live before, to the
    objects the loop created, and nothing else in the heap has changed;
    the counter of each class is the number of objects of that class
    among these [n] objects, and the two counters add up to [n]. *)
Theorem counters_count_the_records :
  forall (n : Z) (people people' : list (option loc))
         (p p' : process counters object),
    statics p = zero ->
    0 <= n <= INT_MAX ->
    entries n people p = Ok (people', p') ->
    exists (ls : list loc) (os : list object),
      people' = ((Some <$> ls) ++ drop (Z.to_nat n) people)%list
      /\ length ls = Z.to_nat n
      /\ NoDup ls
      /\ point_to (heap p') ls os
      /\ (forall l, l ∈ ls -> heap p !! l = None)
      /\ (forall l, l ∉ ls -> heap p' !! l = heap p !! l)
      /\ doctor_count (statics p')
         = Z.of_nat (length (List.filter is_doctor os))
      /\ patient_count (statics p')
         = Z.of_nat (length (List.filter (fun o => negb (is_doctor o)) os))
      /\ doctor_count (statics p') + patient_count (statics p') = n.
Proof.
  intros n people people' p p' Hs Hn H.
  unfold entries, for_range in H. rewrite Z.sub_0_r in H.
  destruct (HospitalFacts.entries_rounds (Z.to_nat n) people people' p p' Hs
              ltac:(lia) H)
    as (ls & os & Hlen & _ & Hpe & Hpt & Hnd & Hfresh & Hframe & Hst & _ & _).
  assert (Hlos : length os = Z.to_nat n).
  { rewrite <- Hlen. symmetry. eapply Forall2_length, Hpt. }
  destruct (doctors_counted os) as [Hd Hp].
  exists ls, os. split; [exact Hpe|]. split; [exact Hlen|].
  split; [exact Hnd|]. split; [exact Hpt|]. split; [exact Hfresh|].
  split; [exact Hframe|].
  rewrite Hst. simpl. rewrite <- Hd, <- Hp.
  split; [reflexivity|]. split; [reflexivity|].
  pose proof (ids_partition os). lia.
Qed.

Lemma counters_count_the_records_witness :
  let inp := "1 Asha 34 7" ++ nl ++ "2 Bob 50 2024-01-01" ++ nl
             ++ "2 Cy 61 2024-01-02" ++ nl in
  let r := value_or ([], start "") (entries 3 (replicate 3 None) (start inp)) in
  exists (ls : list loc) (os : list object),
    fst r = ((Some <$> ls) ++ drop (Z.to_nat 3) (replicate 3 None))%list
    /\ NoDup ls
    /\ point_to (heap (snd r)) ls os
    /\ doctor_count (statics (snd r))
       = Z.of_nat (length (List.filter is_doctor os))
    /\ patient_count (statics (snd r))
       = Z.of_nat (length (List.filter (fun o => negb (is_doctor o)) os))
    /\ doctor_count (statics (snd r)) + patient_count (statics (snd r)) = 3.
Proof.
  intros inp r.
  destruct (counters_count_the_records 3 (replicate 3 None) (fst r)
              (start inp) (snd r))
    as (ls & os & Hpe & _ & Hnd & Hpt & _ & _ & Hd & Hp & Hsum).
  - reflexivity.
  - split; [lia | vm_compute; discriminate].
  - vm_compute. reflexivity.
  - exists ls, os. auto 10.
Defined.

(** X3.  A choice that is not a number is read as 0: the round creates
    a patient, advancing the patient counter, but with the input failed
    [getdata] stores nothing, so the patient keeps an empty name, an
    empty date and an indeterminate age, and [putdata] on it is
    undefined. *)
Theorem malformed_choice_makes_unpopulated_patient :
  forall (i : Z) (people : list (option loc)) (p : process counters object)
         (ws rest : string) (x : ascii),
    all_space ws = true ->
    not_numeric x = true ->
    cin p = reading (ws ++ String x rest) ->
    (Z.to_nat i < length people)%nat ->
    let l := fresh (dom (heap p)) in
    let q := patient "" None "" (wrap_int (patient_count (statics p) + 1)) in
    exists p',
      entry i people p = Ok (<[Z.to_nat i := Some l]> people, p')
      /\ heap p' = <[l := PatientObj q]> (heap p)
      /\ statics p' = {| doctor_count := doctor_count (statics p);
                         patient_count := wrap_int (patient_count (statics p) + 1) |}
      /\ cin p' = failed_at x rest
      /\ cout p' = cout p ++ nl ++ "Enter 1 for Doctor, 2 for Patient: "
                     ++ patient_prompts
      /\ call l putdata p' = Undefined.
Proof.
  intros i people p ws rest x Hws Hx Hcin Hi l q.
  unfold not_numeric in Hx. rewrite !andb_true_iff, !negb_true_iff in Hx.
  destruct Hx as [[[Hd Hs] Hm] Hp].
  assert (Hc : get_int (cin p) None = (Some 0, failed_at x rest)).
  { rewrite Hcin. exact (get_int_malformed ws x rest None Hws Hd Hs Hm Hp). }
  destruct (HospitalFacts.entry_run i people p 0 _ Hc Hi) as (o & q' & Hg & He).
  rewrite getdata_failed in Hg by reflexivity. injection Hg as <- <-.
  eexists. split; [exact He|].
  simpl. split; [reflexivity|]. split; [reflexivity|]. split; [reflexivity|].
  split; [rewrite !append_assoc; reflexivity|].
  unfold call, bind, deref. simpl. rewrite lookup_insert_eq.
  reflexivity.
Qed.


Lemma malformed_choice_makes_unpopulated_patient_witness :
  let p := start ("doctor Asha 34 7" ++ nl) in
  exists p',
    entry 0 [None] p = Ok ([Some 1%positive], p')
    /\ heap p' = {[ 1%positive := PatientObj (patient "" None "" 1) ]}
    /\ call 1%positive putdata p' = Undefined.
Proof.
  intros p.
  destruct (malformed_choice_makes_unpopulated_patient 0 [None] p ""
              ("octor Asha 34 7" ++ nl) "d" eq_refl eq_refl eq_refl)
    as (p' & Hrun & Hh & _ & _ & _ & Hput).
  - simpl. lia.
  - exists p'. split; [exact Hrun|]. split; [exact Hh | exact Hput].
Defined.

Lemma for_count_app {St Obj T : Type} (a b : nat) :
  forall (i : Z) (body : Z -> T -> @prog St Obj T) (acc : T) (p : process St Obj),
    for_count (a + b) i body acc p
    = bind (for_count a i body acc)
           (fun acc' => for_count b (i + Z.of_nat a) body acc') p.
Proof.
  induction a as [|a IH]; intros i body acc p.
  - simpl. unfold bind, ret. rewrite Z.add_0_r. reflexivity.
  - change (for_count (S a + b) i body acc p)
      with (bind (body i acc) (fun x => for_count (a + b) (i + 1) body x) p).
    change (for_count (S a) i body acc)
      with (bind (body i acc) (fun x => for_count a (i + 1) body x)).
    unfold bind at 1 2 3.
    destruct (body i acc p) as [[x q]|]; [|reflexivity].
    rewrite IH. unfold bind.
    replace (i + 1 + Z.of_nat a) with (i + Z.of_nat (S a)) by lia.
    reflexivity.
Qed.

(** A round of the entry loop at the end of the input. *)
Lemma entry_blank (i : Z) (people : list (option loc))
    (p : process counters object) (ws : string) :
  all_space ws = true -> cin p = reading ws -> entry i people p = Undefined.
Proof.
  intros Hws Hcin. unfold entry.
  rewrite (bind_run _ _ _ tt
             (set_cout (cout p ++ nl ++ "Enter 1 for Doctor, 2 for Patient: ") p)
             eq_refl).
  rewrite (bind_run _ _ _ None
             (set_cin at_eof
                (set_cout (cout p ++ nl ++ "Enter 1 for Doctor, 2 for Patient: ") p))).
  2:{ unfold cin_int. simpl cin. rewrite Hcin, (get_int_blank ws None Hws).
      reflexivity. }
  reflexivity.
Qed.

(** X5.  When the count typed is larger than the number of records
    that follow it, [main] is undefined: the round after the last
    record reads its [choice] at the end of the input. *)
Theorem too_few_records_is_undefined :
  forall (n : Z) (es : list answers),
    forallb well_typed es = true ->
    Z.of_nat (length es) < n <= INT_MAX ->
    main (start (put_int n ++ nl ++ join (map typed es))) = Undefined.
Proof.
  intros n es Hwt [Hlt Hn].
  set (inp := put_int n ++ nl ++ join (map typed es)).
  assert (Hg : get_int (cin (start inp)) None
               = (Some n, reading (nl ++ join (map typed es) ++ ""))).
  { unfold start, inp. simpl cin. rewrite append_nil_r.
    apply (StreamFacts.get_int_typed "" n (ascii_of_nat 10) _ None eq_refl);
      [|reflexivity].
    unfold is_int, INT_MIN. apply andb_true_intro.
    split; [apply Z.leb_le; lia | apply Z.leb_le; exact Hn]. }
  set (q0 := set_cin (reading (nl ++ join (map typed es) ++ ""))
               (set_cout (cout (start inp) ++ "Enter number of records: ")
                  (start inp))).
  unfold main.
  rewrite (bind_run _ _ _ tt
             (set_cout (cout (start inp) ++ "Enter number of records: ") (start inp))
             eq_refl).
  rewrite (bind_run _ _ _ (Some n) q0).
  2:{ unfold cin_int. simpl cin. simpl cin in Hg. rewrite Hg. reflexivity. }
  rewrite (bind_run _ _ _ n _ eq_refl).
  rewrite (bind_run _ _ _ (replicate (Z.to_nat n) None) q0).
  2:{ unfold array. destruct (Z.leb_spec 0 n); [reflexivity | lia]. }
  apply bind_Undefined. unfold entries, for_range. rewrite Z.sub_0_r.
  replace (Z.to_nat n) with (length es + S (Z.to_nat n - S (length es)))%nat at 1
    by lia.
  rewrite for_count_app.
  destruct (HospitalFacts.entries_typed es 0 (replicate (Z.to_nat n) None) q0 ""
              Hwt ltac:(lia)
              ltac:(rewrite length_replicate; lia)
              ltac:(simpl; lia) ltac:(simpl; lia)
              ltac:(simpl; unfold INT_MAX in *; lia)
              ltac:(simpl; unfold INT_MAX in *; lia) eq_refl)
    as (people' & p1 & ls & Hfor & _ & _ & _ & _ & Hcin & _).
  rewrite (bind_run _ _ _ _ _ Hfor).
  simpl for_count. apply bind_Undefined.
  apply (entry_blank _ _ p1 (nl ++ "")); [reflexivity | exact Hcin].
Qed.

Lemma too_few_records_is_undefined_witness :
  main (start (put_int 3 ++ nl
               ++ join (map typed [doctor_answers "Asha" 34 7;
                                   patient_answers 2 "Bob" 50 "2024-01-01"])))
  = Undefined.
Proof.
  apply too_few_records_is_undefined; [reflexivity|].
  split; [reflexivity | vm_compute; discriminate].
Defined.

End HospitalInputFacts.

(** ** The transaction program on other inputs *)

Module TransactionsInputFacts.
Import Stream Transactions TransactionsSpec InputErrors TransactionsInput FailedInput.

Lemma populated_same (o : object) :
  populated o (id_of o) (date_of o) (line_of o) (amount_of o) = o.
Proof. destruct o as [[[id dt] src am]|[[id dt] cat am]]; reflexivity. Qed.

(** [recordTransaction] of either class: the four extractions in a row. *)
Lemma recordTransaction_run (o : object) (p : process unit object) :
  recordTransaction o p
  = let r1 := get_int (cin p) (id_of o) in
    let r2 := get_word (snd r1) (date_of o) in
    let r3 := getline (ignore (snd r2)) (line_of o) in
    let r4 := get_double (snd r3) (amount_of o) in
    Ok (populated o (fst r1) (fst r2) (fst r3) (fst r4),
        set_cin (snd r4) (set_cout (cout p ++ prompts o) p)).
Proof.
  destruct o as [t|t]; unfold recordTransaction, bind.
  - rewrite TransactionsFacts.Income_recordTransaction_run. reflexivity.
  - rewrite TransactionsFacts.Expense_recordTransaction_run. reflexivity.
Qed.

Lemma isspace_not_digit (c : ascii) : isspace c = true -> isdigit c = false.
Proof.
  intros H. destruct (isdigit c) eqn:Hd; [|reflexivity].
  rewrite (TransactionsFacts.isdigit_not_space c Hd) in H. discriminate.
Qed.

(** X8.  [recordTransaction] stores the four answers: the ID, the date
    (one word), as the source or category the rest of the line after
    the one white-space character that follows the date (it may contain
    blanks, and may be empty), and the amount.  It overwrites whatever
    the object held, and leaves the newline after the amount in the
    input. *)
Theorem recordTransaction_stores_typed_answers :
  forall (o : object) (p : process unit object)
         (ws0 ws1 ws2 more : string) (c1 c2 : ascii)
         (id : Z) (dt ln : string) (am : amount_text),
    all_space ws0 = true -> is_int id = true ->
    isspace c1 = true -> all_space ws1 = true -> is_word dt = true ->
    isspace c2 = true -> no_newline ln = true ->
    all_space ws2 = true -> amount_ok am = true ->
    cin p = reading (ws0 ++ put_int id ++ String c1 ws1 ++ dt
                       ++ String c2 ln ++ nl
                       ++ ws2 ++ amount_typed am ++ nl ++ more) ->
    recordTransaction o p
    = Ok (populated o (Some id) dt ln (Some (amount_value am)),
          set_cin (reading (nl ++ more)) (set_cout (cout p ++ prompts o) p)).
Proof.
  intros o p ws0 ws1 ws2 more c1 c2 id dt ln am
    Hws0 Hid Hc1 Hws1 Hdt Hc2 Hln Hws2 Ham Hcin.
  rewrite recordTransaction_run, Hcin. simpl cin.
  rewrite (append_cons c1 ws1).
  rewrite (StreamFacts.get_int_typed ws0 id c1 _ _ Hws0 Hid
             (isspace_not_digit c1 Hc1)).
  cbv zeta. simpl snd. simpl fst.
  rewrite <- (append_cons c1 ws1), (append_cons c2 ln).
  rewrite (StreamFacts.get_word_typed (String c1 ws1) dt c2 _ _);
    [|simpl; rewrite Hc1; exact Hws1 | exact Hdt | exact Hc2].
  simpl snd. simpl fst.
  change (ignore (reading (String c2 (ln ++ nl ++ ws2 ++ amount_typed am ++ nl ++ more))))
    with (reading (ln ++ nl ++ ws2 ++ amount_typed am ++ nl ++ more)).
  rewrite (StreamFacts.getline_typed ln _ _ Hln). simpl snd. simpl fst.
  rewrite (TransactionsFacts.get_double_typed ws2 am more _ Hws2 Ham).
  reflexivity.
Qed.

Lemma recordTransaction_stores_typed_answers_witness :
  let p := start ("1 2024-01-01 Monthly Salary" ++ nl ++ "1000.0" ++ nl) in
  recordTransaction (constructed 2) p
  = Ok (populated (constructed 2) (Some 1) "2024-01-01" "Monthly Salary"
          (Some (amount_value {| whole := "1000"; fraction := "0" |})),
        set_cin (reading (nl ++ ""))
          (set_cout (cout p ++ prompts (constructed 2)) p)).
Proof.
  intros p.
  exact (recordTransaction_stores_typed_answers (constructed 2) p "" "" "" ""
           " " " " 1 "2024-01-01" "Monthly Salary"
           {| whole := "1000"; fraction := "0" |}
           eq_refl eq_refl eq_refl eq_refl eq_refl eq_refl eq_refl eq_refl
           eq_refl eq_refl).
Defined.


Lemma recordTransaction_failed (o : object) (p : process unit object) :
  good (cin p) = false ->
  recordTransaction o p
  = Ok (o, set_cin (setfail (cin p)) (set_cout (cout p ++ prompts o) p)).
Proof.
  intros Hg. rewrite recordTransaction_run.
  rewrite (get_int_failed _ _ Hg). cbv zeta. simpl snd. simpl fst.
  rewrite (get_word_failed _ _ (good_setfail _)). simpl snd. simpl fst.
  rewrite (ignore_failed _ (good_setfail _)).
  rewrite (getline_failed _ _ (good_setfail _)). simpl snd. simpl fst.
  rewrite (get_double_failed _ _ (good_setfail _)). simpl snd. simpl fst.
  rewrite populated_same. reflexivity.
Qed.

(** X9.  Once the input has failed, [recordTransaction] changes no field
    of its object: it prints its prompts, consumes nothing, and the
    input stays failed. *)
Theorem recordTransaction_on_failed_input :
  forall (o : object) (p : process unit object),
    good (cin p) = false ->
    exists p',
      recordTransaction o p = Ok (o, p')
      /\ cout p' = cout p ++ prompts o
      /\ heap p' = heap p
      /\ buf (cin p') = buf (cin p)
      /\ good (cin p') = false.
Proof.
  intros o p Hg. eexists. split; [exact (recordTransaction_failed o p Hg)|].
  simpl. repeat split. apply andb_false_r.
Qed.

Lemma recordTransaction_on_failed_input_witness :
  let p := {| statics := tt; heap := ∅; cin := at_eof; cout := "" |} in
  exists p',
    recordTransaction (IncomeObj salary) p = Ok (IncomeObj salary, p')
    /\ cout p' = income_prompts.
Proof.
  intros p.
  destruct (recordTransaction_on_failed_input (IncomeObj salary) p eq_refl)
    as (p' & Hrun & Hout & _).
  exists p'. split; [exact Hrun | exact Hout].
Defined.

(** X10.  When the ID typed is not a number, [recordTransaction] stores
    the ID 0 and leaves the date, the source or category and the amount
    as they were; the input has failed with nothing of the field
    consumed.  A newly constructed object is thus left exactly as
    constructed, and [displayInfo] prints it with the ID 0, an empty
    date, an empty source or category and the amount 0. *)
Theorem malformed_id_leaves_record_unpopulated :
  forall (o : object) (p : process unit object) (ws rest : string) (c : ascii),
    all_space ws = true ->
    not_numeric c = true ->
    cin p = reading (ws ++ String c rest) ->
    let o' := populated o (Some 0) (date_of o) (line_of o) (amount_of o) in
    recordTransaction o p
    = Ok (o', set_cin (failed_at c rest) (set_cout (cout p ++ prompts o) p))
    /\ forall k : Z,
        o = constructed k ->
        o' = constructed k
        /\ forall q : process unit object,
            displayInfo o' q = Ok (o', set_cout (cout q ++ blank_text k) q).
Proof.
  intros o p ws rest c Hws Hc Hcin o'. unfold not_numeric in Hc.
  rewrite !andb_true_iff, !negb_true_iff in Hc.
  destruct Hc as [[[Hd Hs] Hm] Hp]. split.
  - rewrite recordTransaction_run, Hcin. simpl cin.
    rewrite (get_int_malformed ws c rest _ Hws Hd Hs Hm Hp).
    cbv zeta. simpl snd. simpl fst.
    reflexivity.
  - intros k ->. unfold o', constructed, blank_text.
    destruct (k =? 1); (split; [reflexivity|]); intros q;
      rewrite TransactionsFacts.displayInfo_text; reflexivity.
Qed.

Lemma malformed_id_leaves_record_unpopulated_witness :
  let p := start ("abc 2024-01-01 Salary" ++ nl ++ "1000.0" ++ nl) in
  exists p',
    recordTransaction (constructed 1) p = Ok (constructed 1, p')
    /\ failbit (cin p') = true
    /\ displayInfo (constructed 1) p'
       = Ok (constructed 1,
             set_cout (cout p' ++ nl ++ "[Income Transaction]" ++ nl
                       ++ "Transaction ID: 0" ++ nl
                       ++ "Date: " ++ nl
                       ++ "Source: " ++ nl
                       ++ "Amount Received: 0" ++ nl) p').
Proof.
  intros p.
  destruct (malformed_id_leaves_record_unpopulated (constructed 1) p ""
              ("bc 2024-01-01 Salary" ++ nl ++ "1000.0" ++ nl) "a"
              eq_refl eq_refl eq_refl) as [Hrun Hshow].
  destruct (Hshow 1 eq_refl) as [_ Hd].
  eexists. split; [exact Hrun|]. split; [reflexivity|].
  apply Hd.
Defined.

(** The [switch] statement on failed input: the input stays failed. *)
Lemma dispatch_failed (c : Z) (ts ts' : list loc) (q p' : process unit object) :
  good (cin q) = false ->
  dispatch c ts q = Ok (ts', p') ->
  good (cin p') = false.
Proof.
  intros Hq Hd.
  destruct (Z.eq_dec c 1) as [H1|H1]; [|destruct (Z.eq_dec c 2) as [H2|H2]].
  1,2: (destruct (TransactionsFacts.dispatch_new c ts q ltac:(auto))
         as (o & q' & Hr & _ & Hd'));
    rewrite Hd' in Hd; injection Hd as _ <-;
    rewrite recordTransaction_failed in Hr by exact Hq;
    injection Hr as _ <-; apply good_setfail.
  destruct (Z.eq_dec c 3) as [->|H3]; [|destruct (Z.eq_dec c 4) as [->|H4]].
  - unfold dispatch in Hd. simpl in Hd.
    apply bind_Ok in Hd as (u & q1 & He & Hd). injection He as _ <-.
    apply bind_Ok in Hd as (u1 & q2 & Hf & Hd). injection Hd as _ <-.
    apply TransactionsFacts.display_loop_frame in Hf as (_ & -> & _).
    exact Hq.
  - rewrite TransactionsFacts.dispatch_exit in Hd. injection Hd as _ <-. exact Hq.
  - rewrite TransactionsFacts.dispatch_invalid in Hd by assumption.
    injection Hd as _ <-. exact Hq.
Qed.

(** An iteration on failed input keeps the choice, and the input stays
    failed. *)
Lemma iteration_failed (v v' : locals) (p p' : process unit object) :
  good (cin p) = false ->
  iteration v p = Ok (v', p') ->
  choice v' = choice v /\ good (cin p') = false.
Proof.
  intros Hg H. rewrite TransactionsFacts.iteration_run in H.
  rewrite (get_int_failed _ _ Hg) in H.
  destruct (choice v) as [c|] eqn:Hc; [|discriminate].
  set (q := set_cin (setfail (cin p)) (set_cout (cout p ++ menu) p)) in H.
  destruct (dispatch c (transactions v) q) as [[ts' p1]|] eqn:Hd; [|discriminate].
  injection H as <- <-. split; [reflexivity|].
  exact (dispatch_failed c _ _ q p1 (good_setfail _) Hd).
Qed.

Lemma do_while_failed (fuel : nat) :
  forall (v : locals) (p : process unit object) r,
    good (cin p) = false ->
    choice v <> Some 4 ->
    do_while fuel v p = Ok r -> fst r = None.
Proof.
  induction fuel as [|fuel IH]; intros v p r Hg Hc H.
  - injection H as <-. reflexivity.
  - rewrite TransactionsFacts.do_while_S in H.
    destruct (iteration v p) as [[v1 p1]|] eqn:Hit; [|discriminate].
    destruct (iteration_failed v v1 p p1 Hg Hit) as [Hc1 Hg1].
    destruct (choice v1) as [c|] eqn:Hcv; [|discriminate].
    destruct (Z.eqb_spec c 4) as [->|Hne]; [congruence|].
    apply (IH v1 p1 r Hg1); [congruence | exact H].
Qed.


(** On failed input, with a choice that is none of 1, 2, 3 and 4, every
    iteration prints the menu and the message, and nothing else happens. *)
Lemma do_while_invalid (fuel : nat) :
  forall (v : locals) (p : process unit object) (c : Z),
    good (cin p) = false ->
    choice v = Some c ->
    c <> 1 -> c <> 2 -> c <> 3 -> c <> 4 ->
    exists p',
      do_while fuel v p = Ok (None, p')
      /\ heap p' = heap p
      /\ good (cin p') = false
      /\ cout p' = cout p ++ copies fuel invalid_round.
Proof.
  induction fuel as [|fuel IH]; intros v p c Hg Hc H1 H2 H3 H4.
  - exists p. split; [reflexivity|]. split; [reflexivity|].
    split; [exact Hg|]. simpl. rewrite append_nil_r. reflexivity.
  - rewrite TransactionsFacts.do_while_S, TransactionsFacts.iteration_run.
    rewrite (get_int_failed _ _ Hg), Hc.
    rewrite TransactionsFacts.dispatch_invalid by assumption.
    cbv beta iota. simpl choice. cbv beta iota.
    rewrite (proj2 (Z.eqb_neq c 4) H4).
    destruct (IH {| transactions := transactions v; choice := Some c |}
                (set_cout (cout (set_cin (setfail (cin p))
                                   (set_cout (cout p ++ menu) p))
                           ++ "Invalid choice! Try again." ++ nl)
                   (set_cin (setfail (cin p)) (set_cout (cout p ++ menu) p)))
                c (good_setfail _) eq_refl H1 H2 H3 H4)
      as (p' & Hrun & Hh & Hg' & Hout).
    exists p'. split; [exact Hrun|]. split; [exact Hh|]. split; [exact Hg'|].
    rewrite Hout. simpl cout. unfold invalid_round.
    change (copies (S fuel) (menu ++ "Invalid choice! Try again." ++ nl))
      with ((menu ++ "Invalid choice! Try again." ++ nl)
            ++ copies fuel (menu ++ "Invalid choice! Try again." ++ nl)).
    rewrite !append_assoc. reflexivity.
Qed.

(** X11.  When the extraction of the choice leaves the input failed or
    at its end, with a choice that is none of 1, 2, 3 and 4 (0 for a
    field that is not a number), the loop never ends: after any number
    of iterations it is still running, has printed the menu and the
    invalid-choice message once per iteration, and has created
    nothing. *)
Theorem failed_choice_repeats_invalid_message :
  forall (v : locals) (p : process unit object) (c : Z) (ist : istream),
    get_int (cin p) (choice v) = (Some c, ist) ->
    good ist = false ->
    c <> 1 -> c <> 2 -> c <> 3 -> c <> 4 ->
    forall fuel : nat,
      exists p',
        do_while fuel v p = Ok (None, p')
        /\ heap p' = heap p
        /\ cout p' = cout p ++ copies fuel invalid_round.
Proof.
  intros v p c ist Hget Hg H1 H2 H3 H4 [|fuel].
  - exists p. split; [reflexivity|]. split; [reflexivity|].
    simpl. rewrite append_nil_r. reflexivity.
  - rewrite TransactionsFacts.do_while_S, TransactionsFacts.iteration_run, Hget.
    rewrite TransactionsFacts.dispatch_invalid by assumption.
    cbv beta iota. simpl choice. cbv beta iota.
    rewrite (proj2 (Z.eqb_neq c 4) H4).
    destruct (do_while_invalid fuel
                {| transactions := transactions v; choice := Some c |}
                (set_cout (cout (set_cin ist (set_cout (cout p ++ menu) p))
                           ++ "Invalid choice! Try again." ++ nl)
                   (set_cin ist (set_cout (cout p ++ menu) p)))
                c Hg eq_refl H1 H2 H3 H4)
      as (p' & Hrun & Hh & _ & Hout).
    exists p'. split; [exact Hrun|]. split; [exact Hh|].
    rewrite Hout. simpl cout. unfold invalid_round.
    change (copies (S fuel) (menu ++ "Invalid choice! Try again." ++ nl))
      with ((menu ++ "Invalid choice! Try again." ++ nl)
            ++ copies fuel (menu ++ "Invalid choice! Try again." ++ nl)).
    rewrite !append_assoc. reflexivity.
Qed.

Lemma failed_choice_repeats_invalid_message_witness :
  exists p',
    do_while 3 initial (start ("exit" ++ nl)) = Ok (None, p')
    /\ heap p' = ∅
    /\ cout p' = invalid_round ++ invalid_round ++ invalid_round.
Proof.
  destruct (failed_choice_repeats_invalid_message initial (start ("exit" ++ nl)) 0
              {| buf := "exit" ++ nl; eofbit := false; failbit := true |}
              eq_refl eq_refl ltac:(discriminate) ltac:(discriminate)
              ltac:(discriminate) ltac:(discriminate) 3%nat)
    as (p' & Hrun & Hh & Hout).
  exists p'. split; [exact Hrun|]. split; [exact Hh|].
  rewrite Hout. reflexivity.
Defined.

(** The passes of a session without the final choice 4: the loop is
    never left. *)
Lemma do_while_truncated (ss : list pass) :
  forall (v : locals) (p : process unit object) (ws : string)
         (recs : list object) (fuel : nat) r,
    all_space ws = true ->
    forallb well_typed ss = true ->
    cin p = reading (ws ++ join (map typed ss)) ->
    point_to (heap p) (transactions v) recs ->
    Forall (fun o => is_Some (text o)) recs ->
    choice v <> Some 4 ->
    do_while fuel v p = Ok r -> fst r = None.
Proof.
  induction ss as [|s ss IH]; intros v p ws recs fuel r Hws Hwt Hcin Hpt Htx Hc H.
  - destruct fuel as [|fuel]; [injection H as <-; reflexivity|].
    rewrite TransactionsFacts.do_while_S in H.
    destruct (iteration v p) as [[v1 p1]|] eqn:Hit; [|discriminate].
    assert (Hg : get_int (cin p) (choice v) = (choice v, at_eof)).
    { rewrite Hcin. simpl map. unfold join. simpl foldr. rewrite append_nil_r.
      apply get_int_blank. exact Hws. }
    assert (Hv1 : choice v1 = choice v /\ good (cin p1) = false).
    { pose proof Hit as Hit'. rewrite TransactionsFacts.iteration_run, Hg in Hit'.
      destruct (choice v) as [c|] eqn:Hcv; [|discriminate].
      set (q := set_cin at_eof (set_cout (cout p ++ menu) p)) in Hit'.
      destruct (dispatch c (transactions v) q) as [[ts' p']|] eqn:Hd; [|discriminate].
      injection Hit' as <- <-. split; [reflexivity|].
      exact (dispatch_failed c _ _ q p' eq_refl Hd). }
    destruct Hv1 as [Hc1 Hg1].
    destruct (choice v1) as [c|] eqn:Hcv; [|discriminate].
    destruct (Z.eqb_spec c 4) as [->|Hne]; [congruence|].
    apply (do_while_failed fuel v1 p1 r Hg1); [congruence | exact H].
  - simpl in Hwt. apply andb_prop in Hwt as [Hs Hss].
    destruct fuel as [|fuel]; [injection H as <-; reflexivity|].
    assert (Hcin1 : cin p = reading (ws ++ typed s ++ join (map typed ss))).
    { rewrite Hcin. reflexivity. }
    destruct (TransactionsFacts.iteration_typed s v p ws _ recs Hws Hs Hcin1 Hpt Htx)
      as (v1 & p1 & Hit & Hc1 & Hne & Hpt1 & Hcin' & _).
    rewrite TransactionsFacts.do_while_S, Hit, Hc1 in H.
    destruct (Z.eqb_spec (choice_of s) 4); [contradiction|].
    apply (IH v1 p1 nl (recs ++ record_of s)%list fuel r eq_refl Hss Hcin' Hpt1);
      [|congruence|exact H].
    apply Forall_app. split; [exact Htx | apply TransactionsFacts.record_of_text].
Qed.

(** X12.  The loop is never left once the input has failed or ended
    without a choice of 4: from a state with failed input and a choice
    other than 4 no number of iterations ends the loop, and on the
    input of any well-typed passes that are not followed by the choice
    4, [main] returns no exit status, however long it runs. *)
Theorem loop_never_ends_without_exit_choice :
  (forall (fuel : nat) (v v' : locals) (p p' : process unit object),
      good (cin p) = false ->
      choice v <> Some 4 ->
      do_while fuel v p <> Ok (Some v', p'))
  /\ (forall (ss : list pass) (fuel : nat) (code : Z)
             (final : process unit object),
         forallb well_typed ss = true ->
         main fuel (start (join (map typed ss))) <> Ok (Some code, final)).
Proof.
  split.
  - intros fuel v v' p p' Hg Hc H.
    apply do_while_failed in H; [discriminate | exact Hg | exact Hc].
  - intros ss fuel code final Hwt H. unfold main in H.
    apply bind_Ok in H as (r & p1 & Hloop & H).
    pose proof (do_while_truncated ss initial (start (join (map typed ss))) "" []
                  fuel (r, p1) eq_refl Hwt eq_refl ltac:(constructor)
                  ltac:(constructor) ltac:(discriminate) Hloop) as Hr.
    simpl in Hr. subst r. discriminate.
Qed.

Lemma loop_never_ends_without_exit_choice_witness :
  let ss := [income_pass 1 "2024-01-01" "Salary"
               {| whole := "1000"; fraction := "0" |};
             display_pass] in
  (forall v' p', do_while 5 {| transactions := []; choice := Some 3 |}
                   {| statics := tt; heap := ∅; cin := at_eof; cout := "" |}
                 <> Ok (Some v', p'))
  /\ forall code final, main 5 (start (join (map typed ss))) <> Ok (Some code, final).
Proof.
  intros ss. destruct loop_never_ends_without_exit_choice as [Ha Hb]. split.
  - intros v' p'. apply Ha; [reflexivity | discriminate].
  - intros code final. apply Hb. reflexivity.
Defined.

(** X13.  On an input with nothing but white space, the choice is never
    assigned, and [main] is undefined from its first iteration. *)
Theorem transactions_blank_input_is_undefined :
  forall (inp : string) (fuel : nat),
    all_space inp = true ->
    main (S fuel) (start inp) = Undefined.
Proof.
  intros inp fuel Hws. unfold main. apply bind_Undefined.
  rewrite TransactionsFacts.do_while_S, TransactionsFacts.iteration_run.
  simpl cin. simpl choice.
  change (from_text inp) with (reading inp).
  rewrite (get_int_blank inp None Hws). reflexivity.
Qed.

Lemma transactions_blank_input_is_undefined_witness :
  main 1 (start "") = Undefined /\ main 7 (start (" " ++ nl)) = Undefined.
Proof.
  split; apply transactions_blank_input_is_undefined; reflexivity.
Defined.

(** X14.  Whenever the loop ends, the registry is the registry it was
    started with followed by the pointers to the objects created since,
    none of which was live before; every object that was live before is
    unchanged; and if the registry owned the live objects before, it
    owns them after. *)
Theorem registry_is_append_only :
  forall (fuel : nat) (v v' : locals) (p p' : process unit object),
    do_while fuel v p = Ok (Some v', p') ->
    (exists new : list loc,
        transactions v' = (transactions v ++ new)%list
        /\ Forall (fun l => heap p !! l = None) new)
    /\ (forall l o, heap p !! l = Some o -> heap p' !! l = Some o)
    /\ (owns v p -> owns v' p').
Proof.
  induction fuel as [|fuel IH]; intros v v' p p' H; [discriminate|].
  rewrite TransactionsFacts.do_while_S in H.
  destruct (iteration v p) as [[v1 p1]|] eqn:Hit; [|discriminate].
  destruct (choice v1) as [c|] eqn:Hc; [|discriminate].
  assert (Hstep : (exists new : list loc,
                      transactions v1 = (transactions v ++ new)%list
                      /\ Forall (fun l => heap p !! l = None) new)
                  /\ (forall l o, heap p !! l = Some o -> heap p1 !! l = Some o)
                  /\ (owns v p -> owns v1 p1)).
  { split; [|split].
    - apply TransactionsFacts.iteration_effect in Hit
        as (c' & ist & _ & _ & [(_ & l & o & Hl & -> & _ & _) | (_ & _ & -> & _ & _)]).
      + exists [l]. split; [reflexivity|]. constructor; [exact Hl | constructor].
      + exists []. split; [rewrite app_nil_r; reflexivity | constructor].
    - intros l o Hl.
      apply TransactionsFacts.iteration_effect in Hit
        as (c' & ist & _ & _ & [(_ & l' & o' & Hl' & _ & -> & _) | (_ & _ & _ & -> & _)]).
      + rewrite lookup_insert_ne; [exact Hl|]. congruence.
      + exact Hl.
    - intros Ho. exact (TransactionsFacts.owns_iteration _ _ _ _ Ho Hit). }
  destruct Hstep as ((new1 & Hn1 & Hf1) & Hk1 & Ho1).
  destruct (Z.eqb_spec c 4) as [->|Hne].
  - injection H as <- <-. split; [eauto|]. split; assumption.
  - destruct (IH v1 v' p1 p' H) as ((new2 & Hn2 & Hf2) & Hk2 & Ho2).
    split; [|split].
    + exists (new1 ++ new2)%list. split.
      * rewrite Hn2, Hn1, app_assoc. reflexivity.
      * apply Forall_app. split; [exact Hf1|].
        eapply Forall_impl; [exact Hf2|]. intros l Hl. simpl in Hl.
        destruct (heap p !! l) as [o|] eqn:Hpl; [|reflexivity].
        rewrite (Hk1 l o Hpl) in Hl. discriminate.
    + intros l o Hl. apply Hk2, Hk1, Hl.
    + intros Ho. apply Ho2, Ho1, Ho.
Qed.

Lemma registry_is_append_only_witness :
  let inp := "1" ++ nl ++ "1 2024-01-01 Salary" ++ nl ++ "1000.0" ++ nl
             ++ "7" ++ nl ++ "4" ++ nl in
  let r := value_or (None, start "") (do_while 3 initial (start inp)) in
  let vf := value_or initial
              (match fst r with Some x => Ok x | None => Undefined end) in
  (exists new : list loc,
      transactions vf = (transactions initial ++ new)%list
      /\ Forall (fun l => heap (start inp) !! l = None) new)
  /\ owns vf (snd r).
Proof.
  intros inp r vf.
  assert (H : do_while 3 initial (start inp) = Ok (Some vf, snd r))
    by (vm_compute; reflexivity).
  destruct (registry_is_append_only 3 initial vf (start inp) (snd r) H)
    as (Hnew & _ & Ho).
  split; [exact Hnew | exact (Ho (TransactionsFacts.owns_start inp))].
Defined.

End TransactionsInputFacts.

(** ** Patrons and books *)

Module LibraryPatronsFacts.
Import Stream Library BookFields PatronFields LibrarySpec LibraryPatrons.

Lemma erase_first_absent (book : loc) (v : list loc) :
  book ∉ v -> Patron.erase_first book v = None.
Proof.
  induction v as [|x v IH]; intros H; [reflexivity|].
  simpl. destruct (Pos.eqb_spec x book) as [->|Hne].
  - exfalso. apply H. left.
  - rewrite IH; [reflexivity|]. intros Hin. apply H. right. exact Hin.
Qed.

Lemma erase_first_present (book : loc) (l1 l2 : list loc) :
  book ∉ l1 -> Patron.erase_first book (l1 ++ book :: l2) = Some (l1 ++ l2)%list.
Proof.
  induction l1 as [|x l1 IH]; intros H.
  - simpl. rewrite Pos.eqb_refl. reflexivity.
  - simpl. destruct (Pos.eqb_spec x book) as [->|Hne].
    + exfalso. apply H. left.
    + rewrite IH; [reflexivity|]. intros Hin. apply H. right. exact Hin.
Qed.

Lemma erase_first_Some (book : loc) (v rest : list loc) :
  Patron.erase_first book v = Some rest ->
  exists l1 l2, v = (l1 ++ book :: l2)%list /\ (book ∉ l1) /\ rest = (l1 ++ l2)%list.
Proof.
  revert rest. induction v as [|x v IH]; intros rest H; [discriminate|].
  simpl in H. destruct (Pos.eqb_spec x book) as [->|Hne].
  - injection H as <-. exists [], v. split; [reflexivity|]. split; [|reflexivity].
    intros Hin. inversion Hin.
  - destruct (Patron.erase_first book v) as [r|]; [|discriminate]. injection H as <-.
    destruct (IH r eq_refl) as (l1 & l2 & -> & Hn & ->).
    exists (x :: l1), l2. split; [reflexivity|]. split; [|reflexivity].
    intros Hin. apply elem_of_cons in Hin as [->|Hin]; [congruence | auto].
Qed.

(** [Patron::returnBook] on a live book, by whether the patron holds it. *)
Lemma returnBook_run (b : BookFields.t) (book : loc) (this : PatronFields.t)
    (p : process unit BookFields.t) :
  heap p !! book = Some b ->
  Patron.returnBook book this p
  = match Patron.erase_first book (borrowedBooks this) with
    | Some rest =>
        Ok ({| name := name this; cardNumber := cardNumber this;
               borrowedBooks := rest |},
            set_heap (<[book := returned b]> (heap p))
              (set_cout (cout p ++ name this ++ " returned " ++ dq
                           ++ title b ++ dq ++ nl) p))
    | None =>
        Ok (this, set_cout (cout p ++ name this ++ " did not borrow " ++ dq
                              ++ title b ++ dq ++ nl) p)
    end.
Proof.
  intros Hb. unfold Patron.returnBook.
  destruct (Patron.erase_first book (borrowedBooks this)) as [rest|].
  - unfold call, call_const, Book.returnBook, Book.getTitle, bind, deref,
      assign, ret, emit. rewrite Hb. simpl. rewrite Hb. simpl.
    rewrite lookup_insert_eq. simpl.
    unfold set_heap, set_cout, returned. simpl.
    rewrite !append_assoc. reflexivity.
  - unfold call_const, Book.getTitle, bind, deref, ret, emit. simpl.
    rewrite Hb. simpl. unfold set_cout. simpl.
    rewrite !append_assoc. reflexivity.
Qed.


(** X15.  [Patron::returnBook] on a live book: when the book is in the
    patron's borrowed list, its first entry is erased, the other
    entries keep their order, the book becomes available and the return
    is reported; when it is not, the patron and the book stay as they
    are -- a book checked out by someone else stays checked out -- and
    only the refusal is printed. *)
Theorem returnBook_erases_first_entry :
  forall (b : BookFields.t) (book : loc) (this : PatronFields.t)
         (p : process unit BookFields.t),
    heap p !! book = Some b ->
    exists this' p',
      Patron.returnBook book this p = Ok (this', p')
      /\ name this' = name this
      /\ cardNumber this' = cardNumber this
      /\ statics p' = statics p
      /\ cin p' = cin p
      /\ (book ∉ borrowedBooks this ->
          this' = this
          /\ heap p' = heap p
          /\ cout p' = cout p ++ name this ++ " did not borrow " ++ dq
                         ++ title b ++ dq ++ nl)
      /\ (forall l1 l2 : list loc,
             borrowedBooks this = (l1 ++ book :: l2)%list ->
             book ∉ l1 ->
             borrowedBooks this' = (l1 ++ l2)%list
             /\ heap p' = <[book := returned b]> (heap p)
             /\ cout p' = cout p ++ name this ++ " returned " ++ dq
                            ++ title b ++ dq ++ nl).
Proof.
  intros b book this p Hb. rewrite (returnBook_run b book this p Hb).
  destruct (Patron.erase_first book (borrowedBooks this)) as [rest|] eqn:He.
  - eexists _, _. split; [reflexivity|]. simpl.
    repeat (split; [reflexivity|]). split.
    + intros Hn. rewrite (erase_first_absent _ _ Hn) in He. discriminate.
    + intros l1 l2 Hl Hn. rewrite Hl, (erase_first_present _ _ _ Hn) in He.
      injection He as <-. repeat split; reflexivity.
  - eexists _, _. split; [reflexivity|]. simpl.
    repeat (split; [reflexivity|]). split.
    + intros _. repeat split; reflexivity.
    + intros l1 l2 Hl Hn. rewrite Hl, (erase_first_present _ _ _ Hn) in He.
      discriminate.
Qed.

Lemma returnBook_erases_first_entry_witness :
  let p := set_heap {[ 1%positive := checked_out (Book.Book "1984" "George Orwell" "67890") ]}
                    Library.start in
  exists this' p',
    Patron.returnBook 1%positive
      {| name := "Alice"; cardNumber := "P001";
         borrowedBooks := [2%positive; 1%positive; 1%positive] |} p
    = Ok (this', p')
    /\ borrowedBooks this' = [2%positive; 1%positive]
    /\ heap p' = <[1%positive := Book.Book "1984" "George Orwell" "67890"]> (heap p).
Proof.
  intros p.
  destruct (returnBook_erases_first_entry
              (checked_out (Book.Book "1984" "George Orwell" "67890"))
              1%positive
              {| name := "Alice"; cardNumber := "P001";
                 borrowedBooks := [2%positive; 1%positive; 1%positive] |} p
              eq_refl)
    as (this' & p' & Hrun & _ & _ & _ & _ & _ & Hin).
  destruct (Hin [2%positive] [1%positive] eq_refl) as (Hl & Hh & _).
  { intros H. apply list_elem_of_singleton in H. discriminate. }
  exists this', p'. split; [exact Hrun|]. split; [exact Hl | exact Hh].
Defined.

(** X16.  Borrowing an available book and returning it restores the
    patron and the books exactly; in between the book is at the end of
    the borrowed list and checked out.  Only the two messages are
    added to the output. *)
Theorem borrow_then_return_restores :
  forall (b : BookFields.t) (book : loc) (this : PatronFields.t)
         (p : process unit BookFields.t),
    heap p !! book = Some b ->
    isAvailable b = true ->
    book ∉ borrowedBooks this ->
    exists (this1 : PatronFields.t) (p1 p2 : process unit BookFields.t),
      Patron.borrowBook book this p = Ok (this1, p1)
      /\ borrowedBooks this1 = (borrowedBooks this ++ [book])%list
      /\ heap p1 !! book = Some (checked_out b)
      /\ Patron.returnBook book this1 p1 = Ok (this, p2)
      /\ heap p2 = heap p
      /\ cin p2 = cin p
      /\ cout p2 = cout p ++ name this ++ " borrowed " ++ dq ++ title b ++ dq ++ nl
                     ++ name this ++ " returned " ++ dq ++ title b ++ dq ++ nl.
Proof.
  intros b book this p Hb Hav Hn.
  assert (Hrun : Patron.borrowBook book this p
                 = Ok ({| name := name this; cardNumber := cardNumber this;
                          borrowedBooks := borrowedBooks this ++ [book] |},
                       set_heap (<[book := checked_out b]> (heap p))
                         (set_cout (cout p ++ name this ++ " borrowed " ++ dq
                                      ++ title b ++ dq ++ nl) p))).
  { unfold Patron.borrowBook, call_value, call_const, Book.checkOut,
      Book.getTitle, bind, deref, assign, ret, emit.
    rewrite Hb, Hav. simpl. rewrite Hb. simpl. rewrite lookup_insert_eq. simpl.
    unfold set_heap, set_cout, checked_out. simpl.
    rewrite !append_assoc. reflexivity. }
  eexists _, _, _. split; [exact Hrun|]. split; [reflexivity|].
  split; [apply lookup_insert_eq|]. split.
  - rewrite (returnBook_run (checked_out b) book); [|apply lookup_insert_eq].
    simpl borrowedBooks. rewrite <- (app_nil_r (borrowedBooks this)) at 1.
    rewrite <- app_assoc. simpl app. rewrite (erase_first_present _ _ _ Hn).
    rewrite app_nil_r. destruct this as [n c l]. reflexivity.
  - simpl. split.
    + rewrite insert_insert_eq. apply insert_id. rewrite Hb. f_equal.
      destruct b as [t a i av]. simpl in *. subst av. reflexivity.
    + split; [reflexivity|]. rewrite !append_assoc. reflexivity.
Qed.


(** [Patron::borrowBook] on a live book, by its availability. *)
Lemma borrowBook_run (b : BookFields.t) (book : loc) (this : PatronFields.t)
    (p : process unit BookFields.t) :
  heap p !! book = Some b ->
  Patron.borrowBook book this p
  = if isAvailable b then
      Ok ({| name := name this; cardNumber := cardNumber this;
             borrowedBooks := borrowedBooks this ++ [book] |},
          set_heap (<[book := checked_out b]> (heap p))
            (set_cout (cout p ++ name this ++ " borrowed " ++ dq
                         ++ title b ++ dq ++ nl) p))
    else
      Ok (this, set_cout (cout p ++ "Sorry, " ++ dq ++ title b ++ dq
                            ++ " is not available." ++ nl) p).
Proof.
  intros Hb.
  unfold Patron.borrowBook, call_value, call_const, Book.checkOut,
    Book.getTitle, bind, deref, assign, ret, emit.
  rewrite Hb. destruct (isAvailable b) eqn:Hav; simpl; rewrite Hb; simpl.
  - rewrite lookup_insert_eq. simpl. unfold set_heap, set_cout, checked_out.
    simpl. rewrite !append_assoc. reflexivity.
  - rewrite lookup_insert_eq. simpl. unfold set_heap, set_cout. simpl.
    rewrite insert_id by exact Hb. rewrite !append_assoc.
    destruct p; reflexivity.
Qed.

Lemma borrowBook_dangling (book : loc) (this : PatronFields.t)
    (p : process unit BookFields.t) :
  heap p !! book = None -> Patron.borrowBook book this p = Undefined.
Proof.
  intros Hb. unfold Patron.borrowBook, call_value, bind, deref.
  rewrite Hb. reflexivity.
Qed.

Lemma returnBook_dangling (book : loc) (this : PatronFields.t)
    (p : process unit BookFields.t) :
  heap p !! book = None -> Patron.returnBook book this p = Undefined.
Proof.
  intros Hb. unfold Patron.returnBook.
  destruct (Patron.erase_first book (borrowedBooks this)).
  - unfold call, bind, deref. rewrite Hb. reflexivity.
  - unfold call_const, bind, deref, emit. simpl. rewrite Hb. reflexivity.
Qed.

Lemma holders_middle (book : loc) (l1 l2 : list PatronFields.t)
    (pt : PatronFields.t) :
  holders book (l1 ++ pt :: l2)
  = (holders book l1 + count_occ Pos.eq_dec (borrowedBooks pt) book
     + holders book l2)%nat.
Proof.
  unfold holders. rewrite map_app, concat_app, map_cons, concat_cons.
  rewrite !count_occ_app. apply Nat.add_assoc.
Qed.

Lemma holders_insert (book : loc) (ps : list PatronFields.t) (i : nat)
    (pt pt' : PatronFields.t) :
  ps !! i = Some pt ->
  (holders book (<[i := pt']> ps) + count_occ Pos.eq_dec (borrowedBooks pt) book
   = holders book ps + count_occ Pos.eq_dec (borrowedBooks pt') book)%nat.
Proof.
  intros Hi.
  rewrite insert_take_drop by (eapply lookup_lt_Some; exact Hi).
  rewrite <- (take_drop_middle ps i pt Hi) at 3.
  rewrite !holders_middle. lia.
Qed.

Lemma holders_here (book : loc) (ps : list PatronFields.t) (i : nat)
    (pt : PatronFields.t) :
  ps !! i = Some pt ->
  (count_occ Pos.eq_dec (borrowedBooks pt) book <= holders book ps)%nat.
Proof.
  intros Hi. rewrite <- (take_drop_middle ps i pt Hi), holders_middle. lia.
Qed.

Lemma count_occ_snoc (v : list loc) (x book : loc) :
  count_occ Pos.eq_dec (v ++ [x]) book
  = (count_occ Pos.eq_dec v book + if Pos.eq_dec x book then 1 else 0)%nat.
Proof.
  rewrite count_occ_app. simpl. destruct (Pos.eq_dec x book); reflexivity.
Qed.

Lemma count_occ_middle (l1 l2 : list loc) (x book : loc) :
  count_occ Pos.eq_dec (l1 ++ x :: l2) book
  = (count_occ Pos.eq_dec (l1 ++ l2) book + if Pos.eq_dec x book then 1 else 0)%nat.
Proof.
  rewrite !count_occ_app. simpl. destruct (Pos.eq_dec x book); lia.
Qed.

(** One action keeps the flags and the lists in agreement. *)
Lemma act_consistent (a : action) (ps ps' : list PatronFields.t)
    (p p' : process unit BookFields.t) :
  consistent (heap p) ps ->
  act a ps p = Ok (ps', p') ->
  consistent (heap p') ps'
  /\ length ps' = length ps
  /\ dom (heap p') = dom (heap p).
Proof.
  intros Hc H. destruct a as [i book|i book]; simpl in H.
  - destruct (ps !! i) as [pt|] eqn:Hi; [|injection H as <- <-; auto].
    apply bind_Ok in H as (pt' & p1 & Hrun & H). injection H as <- <-.
    destruct (heap p !! book) as [b|] eqn:Hb;
      [|rewrite borrowBook_dangling in Hrun by exact Hb; discriminate].
    rewrite (borrowBook_run b) in Hrun by exact Hb.
    destruct (isAvailable b) eqn:Hav; injection Hrun as <- <-.
    + split; [|split].
      * intros book' b' Hb'. simpl in Hb'.
        pose proof (holders_insert book' ps i pt
                      {| name := name pt; cardNumber := cardNumber pt;
                         borrowedBooks := borrowedBooks pt ++ [book] |} Hi) as Hh.
        simpl in Hh. rewrite count_occ_snoc in Hh.
        destruct (Pos.eq_dec book book') as [<-|Hne].
        -- rewrite lookup_insert_eq in Hb'. injection Hb' as <-. simpl.
           pose proof (Hc book b Hb) as H0. rewrite Hav in H0. lia.
        -- rewrite lookup_insert_ne in Hb' by exact Hne.
           rewrite <- (Hc book' b' Hb'). lia.
      * apply length_insert.
      * simpl. rewrite dom_insert_L. apply subseteq_union_1_L.
        apply singleton_subseteq_l, elem_of_dom. eauto.
    + split; [|split; [apply length_insert | reflexivity]].
      rewrite list_insert_id by exact Hi. exact Hc.
  - destruct (ps !! i) as [pt|] eqn:Hi; [|injection H as <- <-; auto].
    apply bind_Ok in H as (pt' & p1 & Hrun & H). injection H as <- <-.
    destruct (heap p !! book) as [b|] eqn:Hb;
      [|rewrite returnBook_dangling in Hrun by exact Hb; discriminate].
    rewrite (returnBook_run b) in Hrun by exact Hb.
    destruct (Patron.erase_first book (borrowedBooks pt)) as [rest|] eqn:He;
      injection Hrun as <- <-.
    + apply erase_first_Some in He as (l1 & l2 & Hl & Hn & ->).
      split; [|split].
      * intros book' b' Hb'. simpl in Hb'.
        pose proof (holders_insert book' ps i pt
                      {| name := name pt; cardNumber := cardNumber pt;
                         borrowedBooks := l1 ++ l2 |} Hi) as Hh.
        simpl in Hh. rewrite Hl, count_occ_middle in Hh.
        destruct (Pos.eq_dec book book') as [<-|Hne].
        -- rewrite lookup_insert_eq in Hb'. injection Hb' as <-. simpl.
           pose proof (Hc book b Hb) as H0.
           pose proof (holders_here book ps i pt Hi) as Hle.
           rewrite Hl, count_occ_middle in Hle.
           destruct (Pos.eq_dec book book) as [_|Hx]; [|congruence].
           destruct (isAvailable b); lia.
        -- rewrite lookup_insert_ne in Hb' by exact Hne.
           rewrite <- (Hc book' b' Hb'). lia.
      * apply length_insert.
      * simpl. rewrite dom_insert_L. apply subseteq_union_1_L.
        apply singleton_subseteq_l, elem_of_dom. eauto.
    + split; [|split; [apply length_insert | reflexivity]].
      rewrite list_insert_id by exact Hi. exact Hc.
Qed.

(** One action is defined when its book is live. *)
Lemma act_defined (a : action) (ps : list PatronFields.t)
    (p : process unit BookFields.t) :
  is_Some (heap p !! book_of a) ->
  exists ps' p', act a ps p = Ok (ps', p').
Proof.
  intros [b Hb]. destruct a as [i book|i book]; simpl in *.
  - destruct (ps !! i) as [pt|]; [|eexists _, _; reflexivity].
    unfold bind. rewrite (borrowBook_run b) by exact Hb.
    destruct (isAvailable b); eexists _, _; reflexivity.
  - destruct (ps !! i) as [pt|]; [|eexists _, _; reflexivity].
    unfold bind. rewrite (returnBook_run b) by exact Hb.
    destruct (Patron.erase_first book (borrowedBooks pt));
      eexists _, _; reflexivity.
Qed.

(** X17.  From a state in which the availability flags agree with the
    borrowed lists, any sequence of [borrowBook] and [returnBook] calls
    by any patrons on live books is defined and keeps them in
    agreement: a book that is checked out is in the borrowed lists
    exactly once, and an available book in none.  No book is created or
    destroyed. *)
Theorem lending_keeps_books_and_lists_in_agreement :
  forall (l : list action) (ps : list PatronFields.t)
         (p : process unit BookFields.t),
    consistent (heap p) ps ->
    Forall (fun a => is_Some (heap p !! book_of a)) l ->
    exists (ps' : list PatronFields.t) (p' : process unit BookFields.t),
      acts l ps p = Ok (ps', p')
      /\ consistent (heap p') ps'
      /\ length ps' = length ps
      /\ dom (heap p') = dom (heap p).
Proof.
  induction l as [|a l IH]; intros ps p Hc Hl.
  - exists ps, p. auto.
  - apply Forall_cons in Hl as [Ha Hl].
    destruct (act_defined a ps p Ha) as (ps1 & p1 & H1).
    destruct (act_consistent a ps ps1 p p1 Hc H1) as (Hc1 & Hlen1 & Hdom1).
    destruct (IH ps1 p1 Hc1) as (ps' & p' & H & Hc' & Hlen & Hdom).
    { eapply Forall_impl; [exact Hl|]. intros a' Ha'. simpl in *.
      apply elem_of_dom. rewrite Hdom1. apply elem_of_dom. exact Ha'. }
    exists ps', p'. split.
    + simpl. unfold bind. rewrite H1. exact H.
    + split; [exact Hc'|]. split; congruence.
Qed.


Lemma initially_consistent (h : gmap loc BookFields.t) (ps : list PatronFields.t) :
  (forall book b, h !! book = Some b -> isAvailable b = true) ->
  Forall (fun pt => borrowedBooks pt = []) ps ->
  consistent h ps.
Proof.
  intros Hav Hps book b Hb. rewrite (Hav book b Hb).
  unfold holders. induction Hps as [|pt ps Hpt _ IH]; [reflexivity|].
  simpl. rewrite Hpt. exact IH.
Qed.

Lemma lending_keeps_books_and_lists_in_agreement_witness :
  let p := set_heap (<[1%positive := gatsby]> (<[2%positive := nineteen]> ∅))
             Library.start in
  exists (ps' : list PatronFields.t) (p' : process unit BookFields.t),
    acts [borrows 0 1%positive; borrows 0 2%positive; borrows 1 1%positive;
          gives_back 0 1%positive; borrows 1 1%positive] [alice; bob] p
    = Ok (ps', p')
    /\ consistent (heap p') ps'.
Proof.
  intros p.
  destruct (lending_keeps_books_and_lists_in_agreement
              [borrows 0 1%positive; borrows 0 2%positive; borrows 1 1%positive;
               gives_back 0 1%positive; borrows 1 1%positive] [alice; bob] p)
    as (ps' & p' & Hrun & Hc & _).
  - apply initially_consistent; [|repeat constructor].
    intros book b Hb. simpl in Hb.
    apply lookup_insert_Some in Hb as [[_ <-]|[_ Hb]]; [reflexivity|].
    apply lookup_insert_Some in Hb as [[_ <-]|[_ Hb]]; [reflexivity|].
    rewrite lookup_empty in Hb. discriminate.
  - repeat constructor; simpl; eexists; reflexivity.
  - exists ps', p'. split; [exact Hrun | exact Hc].
Defined.

Lemma borrow_then_return_restores_witness :
  let p := set_heap {[ 1%positive := nineteen ]} Library.start in
  exists (this1 : PatronFields.t) (p1 p2 : process unit BookFields.t),
    Patron.borrowBook 1%positive alice p = Ok (this1, p1)
    /\ Patron.returnBook 1%positive this1 p1 = Ok (alice, p2)
    /\ heap p2 = heap p.
Proof.
  intros p.
  destruct (borrow_then_return_restores nineteen 1%positive alice p
              eq_refl eq_refl)
    as (this1 & p1 & p2 & H1 & _ & _ & H2 & Hh & _).
  - intros H. inversion H.
  - exists this1, p1, p2. split; [exact H1|]. split; [exact H2 | exact Hh].
Defined.

(** The loop of [Patron::displayInfo] over live books. *)
Lemma borrowed_line_run (l : loc) (b : BookFields.t)
    (p : process unit BookFields.t) :
  heap p !! l = Some b ->
  (emit "  - " ;;
   t <- call_const l Book.getTitle ;; emit t ;;
   emit " by " ;;
   a <- call_const l Book.getAuthor ;; emit a ;;
   emit nl) p
  = Ok (tt, set_cout (cout p ++ borrowed_line b) p).
Proof.
  intros Hl.
  unfold call_const, Book.getTitle, Book.getAuthor, bind, deref, ret, emit.
  simpl. rewrite Hl. simpl. rewrite Hl. simpl.
  unfold set_cout, borrowed_line. simpl. rewrite !append_assoc. reflexivity.
Qed.

Lemma borrowed_lines (ls : list loc) :
  forall (bs : list BookFields.t) (p : process unit BookFields.t),
    point_to (heap p) ls bs ->
    for_each ls (fun book =>
        emit "  - " ;;
        t <- call_const book Book.getTitle ;; emit t ;;
        emit " by " ;;
        a <- call_const book Book.getAuthor ;; emit a ;;
        emit nl) p
    = Ok (tt, set_cout (cout p ++ join (map borrowed_line bs)) p).
Proof.
  induction ls as [|l ls IH]; intros bs p H; inversion H as [|? b ? bs' Hl H']; subst.
  - simpl. unfold ret, set_cout. rewrite append_nil_r. destruct p; reflexivity.
  - simpl for_each. unfold bind at 1. rewrite (borrowed_line_run l b p Hl).
    rewrite (IH bs' (set_cout (cout p ++ borrowed_line b) p) H').
    simpl. unfold set_cout, join. simpl. rewrite !append_assoc. reflexivity.
Qed.

Lemma borrowed_lines_dangling (ls : list loc) :
  forall p : process unit BookFields.t,
    (exists l, l ∈ ls /\ heap p !! l = None) ->
    for_each ls (fun book =>
        emit "  - " ;;
        t <- call_const book Book.getTitle ;; emit t ;;
        emit " by " ;;
        a <- call_const book Book.getAuthor ;; emit a ;;
        emit nl) p
    = Undefined.
Proof.
  induction ls as [|x ls IH]; intros p (l & Hin & Hl).
  - inversion Hin.
  - simpl for_each. unfold bind at 1.
    destruct (heap p !! x) as [b|] eqn:Hx.
    + rewrite (borrowed_line_run x b p Hx). apply IH. exists l. split; [|exact Hl].
      apply elem_of_cons in Hin as [->|Hin]; [congruence | exact Hin].
    + unfold call_const, bind, deref, emit. simpl. rewrite Hx. reflexivity.
Qed.

Lemma bind_emit {St Obj B : Type} (s : string) (k : unit -> @prog St Obj B)
    (p : process St Obj) :
  bind (emit s) k p = k tt (set_cout (cout p ++ s) p).
Proof. reflexivity. Qed.

(** X18.  [Patron::displayInfo] prints the name, the card number and
    then one line per borrowed book, in the order of borrowing, or the
    line None when the list is empty; it changes nothing else.  With a
    borrowed pointer that is no longer live it is undefined. *)
Theorem displayInfo_lists_borrowed_books :
  forall (this : PatronFields.t) (p : process unit BookFields.t),
    (forall bs : list BookFields.t,
        point_to (heap p) (borrowedBooks this) bs ->
        Patron.displayInfo this p
        = Ok (tt, set_cout
                    (cout p
                     ++ "Patron Name: " ++ name this ++ nl
                     ++ "Card Number: " ++ cardNumber this ++ nl
                     ++ "Borrowed Books:" ++ nl
                     ++ match bs with
                        | [] => "  None" ++ nl
                        | _ => join (map borrowed_line bs)
                        end
                     ++ "----------------------" ++ nl) p))
    /\ ((exists l, l ∈ borrowedBooks this /\ heap p !! l = None) ->
        Patron.displayInfo this p = Undefined).
Proof.
  intros this p. split.
  - intros bs H. unfold Patron.displayInfo. rewrite !bind_emit.
    destruct (borrowedBooks this) as [|l ls] eqn:Hl.
    + inversion H. subst bs. rewrite bind_emit.
      unfold emit, set_cout. simpl. rewrite !append_assoc. reflexivity.
    + destruct bs as [|b bs]; [inversion H|].
      erewrite bind_run; [|apply (borrowed_lines (l :: ls) (b :: bs)); exact H].
      unfold emit, set_cout. simpl. rewrite !append_assoc. reflexivity.
  - intros Hd. unfold Patron.displayInfo. rewrite !bind_emit.
    destruct (borrowedBooks this) as [|l ls] eqn:Hl.
    + destruct Hd as (x & Hx & _). inversion Hx.
    + apply bind_Undefined. apply borrowed_lines_dangling. exact Hd.
Qed.

Lemma displayInfo_lists_borrowed_books_witness :
  let p := set_heap (<[1%positive := gatsby]> (<[2%positive := nineteen]> ∅))
             Library.start in
  Patron.displayInfo
    {| name := "Alice"; cardNumber := "P001";
       borrowedBooks := [2%positive; 1%positive] |} p
  = Ok (tt, set_cout
              ("Patron Name: Alice" ++ nl ++ "Card Number: P001" ++ nl
               ++ "Borrowed Books:" ++ nl
               ++ "  - 1984 by George Orwell" ++ nl
               ++ "  - The Great Gatsby by F. Scott Fitzgerald" ++ nl
               ++ "----------------------" ++ nl) p)
  /\ Patron.displayInfo
       {| name := "Bob"; cardNumber := "P002"; borrowedBooks := [3%positive] |} p
     = Undefined.
Proof.
  intros p. split.
  - apply (proj1 (displayInfo_lists_borrowed_books
                    {| name := "Alice"; cardNumber := "P001";
                       borrowedBooks := [2%positive; 1%positive] |} p)
             [nineteen; gatsby]).
    repeat constructor.
  - apply (proj2 (displayInfo_lists_borrowed_books
                    {| name := "Bob"; cardNumber := "P002";
                       borrowedBooks := [3%positive] |} p)).
    exists 3%positive. split; [left | reflexivity].
Defined.

End LibraryPatronsFacts.
